(** * media2array: PROGMEM array generator for images and WAV audio

    A shallow embedding of [media2array.py] and the verification of its
    transcoding core: the hex table formatter ([HexTable]), the bitmap
    packer and the 5/6/5 colour quantizer ([convertImage]) and the WAV
    down-mixer ([convertWav]).

    The script is read with the meaning Python 3 gives it (indexing
    [bytes] yields integers).  Python integers are unbounded, so every
    integer is a [Z].  The contents of a file are a [list byte].  Effects
    ([sys.stdout], [sys.stderr], raised exceptions) are threaded through
    a small state-and-exception monad; what was printed before an
    exception stays printed.  The file name only supplies the prefix of
    the generated identifiers, which is a parameter here, and the image
    library supplies the decoded image.  The gamma tables printed by the
    main block are computed with [math.pow] on floating-point numbers and
    are not part of the embedding. *)

From Stdlib Require Import ZArith List String Ascii Lia Bool DecimalString.
From Stdlib.Strings Require Import Byte.
Import ListNotations.

Local Open Scope string_scope.
Local Open Scope Z_scope.

(** ** Effects *)

(** The exceptions the program can raise. *)
Inductive exn : Type :=
| AssertionError
| ZeroDivisionError
| IndexError.

(** The two output streams, and a ghost log [hexlog] of the arguments of
    every call of [HexTable.write], in call order.  The log is not
    program state: it only lets theorems speak about the values handed to
    the formatter. *)
Record world : Type := World {
  stdout : string;
  stderr : string;
  hexlog : list Z
}.

Definition world0 : world := World "" "" [].

Inductive outcome (A : Type) : Type :=
| Return (a : A)
| Raise (e : exn).
Arguments Return {A} a.
Arguments Raise {A} e.

(** A computation reads and extends the world; what was written before an
    exception stays written. *)
Definition M (A : Type) : Type := world -> outcome A * world.

Definition ret {A} (a : A) : M A := fun w => (Return a, w).

Definition raise {A} (e : exn) : M A := fun w => (Raise e, w).

Definition bind {A B} (c : M A) (k : A -> M B) : M B :=
  fun w =>
    match c w with
    | (Return a, w') => k a w'
    | (Raise e, w') => (Raise e, w')
    end.

Declare Scope monad_scope.
Delimit Scope monad_scope with monad.
Notation "x <- c1 ;; c2" := (bind c1 (fun x => c2))
  (at level 61, c1 at next level, right associativity) : monad_scope.
Notation "c1 ;; c2" := (bind c1 (fun _ => c2))
  (at level 61, right associativity) : monad_scope.
Local Open Scope monad_scope.

(** [try: c except e: handler] *)
Definition try_except {A} (c : M A) (e : exn) (handler : M A) : M A :=
  fun w =>
    match c w with
    | (Return a, w') => (Return a, w')
    | (Raise e', w') =>
        match e, e' with
        | AssertionError, AssertionError
        | ZeroDivisionError, ZeroDivisionError
        | IndexError, IndexError => handler w'
        | _, _ => (Raise e', w')
        end
    end.

(** [assert b] *)
Definition assert (b : bool) : M unit :=
  if b then ret tt else raise AssertionError.

Definition stdout_write (s : string) : M unit :=
  fun w => (Return tt, World (stdout w ++ s) (stderr w) (hexlog w)).

Definition stderr_write (s : string) : M unit :=
  fun w => (Return tt, World (stdout w) (stderr w ++ s) (hexlog w)).

Definition log_value (n : Z) : M unit :=
  fun w => (Return tt, World (stdout w) (stderr w) (hexlog w ++ [n])%list).

(** [for x in xs: s = body x s] *)
Fixpoint for_each {A S} (xs : list A) (body : A -> S -> M S) (s : S) : M S :=
  match xs with
  | [] => ret s
  | x :: xs' => s' <- body x s ;; for_each xs' body s'
  end.

(** [range(n)] *)
Definition range (n : Z) : list Z := map Z.of_nat (seq 0 (Z.to_nat n)).

(** ** Text rendering *)

Definition nl : string := String "010"%char "".

(** [print(s)] writes [s] and a newline. *)
Definition print (s : string) : M unit := stdout_write (s ++ nl).

(** [%d] *)
Definition dec (n : Z) : string := NilZero.string_of_int (Z.to_int n).

Definition hex_digit (d : Z) : ascii :=
  nth (Z.to_nat d) (list_ascii_of_string "0123456789abcdef") "0"%char.

(** Number of hexadecimal digits of [n >= 0], at least one. *)
Definition hex_ndigits (n : Z) : nat := S (Z.to_nat (Z.log2 n / 4)).

(** The digits of [n >= 0] in base 16, most significant first. *)
Definition hex_of (n : Z) : string :=
  string_of_list_ascii
    (map (fun i => hex_digit ((n / 16 ^ Z.of_nat i) mod 16))
         (rev (seq 0 (hex_ndigits n)))).

Fixpoint zeros (k : nat) : string :=
  match k with
  | O => ""
  | S k' => String "0"%char (zeros k')
  end.

(** ["{0:#0{1}x}".format(n, width)]: sign, [0x], then the digits padded
    with zeros on the left to [width] characters in all. *)
Definition format_hex (n width : Z) : string :=
  let sign := if n <? 0 then "-" else "" in
  let body := hex_of (Z.abs n) in
  let pad := (Z.to_nat width - (String.length sign + 2 + String.length body))%nat in
  sign ++ "0x" ++ zeros pad ++ body.

(** ** FORMATTED HEX OUTPUT *)

Record HexTable : Type := mkHexTable {
  hexLimit : Z;    (* Total number of elements in array *)
  hexCounter : Z;  (* Current array element number 0 to hexLimit-1 *)
  hexDigits : Z;   (* Digits per array element (after 0x) *)
  hexColumns : Z;  (* Max number of elements before line wrap *)
  hexColumn : Z    (* Current column number, 0 to hexColumns-1 *)
}.

(** [HexTable(count, columns, digits)] *)
Definition HexTable_init (count columns digits : Z) : HexTable :=
  mkHexTable count 0 digits columns columns.

Definition set_hexColumn (h : HexTable) (c : Z) : HexTable :=
  mkHexTable (hexLimit h) (hexCounter h) (hexDigits h) (hexColumns h) c.

Definition set_hexCounter (h : HexTable) (c : Z) : HexTable :=
  mkHexTable (hexLimit h) c (hexDigits h) (hexColumns h) (hexColumn h).

(** [HexTable.write(self, n)]; the updated object is returned. *)
Definition write (h : HexTable) (n : Z) : M HexTable :=
  log_value n ;;
  (if 0 <? hexCounter h then
     stdout_write "," ;;
     if hexColumn h <? hexColumns h - 1 then stdout_write " " else ret tt
   else ret tt) ;;
  let h := set_hexColumn h (hexColumn h + 1) in
  h <- (if hexColumns h <=? hexColumn h then
          stdout_write (nl ++ "  ") ;;
          ret (set_hexColumn h 0)
        else ret h) ;;
  stdout_write (format_hex n (hexDigits h + 2)) ;;
  let h := set_hexCounter h (hexCounter h + 1) in
  (if hexLimit h <=? hexCounter h then print (" };" ++ nl) else ret tt) ;;
  ret h.

(** ** IMAGE CONVERSION *)

(** What the image library hands over: [im.mode == '1'] gives a bitmap
    whose pixel accessor yields unsigned sample values; any other mode is
    converted to RGB, three 8-bit channels per pixel.  [pixels x y] is
    [pixels[x, y]]. *)
Inductive image : Type :=
| Bitmap (width height : nat) (pixels : nat -> nat -> N)
| Colour (width height : nat) (pixels : nat -> nat -> byte * byte * byte).

Definition byte_val (b : byte) : Z := Z.of_N (Byte.to_N b).

(** The body of [for x in range(im.size[0])]; the loop state is
    [(bits, sum, hex)]. *)
Definition bitmap_pixel (pixels : nat -> nat -> N) (y x : nat)
    (st : Z * Z * HexTable) : M (Z * Z * HexTable) :=
  let '(bits, sum, hex) := st in
  let p := if (0 <? pixels x y)%N then 1 else 0 in
  let sum := Z.shiftl sum 1 + p in
  let bits := bits + 1 in
  if 8 <=? bits then
    hex <- write hex sum ;;
    ret (0, 0, hex)
  else ret (bits, sum, hex).

(** One scanline of the bitmap loop (the body of [for y in ...]). *)
Definition bitmap_row (pixels : nat -> nat -> N) (width : nat)
    (y : nat) (hex : HexTable) : M HexTable :=
  st <- for_each (seq 0 width) (bitmap_pixel pixels y) (0, 0, hex) ;;
  let '(bits, sum, hex) := st in
  if 0 <? bits then write hex sum (* Scanline pad if not a multiple of 8 *)
  else ret hex.

(** RRRRRRRR GGGGGGGG BBBBBBBB -> RRRRRGGGGGGBBBBB *)
Definition rgb565 (p : byte * byte * byte) : Z :=
  let '(r, g, b) := p in
  Z.lor (Z.lor (Z.shiftl (Z.land (byte_val r) 248) 8)
               (Z.shiftl (Z.land (byte_val g) 252) 3))
        (Z.shiftr (byte_val b) 3).

Definition convertImage_body (prefix : string) (im : image) : M Z :=
  match im with
  | Bitmap width height pixels =>
      let hex := HexTable_init (((Z.of_nat width + 7) / 8) * Z.of_nat height) 12 2 in
      stderr_write ("Image OK" ++ nl) ;;
      stdout_write
        ("#define " ++ prefix ++ "Width  " ++ dec (Z.of_nat width) ++ nl ++
         "#define " ++ prefix ++ "Height " ++ dec (Z.of_nat height) ++ nl ++
         "const uint8_t PROGMEM " ++ prefix ++ "Bitmap[] = {") ;;
      for_each (seq 0 height) (bitmap_row pixels width) hex ;;
      ret 0
  | Colour width height pixels =>
      let hex := HexTable_init (Z.of_nat width * Z.of_nat height) 9 4 in
      stderr_write ("Image OK" ++ nl) ;;
      stdout_write
        ("#define " ++ prefix ++ "FPS 30" ++ nl ++
         "const uint16_t PROGMEM " ++ prefix ++ "PixelData[] = {") ;;
      for_each (seq 0 width) (* Column major *)
        (fun x hex =>
           for_each (seq 0 height)
             (fun y hex => write hex (rgb565 (pixels x y))) hex)
        hex ;;
      ret 1
  end.

(** [convertImage(filename)].  [decoded] is what [Image.open] makes of
    the file, [None] when it raises; the bare [except:] turns any
    exception into the result -1. *)
Definition convertImage (prefix : string) (decoded : option image) : M Z :=
  fun w =>
    match decoded with
    | None => (stderr_write ("Not an image file (?)" ++ nl) ;; ret (-1)) w
    | Some im =>
        match convertImage_body prefix im w with
        | (Return r, w') => (Return r, w')
        | (Raise _, w') =>
            (stderr_write ("Not an image file (?)" ++ nl) ;; ret (-1)) w'
        end
    end.

(** ** AUDIO CONVERSION *)

(** Position of Python index [i] in a sequence of length [len]: negative
    indices count from the end, anything outside raises [IndexError]. *)
Definition py_index (len : nat) (i : Z) : option nat :=
  let j := if i <? 0 then i + Z.of_nat len else i in
  if (0 <=? j) && (j <? Z.of_nat len) then Some (Z.to_nat j) else None.

(** [l[i]] *)
Definition getitem {A} (l : list A) (i : Z) : M A :=
  match py_index (List.length l) i with
  | Some j =>
      match nth_error l j with
      | Some a => ret a
      | None => raise IndexError
      end
  | None => raise IndexError
  end.

Fixpoint list_update {A} (l : list A) (j : nat) (a : A) : list A :=
  match l, j with
  | [], _ => []
  | _ :: l', O => a :: l'
  | x :: l', S j' => x :: list_update l' j' a
  end.

(** [l[i] = a] *)
Definition setitem {A} (l : list A) (i : Z) (a : A) : M (list A) :=
  match py_index (List.length l) i with
  | Some j => ret (list_update l j a)
  | None => raise IndexError
  end.

(** [l[lo:hi]] for [0 <= lo <= hi]: the slice is cut short at the end of
    the sequence, it never raises. *)
Definition slice {A} (l : list A) (lo hi : Z) : list A :=
  firstn (Z.to_nat (hi - lo)) (skipn (Z.to_nat lo) l).

(** [a // b] *)
Definition floordiv (a b : Z) : M Z :=
  if b =? 0 then raise ZeroDivisionError else ret (a / b).

(** Decode unsigned value from a series of bytes in WAV file (LSB first) *)
Definition uvalue (bytes : list byte) : Z :=
  snd (fold_left
         (fun (acc : Z * Z) b =>
            let '(i, result) := acc in
            (i + 1, result + Z.shiftl (byte_val b) (i * 8)))
         bytes (0, 0)).

Definition bytes_eqb (a b : list byte) : bool :=
  if list_eq_dec Byte.byte_eq_dec a b then true else false.

(** [bytes[0:4] == b'RIFF' and bytes[8:16] == b'WAVEfmt '] *)
Definition wav_magic (bytes : list byte) : bool :=
  bytes_eqb (slice bytes 0 4) (list_byte_of_string "RIFF") &&
  bytes_eqb (slice bytes 8 16) (list_byte_of_string "WAVEfmt ").

Definition wav_chunksize (bytes : list byte) : Z := uvalue (slice bytes 16 20).
Definition wav_channels (bytes : list byte) : Z := uvalue (slice bytes 22 24).
Definition wav_rate (bytes : list byte) : Z := uvalue (slice bytes 24 28).
Definition wav_bytesPer (bytes : list byte) : Z := uvalue (slice bytes 32 34).
Definition wav_bitsPer (bytes : list byte) : Z := uvalue (slice bytes 34 36).
Definition wav_bytesTotal (bytes : list byte) : Z :=
  uvalue (slice bytes (wav_chunksize bytes + 24) (wav_chunksize bytes + 28)).

(** The body of [for c in range(channels)]: add one channel's sample to
    [sum] and advance [index_in]. *)
Definition wav_channel (bytes : list byte) (bitsPer : Z)
    (st : Z * Z) : M (Z * Z) :=
  let '(sum, index_in) := st in
  if bitsPer =? 8 then
    (* 8-bit data is UNSIGNED *)
    b <- getitem bytes index_in ;;
    ret (sum + byte_val b, index_in + 1)
  else if bitsPer =? 16 then
    (* 16-bit data is SIGNED, requires conversion from unsigned 8-bit src *)
    b0 <- getitem bytes index_in ;;
    b1 <- getitem bytes (index_in + 1) ;;
    let x := byte_val b0 + Z.shiftl (byte_val b1) 8 in
    let x := if Z.land x 32768 =? 0 then x + 32768 else x - 32768 in
    ret (sum + x, index_in + 2)
  else ret (sum, index_in).

(** [for b in buf: hex.write(b)] *)
Definition write_all (buf : list Z) (hex : HexTable) : M HexTable :=
  for_each buf (fun b hex => write hex b) hex.

(** The loop state of [convertWav]. *)
Record wav_state : Type := mkWavState {
  index_in : Z;
  buf : list Z;
  bufIdx : Z;
  hex : HexTable
}.

(** The body of [for i in range(samples)]. *)
Definition wav_sample (reduce16 : Z) (bytes : list byte)
    (channels bitsPer div : Z) (st : wav_state) : M wav_state :=
  si <- for_each (range channels)
          (fun _ => wav_channel bytes bitsPer) (0, index_in st) ;;
  let '(sum, index_in) := si in
  if (bitsPer =? 16) && (reduce16 =? 10) then
    sum <- floordiv sum div ;;
    b0 <- getitem (buf st) 0 ;;
    buf <- setitem (buf st) 0 (Z.lor (Z.shiftl b0 2) (Z.shiftr sum 8)) ;;
    buf <- setitem buf (bufIdx st) (Z.land sum 255) ;;
    let bufIdx := bufIdx st + 1 in
    if 5 <=? bufIdx then
      hex <- write_all buf (hex st) ;;
      ret (mkWavState index_in (repeat 0 5) 1 hex)
    else ret (mkWavState index_in buf bufIdx (hex st))
  else
    q <- floordiv sum div ;;
    hex <- write (hex st) q ;;
    ret (mkWavState index_in (buf st) (bufIdx st) hex).

(** The [#define] lines and the opening of the array. *)
Definition wav_header (prefix : string) (rate samples bits : Z) : string :=
  "#define " ++ prefix ++ "SampleRate " ++ dec rate ++ nl ++
  "#define " ++ prefix ++ "Samples    " ++ dec samples ++ nl ++
  "#define " ++ prefix ++ "Bits       " ++ dec bits ++ nl ++ nl ++
  "const uint8_t PROGMEM " ++ prefix ++ "AudioData[] = {".

(** The [try] block of [convertWav]. *)
Definition convertWav_body (reduce16 : Z) (prefix : string)
    (bytes : list byte) : M Z :=
  assert (wav_magic bytes) ;;
  let chunksize := wav_chunksize bytes in
  let channels := wav_channels bytes in
  let rate := wav_rate bytes in
  let bytesPer := wav_bytesPer bytes in
  let bitsPer := wav_bitsPer bytes in
  let bytesTotal := wav_bytesTotal bytes in
  samples <- floordiv bytesTotal bytesPer ;;
  let index_in0 := chunksize + 28 in
  let buf0 := repeat 0 5 in
  let bufIdx0 := 1 in
  let bits := if (bitsPer =? 16) && (reduce16 =? 10) then 10 else 8 in
  stderr_write ("WAV OK" ++ nl) ;;
  stdout_write (wav_header prefix rate samples bits) ;;
  (* Merge channels, convert to 8- or 10-bit *)
  let '(div, hex0) :=
    if bitsPer =? 16 then
      if reduce16 =? 10 then
        (* 5 bytes per 4 samples (pad to multiple of 4) *)
        (channels * 64, HexTable_init (5 * ((samples + 3) / 4)) 12 2)
      else (channels * 256, HexTable_init samples 12 2)
    else (channels, HexTable_init samples 12 2) in
  st <- for_each (range samples)
          (fun _ => wav_sample reduce16 bytes channels bitsPer div)
          (mkWavState index_in0 buf0 bufIdx0 hex0) ;;
  (if (bitsPer =? 16) && (reduce16 =? 10) && (1 <? bufIdx st) then
     write_all (buf st) (hex st)
   else ret (hex st)) ;;
  ret 1. (* Success *)

(** [convertWav(filename)] on the contents [bytes] of the file, with the
    global [reduce16] as a parameter.  Only [AssertionError] is caught;
    the result is -1 then. *)
Definition convertWav (reduce16 : Z) (prefix : string)
    (bytes : list byte) : M Z :=
  try_except (convertWav_body reduce16 prefix bytes)
    AssertionError
    (stderr_write ("Not a WAV file" ++ nl) ;; ret (-1)).

(** ** Sample inputs *)

Definition mk_byte (z : Z) : byte :=
  match Byte.of_N (Z.to_N z) with
  | Some b => b
  | None => "000"%byte
  end.

Definition mk_bytes (l : list Z) : list byte := map mk_byte l.

(** [n] as [k] bytes, least significant first. *)
Fixpoint le_bytes (k : nat) (n : Z) : list byte :=
  match k with
  | O => []
  | S k' => mk_byte (n mod 256) :: le_bytes k' (n / 256)
  end.

(** A canonical PCM WAV file: 16-byte format chunk, then the data
    sub-chunk with a declared size of [dataSize] bytes. *)
Definition wav_file (channels rate bytesPer bitsPer dataSize : Z)
    (data : list byte) : list byte :=
  (list_byte_of_string "RIFF" ++ le_bytes 4 (36 + dataSize) ++
   list_byte_of_string "WAVEfmt " ++ le_bytes 4 16 ++ le_bytes 2 1 ++
   le_bytes 2 channels ++ le_bytes 4 rate ++
   le_bytes 4 (rate * bytesPer) ++ le_bytes 2 bytesPer ++
   le_bytes 2 bitsPer ++ list_byte_of_string "data" ++
   le_bytes 4 dataSize ++ data)%list.

(** ** Pure views of the formatter *)

(** What one call of [write] on table [h] prints before the value: the
    comma that closes the prior item, and the line wrap. *)
Definition write_sep (h : HexTable) : string :=
  if 0 <? hexCounter h then
    "," ++ (if hexColumn h <? hexColumns h - 1 then " " else "")
  else "".

Definition write_wrap (h : HexTable) : string :=
  if hexColumns h <=? hexColumn h + 1 then nl ++ "  " else "".

(** The cap printed once the table is full. *)
Definition write_cap (h : HexTable) : string :=
  if hexLimit h <=? hexCounter h + 1 then " };" ++ nl ++ nl else "".

Definition write_text (h : HexTable) (n : Z) : string :=
  write_sep h ++ write_wrap h ++ format_hex n (hexDigits h + 2) ++ write_cap h.

Definition write_state (h : HexTable) : HexTable :=
  mkHexTable (hexLimit h) (hexCounter h + 1) (hexDigits h) (hexColumns h)
    (if hexColumns h <=? hexColumn h + 1 then 0 else hexColumn h + 1).

(** Text printed by writing the values [ns] in turn, and the table then. *)
Fixpoint render (h : HexTable) (ns : list Z) : string :=
  match ns with
  | [] => ""
  | n :: ns' => write_text h n ++ render (write_state h) ns'
  end.

Fixpoint table_after (h : HexTable) (ns : list Z) : HexTable :=
  match ns with
  | [] => h
  | _ :: ns' => table_after (write_state h) ns'
  end.

(** The world after printing [ns] through table [h]. *)
Definition written (h : HexTable) (ns : list Z) (w : world) : world :=
  World (stdout w ++ render h ns) (stderr w) (hexlog w ++ ns)%list.

(** ** Pure views of the image loops *)

(** The bytes one scanline hands to the formatter: the scan of the pixels
    at columns [xs] of row [y], entered with [bits] accumulated bits whose
    value is [sum]. *)
Fixpoint row_bytes (pixels : nat -> nat -> N) (y : nat) (xs : list nat)
    (bits sum : Z) : list Z :=
  match xs with
  | [] => if 0 <? bits then [sum] else []
  | x :: xs' =>
      let p := if (0 <? pixels x y)%N then 1 else 0 in
      let sum := Z.shiftl sum 1 + p in
      let bits := bits + 1 in
      if 8 <=? bits then sum :: row_bytes pixels y xs' 0 0
      else row_bytes pixels y xs' bits sum
  end.

Definition bitmap_bytes (width height : nat) (pixels : nat -> nat -> N) : list Z :=
  flat_map (fun y => row_bytes pixels y (seq 0 width) 0 0) (seq 0 height).

Definition colour_values (width height : nat)
    (pixels : nat -> nat -> byte * byte * byte) : list Z :=
  flat_map (fun x => map (fun y => rgb565 (pixels x y)) (seq 0 height))
           (seq 0 width).

(** Standard unpacking of a byte stream of byte-aligned scanlines, most
    significant bit first: pixel [x] of row [y] is bit [7 - x mod 8] of
    byte [x / 8] of the row. *)
Definition unpack_msb (stream : list Z) (width x y : nat) : bool :=
  Z.testbit (nth (y * ((width + 7) / 8) + x / 8)%nat stream 0)
            (7 - Z.of_nat (x mod 8)).

(** ** Pure views of the audio loop *)

(** Bytes one channel's sample takes in the file, as the loop reads it. *)
Definition sample_width (bitsPer : Z) : Z :=
  if bitsPer =? 8 then 1 else if bitsPer =? 16 then 2 else 0.

(** The byte at offset [i] as a number, 0 past the end. *)
Definition byte_at (bytes : list byte) (i : Z) : Z :=
  match nth_error bytes (Z.to_nat i) with
  | Some b => byte_val b
  | None => 0
  end.

(** What one pass of the channel loop adds to [sum], reading at [pos]. *)
Definition channel_value (bytes : list byte) (bitsPer pos : Z) : Z :=
  if bitsPer =? 8 then byte_at bytes pos
  else if bitsPer =? 16 then
    let x := byte_at bytes pos + Z.shiftl (byte_at bytes (pos + 1)) 8 in
    if Z.land x 32768 =? 0 then x + 32768 else x - 32768
  else 0.

(** The sum over [n] channels of the frame that starts at [pos]. *)
Fixpoint frame_sum (bytes : list byte) (bitsPer pos : Z) (n : nat) : Z :=
  match n with
  | O => 0
  | S n' =>
      channel_value bytes bitsPer pos +
      frame_sum bytes bitsPer (pos + sample_width bitsPer) n'
  end.

(** The mixed-down samples of [n] frames of [nch] channels from [pos] on:
    each frame's sum, divided by [div]. *)
Fixpoint mixed (bytes : list byte) (bitsPer : Z) (nch : nat) (div pos : Z)
    (n : nat) : list Z :=
  match n with
  | O => []
  | S n' =>
      frame_sum bytes bitsPer pos nch / div ::
      mixed bytes bitsPer nch div
        (pos + Z.of_nat nch * sample_width bitsPer) n'
  end.

(** One sample entering the 5-byte accumulator [(buf, bufIdx)]: the bytes
    flushed by it, and the accumulator then. *)
Definition feed10_step (st : list Z * Z) (s : Z) : list Z * (list Z * Z) :=
  let '(buf, bufIdx) := st in
  let buf1 :=
    list_update buf 0 (Z.lor (Z.shiftl (nth 0 buf 0) 2) (Z.shiftr s 8)) in
  let buf2 := list_update buf1 (Z.to_nat bufIdx) (Z.land s 255) in
  if 5 <=? bufIdx + 1 then (buf2, (repeat 0 5, 1))
  else ([], (buf2, bufIdx + 1)).

Fixpoint feed10 (st : list Z * Z) (ss : list Z) : list Z * (list Z * Z) :=
  match ss with
  | [] => ([], st)
  | s :: ss' =>
      let '(em, st') := feed10_step st s in
      let '(em', st'') := feed10 st' ss' in
      ((em ++ em')%list, st'')
  end.

(** The 10-bit packing as the specification words it: every four samples
    give five bytes, the first holding the top two bits of each sample and
    the other four the low eight bits of the samples in order; a trailing
    group of one to three samples is packed the same way into five bytes,
    the unused sample slots being zero. *)
Fixpoint pack10 (ss : list Z) : list Z :=
  match ss with
  | s0 :: s1 :: s2 :: s3 :: rest =>
      Z.lor (Z.lor (Z.lor (Z.shiftl (Z.shiftr s0 8) 6)
                          (Z.shiftl (Z.shiftr s1 8) 4))
                   (Z.shiftl (Z.shiftr s2 8) 2))
            (Z.shiftr s3 8)
      :: Z.land s0 255 :: Z.land s1 255 :: Z.land s2 255 :: Z.land s3 255
      :: pack10 rest
  | [s0; s1; s2] =>
      [Z.lor (Z.lor (Z.shiftl (Z.shiftr s0 8) 4) (Z.shiftl (Z.shiftr s1 8) 2))
             (Z.shiftr s2 8);
       Z.land s0 255; Z.land s1 255; Z.land s2 255; 0]
  | [s0; s1] =>
      [Z.lor (Z.shiftl (Z.shiftr s0 8) 2) (Z.shiftr s1 8);
       Z.land s0 255; Z.land s1 255; 0; 0]
  | [s0] => [Z.shiftr s0 8; Z.land s0 255; 0; 0; 0]
  | [] => []
  end.

Definition wav_samples (bytes : list byte) : Z :=
  wav_bytesTotal bytes / wav_bytesPer bytes.

(** Offset of the first sample. *)
Definition data_start (bytes : list byte) : Z := wav_chunksize bytes + 28.

(** [bitsPer == 16 and reduce16 == 10] *)
Definition ten_bit (reduce16 : Z) (bytes : list byte) : bool :=
  (wav_bitsPer bytes =? 16) && (reduce16 =? 10).

Definition wav_div (reduce16 : Z) (bytes : list byte) : Z :=
  if wav_bitsPer bytes =? 16 then
    if reduce16 =? 10 then wav_channels bytes * 64
    else wav_channels bytes * 256
  else wav_channels bytes.

(** The element count handed to [HexTable]. *)
Definition wav_count (reduce16 : Z) (bytes : list byte) : Z :=
  if ten_bit reduce16 bytes then 5 * ((wav_samples bytes + 3) / 4)
  else wav_samples bytes.

Definition wav_mixed (reduce16 : Z) (bytes : list byte) : list Z :=
  mixed bytes (wav_bitsPer bytes) (Z.to_nat (wav_channels bytes))
    (wav_div reduce16 bytes) (data_start bytes)
    (Z.to_nat (wav_samples bytes)).

(** The values a complete conversion hands to the formatter. *)
Definition wav_values (reduce16 : Z) (bytes : list byte) : list Z :=
  if ten_bit reduce16 bytes then pack10 (wav_mixed reduce16 bytes)
  else wav_mixed reduce16 bytes.

(** The loop can read [count] samples of [bitsPer] bits from [pos] on.
    Samples of a width other than 8 or 16 bits are never read. *)
Definition readable (bytes : list byte) (bitsPer pos count : Z) : Prop :=
  sample_width bitsPer <> 0 ->
  0 <= pos /\
  pos + count * sample_width bitsPer <= Z.of_nat (List.length bytes).

(** A file the loop can walk to the end: frames and channels are not
    empty and every sample the header declares is there. *)
Definition wav_complete (bytes : list byte) : Prop :=
  wav_bytesPer bytes <> 0 /\
  wav_channels bytes <> 0 /\
  readable bytes (wav_bitsPer bytes) (data_start bytes)
    (wav_samples bytes * wav_channels bytes).

(** The world once the header of the array is out. *)
Definition wav_started (reduce16 : Z) (prefix : string) (bytes : list byte)
    (w : world) : world :=
  World (stdout w ++
         wav_header prefix (wav_rate bytes) (wav_samples bytes)
           (if ten_bit reduce16 bytes then 10 else 8))
        (stderr w ++ "WAV OK" ++ nl) (hexlog w).

(** ** Specifications of computations that may fail *)

Definition byte_ok (v : Z) : Prop := 0 <= v <= 255.

(** The log [l] is [base] followed by 8-bit values only. *)
Definition extends (base l : list Z) : Prop :=
  exists vs, l = (base ++ vs)%list /\ Forall byte_ok vs.

(** [triple base c Q]: run from a log that extends [base] with 8-bit
    values, [c] leaves such a log, whether it returns or raises; a result
    satisfies [Q], and the exception raised is never [AssertionError]. *)
Definition triple (base : list Z) {A} (c : M A) (Q : A -> Prop) : Prop :=
  forall w,
    extends base (hexlog w) ->
    extends base (hexlog (snd (c w))) /\
    match fst (c w) with
    | Return a => Q a
    | Raise e => e <> AssertionError
    end.

(** The largest value one channel adds to the sum of a frame. *)
Definition chan_max (bitsPer : Z) : Z :=
  if bitsPer =? 8 then 255 else if bitsPer =? 16 then 65535 else 0.

(** The accumulator between two samples: five 8-bit slots, the cursor on
    a sample slot, and two bits in the first byte for each sample held. *)
Definition buf_ok (st : wav_state) : Prop :=
  List.length (buf st) = 5%nat /\
  1 <= bufIdx st <= 4 /\
  Forall byte_ok (buf st) /\
  0 <= nth 0 (buf st) 0 < 2 ^ (2 * (bufIdx st - 1)).

(** ** Rendered elements *)

Definition is_hex_digit (c : ascii) : bool :=
  existsb (Ascii.eqb c) (list_ascii_of_string "0123456789abcdef").

Fixpoint string_forall (P : ascii -> bool) (s : string) : bool :=
  match s with
  | EmptyString => true
  | String c s' => P c && string_forall P s'
  end.


Definition not_brace (c : ascii) : bool := negb (Ascii.eqb c "}"%char).

(** The elements of an array as [write] lays them out, without the cap:
    separators, line wraps and values. *)
Fixpoint elements_text (h : HexTable) (ns : list Z) : string :=
  match ns with
  | [] => ""
  | n :: ns' =>
      write_sep h ++ write_wrap h ++ format_hex n (hexDigits h + 2) ++
      elements_text (write_state h) ns'
  end.

(** ** The mix-down of 16-bit sources, as the specification words it *)

Definition zsum (l : list Z) : Z := fold_right Z.add 0 l.

(** The raw little-endian 16-bit value at offset [pos]. *)
Definition raw16 (bytes : list byte) (pos : Z) : Z :=
  byte_at bytes pos + 256 * byte_at bytes (pos + 1).

(** A value with its top bit set loses 32768, any other gains 32768. *)
Definition offset16 (x : Z) : Z :=
  if Z.testbit x 15 then x - 32768 else x + 32768.

(** The sum over the channels of frame [i] of the offset-converted
    samples. *)
Definition frame16 (bytes : list byte) (i : Z) : Z :=
  zsum (map (fun c =>
               offset16 (raw16 bytes
                           (data_start bytes + 2 * (i * wav_channels bytes + c))))
            (range (wav_channels bytes))).

(** Frame [i] mixed down: the sum divided by [channels * scale], rounded
    down. *)
Definition mix16 (bytes : list byte) (scale i : Z) : Z :=
  frame16 bytes i / (wav_channels bytes * scale).

(** The bit a pixel contributes: any positive sample counts as 1. *)
Definition pixel_bit (pixels : nat -> nat -> N) (x y : nat) : Z :=
  if (0 <? pixels x y)%N then 1 else 0.

(** ** Reading a rendered element back *)

(** The value of a hexadecimal digit: its position among the digits. *)
Fixpoint digit_index (c : ascii) (ds : list ascii) (k : Z) : Z :=
  match ds with
  | [] => 0
  | d :: ds' => if Ascii.eqb c d then k else digit_index c ds' (k + 1)
  end.

Definition digit_value (c : ascii) : Z :=
  digit_index c (list_ascii_of_string "0123456789abcdef") 0.

(** The number a string of hexadecimal digits denotes, read after [acc]. *)
Fixpoint hex_value_from (acc : Z) (s : string) : Z :=
  match s with
  | EmptyString => acc
  | String c s' => hex_value_from (acc * 16 + digit_value c) s'
  end.

Definition hex_value (s : string) : Z := hex_value_from 0 s.

(** ** MAIN *)

(** One command-line argument after the program name: ['10'], ['8'], or
    the name of a file.  A file comes with what the rest of the program
    makes of it: the prefix derived from its name, what [Image.open]
    returns for it ([None] when it raises) and its contents. *)
Inductive arg : Type :=
| Arg10
| Arg8
| ArgFile (prefix : string) (decoded : option image) (bytes : list byte).

(** The body of [for i, filename in enumerate(sys.argv)] past the program
    name; the loop state is [(reduce16, gammaFlag)]. *)
Definition main_arg (a : arg) (st : Z * Z) : M (Z * Z) :=
  let '(reduce16, gammaFlag) := st in
  match a with
  | Arg10 => ret (10, gammaFlag)
  | Arg8 => ret (8, gammaFlag)
  | ArgFile prefix decoded bytes =>
      (* Attempt image conversion.  If fails, try WAV conversion on same. *)
      foo <- convertImage prefix decoded ;;
      if foo =? 1 then ret (reduce16, 1) (* Color/gray image was converted *)
      else if foo =? -1 then (* Error; maybe WAV file? *)
        convertWav reduce16 prefix bytes ;;
        ret (reduce16, gammaFlag)
      else ret (reduce16, gammaFlag)
  end.

(** The 5- and 6-bit gamma tables.  [gamma n i] stands for
    [int(math.pow(float(i)/n,2.7)*255.0+0.5)], a floating-point
    computation that stays a parameter. *)
Definition gamma_tables (gamma : Z -> Z -> Z) : M unit :=
  let hex := HexTable_init 32 12 2 in
  stdout_write "const uint8_t PROGMEM gamma5[] = {" ;;
  for_each (range 32) (fun i hex => write hex (gamma 31 i)) hex ;;
  let hex := HexTable_init 64 12 2 in
  stdout_write "const uint8_t PROGMEM gamma6[] = {" ;;
  for_each (range 64) (fun i hex => write hex (gamma 63 i)) hex ;;
  ret tt.

(** The main block, on the arguments after the program name; [reduce16]
    starts as 8 and [gammaFlag] as 0. *)
Definition main (gamma : Z -> Z -> Z) (args : list arg) : M unit :=
  st <- for_each args main_arg (8, 0) ;;
  if snd st =? 1 then gamma_tables gamma else ret tt.

(** The mode switch in effect after the arguments [args], from [m]. *)
Definition mode_after (m : Z) (args : list arg) : Z :=
  fold_left (fun m a => match a with
                        | Arg10 => 10
                        | Arg8 => 8
                        | ArgFile _ _ _ => m
                        end) args m.

Definition is_colour_file (a : arg) : bool :=
  match a with
  | ArgFile _ (Some (Colour _ _ _)) _ => true
  | _ => false
  end.

Definition is_image_arg (a : arg) : bool :=
  match a with
  | ArgFile _ None _ => false
  | _ => true
  end.

(** The world after the image conversions of [args], in order. *)
Definition after_images (args : list arg) (w : world) : world :=
  fold_left (fun w a => match a with
                        | ArgFile prefix (Some im) _ =>
                            snd (convertImage prefix (Some im) w)
                        | _ => w
                        end) args w.

(** Frame [i] of an 8-bit source mixed down: the sum of its channel
    bytes divided by the channel count, rounded down. *)
Definition mix8 (bytes : list byte) (i : Z) : Z :=
  zsum (map (fun c => byte_at bytes (data_start bytes + (i * wav_channels bytes + c)))
            (range (wav_channels bytes)))
  / wav_channels bytes.

(** ** Reading a packed 10-bit sample back *)

(** Sample [k] of a group of [n] samples read from the five bytes that
    start at [pos] in [out]: two bits of the first byte above the byte in
    slot [k + 1].  The first byte holds the top bits of the samples of
    the group in order, the last of them in its lowest two bits. *)
Definition unpack10 (out : list Z) (pos n k : nat) : Z :=
  Z.lor
    (Z.shiftl
       (Z.land (Z.shiftr (nth pos out 0) (Z.of_nat (2 * (n - 1 - k)))) 3) 8)
    (nth (pos + 1 + k) out 0).

(** * Verification *)

(** ** Strings *)

Lemma append_assoc (a b c : string) : (a ++ b) ++ c = a ++ (b ++ c).
Proof.
  induction a as [|ch a IH]; simpl; [reflexivity|].
  now rewrite IH.
Qed.

Lemma append_nil_r (a : string) : a ++ "" = a.
Proof.
  induction a as [|ch a IH]; simpl; [reflexivity|].
  now rewrite IH.
Qed.


(** ** The formatter *)

Lemma write_run (h : HexTable) (n : Z) (w : world) :
  write h n w = (Return (write_state h), written h [n] w).
Proof.
  unfold write, written, write_state, render, write_text, write_sep,
    write_wrap, write_cap, bind, log_value, stdout_write, print, ret.
  destruct w as [out err log]; simpl.
  destruct (0 <? hexCounter h); simpl;
    [destruct (hexColumn h <? hexColumns h - 1); simpl|];
    destruct (hexColumns h <=? hexColumn h + 1); simpl;
    destruct (hexLimit h <=? hexCounter h + 1); simpl;
    rewrite ?append_assoc, ?append_nil_r; simpl;
    rewrite ?append_assoc, ?append_nil_r; reflexivity.
Qed.

Lemma render_app (h : HexTable) (a b : list Z) :
  render h (a ++ b) = render h a ++ render (table_after h a) b.
Proof.
  revert h; induction a as [|n a IH]; intros h; simpl; [reflexivity|].
  now rewrite IH, append_assoc.
Qed.

Lemma table_after_app (h : HexTable) (a b : list Z) :
  table_after h (a ++ b) = table_after (table_after h a) b.
Proof.
  revert h; induction a as [|n a IH]; intros h; simpl; [reflexivity|].
  apply IH.
Qed.

Lemma written_nil (h : HexTable) (w : world) : written h [] w = w.
Proof.
  destruct w; unfold written; simpl.
  now rewrite append_nil_r, app_nil_r.
Qed.

Lemma written_app (h : HexTable) (a b : list Z) (w : world) :
  written (table_after h a) b (written h a w) = written h (a ++ b) w.
Proof.
  unfold written; simpl.
  now rewrite render_app, append_assoc, app_assoc.
Qed.

Lemma write_all_run (ns : list Z) (h : HexTable) (w : world) :
  write_all ns h w = (Return (table_after h ns), written h ns w).
Proof.
  unfold write_all.
  revert h w; induction ns as [|n ns IH]; intros h w; simpl.
  - now rewrite written_nil.
  - unfold bind. rewrite write_run, IH.
    now rewrite (written_app h [n] ns).
Qed.

(** The table after [ns] has been written through a fresh table: the
    counter is the number of values, the column is that of the last one. *)
Lemma table_after_init (count columns digits : Z) (ns : list Z) :
  1 <= columns ->
  let h := table_after (HexTable_init count columns digits) ns in
  let k := Z.of_nat (List.length ns) in
  hexLimit h = count /\ hexDigits h = digits /\ hexColumns h = columns /\
  hexCounter h = k /\
  hexColumn h = (if k =? 0 then columns else (k - 1) mod columns).
Proof.
  intros Hc. induction ns as [|n ns IH] using rev_ind.
  - simpl. repeat split; reflexivity.
  - rewrite table_after_app, length_app. simpl table_after. simpl List.length.
    cbv zeta in IH. destruct IH as (HL & HD & HC & HK & Hcol).
    set (h := table_after (HexTable_init count columns digits) ns) in *.
    unfold write_state; simpl.
    rewrite HL, HD, HC, HK, Hcol.
    repeat split; try lia.
    replace (Z.of_nat (List.length ns + 1)) with (Z.of_nat (List.length ns) + 1) by lia.
    set (k := Z.of_nat (List.length ns)).
    assert (0 <= k) by (subst k; lia).
    destruct (Z.eqb_spec (k + 1) 0); [lia|].
    replace (k + 1 - 1) with k by lia.
    destruct (Z.eqb_spec k 0) as [E|E].
    + rewrite E. destruct (Z.leb_spec columns (columns + 1)); [|lia].
      now rewrite Z.mod_0_l by lia.
    + pose proof (Z.mod_pos_bound (k - 1) columns ltac:(lia)) as Hb.
      pose proof (Z.div_mod (k - 1) columns ltac:(lia)) as Hd.
      destruct (Z.leb_spec columns ((k - 1) mod columns + 1)).
      * apply Z.mod_unique with (q := (k - 1) / columns + 1); lia.
      * apply Z.mod_unique with (q := (k - 1) / columns); lia.
Qed.

(** C2, as the code has it: nothing but the line wrap precedes the first
    element; every later element is preceded by a comma, and the comma is
    followed by a space unless the element about to be written starts a
    new line (the element written before it was the last one on its
    line), where the comma is followed by the line wrap instead. *)
Theorem write_separator (count columns digits : Z) (ns : list Z) (n : Z)
    (w0 w : world) (h : HexTable) :
  1 <= columns ->
  write_all ns (HexTable_init count columns digits) w0 = (Return h, w) ->
  let k := Z.of_nat (List.length ns) in
  stdout (snd (write h n w)) =
    stdout w ++
    (if k =? 0 then nl ++ "  "
     else if k mod columns =? 0 then "," ++ nl ++ "  " else ", ") ++
    format_hex n (digits + 2) ++
    (if count <=? k + 1 then " };" ++ nl ++ nl else "").
Proof.
  intros Hc Hrun k. rewrite write_all_run in Hrun.
  injection Hrun as Hh _. subst h.
  rewrite write_run. unfold written; simpl.
  rewrite append_nil_r. f_equal.
  destruct (table_after_init count columns digits ns Hc)
    as (HL & HD & HC & HK & Hcol).
  fold k in HK, Hcol.
  set (h := table_after (HexTable_init count columns digits) ns) in *.
  unfold write_text, write_sep, write_wrap, write_cap.
  rewrite HL, HD, HC, HK, Hcol.
  assert (0 <= k) by (subst k; lia).
  destruct (Z.eqb_spec k 0) as [E|E].
  - rewrite E. simpl (0 <? 0).
    destruct (Z.leb_spec columns (columns + 1)); [|lia]. reflexivity.
  - destruct (Z.ltb_spec 0 k); [|lia].
    pose proof (Z.mod_pos_bound (k - 1) columns ltac:(lia)) as Hb.
    pose proof (Z.div_mod (k - 1) columns ltac:(lia)) as Hd.
    destruct (Z.ltb_spec ((k - 1) mod columns) (columns - 1));
      destruct (Z.leb_spec columns ((k - 1) mod columns + 1)); try lia.
    + assert (Hm : k mod columns = (k - 1) mod columns + 1)
        by (symmetry; apply Z.mod_unique with (q := (k - 1) / columns); lia).
      destruct (Z.eqb_spec (k mod columns) 0); [lia|].
      simpl. reflexivity.
    + assert (Hm : k mod columns = 0)
        by (symmetry; apply Z.mod_unique with (q := (k - 1) / columns + 1); lia).
      rewrite Hm. simpl. reflexivity.
Qed.

Lemma write_separator_witness :
  1 <= 2 /\
  stdout (snd (write (table_after (HexTable_init 3 2 2) [1; 2]) 3
                 (written (HexTable_init 3 2 2) [1; 2] world0))) =
    stdout (written (HexTable_init 3 2 2) [1; 2] world0) ++
    ("," ++ nl ++ "  ") ++ format_hex 3 4 ++ (" };" ++ nl ++ nl).
Proof.
  split; [lia|].
  apply (write_separator 3 2 2 [1; 2] 3 world0); [lia | reflexivity].
Defined.

(** C2 as worded fails: in a table of 12 columns the 12th element is the
    last one on its line, and the comma before it is followed by a space;
    the 13th element is not the last one on its line, and the comma
    before it is followed by the line wrap, not by a space. *)
Lemma write_space_before_last_on_line :
  match write_all (repeat 0 11) (HexTable_init 24 12 2) world0 with
  | (Return h11, _) =>
      match write h11 7 world0 with
      | (Return h12, w12) =>
          hexColumn h12 = hexColumns h12 - 1 /\
          stdout w12 = ", 0x07" /\
          match write h12 8 world0 with
          | (Return h13, w13) =>
              hexColumn h13 <> hexColumns h13 - 1 /\
              stdout w13 = "," ++ nl ++ "  0x08"
          | _ => False
          end
      | _ => False
      end
  | _ => False
  end.
Proof.
  vm_compute. repeat split; discriminate.
Qed.

(** ** Loops that only print *)

Lemma bind_run {A B} (c : M A) (k : A -> M B) (w w' : world) (a : A) :
  c w = (Return a, w') -> bind c k w = k a w'.
Proof. intros H. unfold bind. now rewrite H. Qed.

Lemma bind_assoc {A B C} (c : M A) (f : A -> M B) (g : B -> M C) (w : world) :
  bind (bind c f) g w = bind c (fun a => bind (f a) g) w.
Proof. unfold bind. destruct (c w) as [[a|e] w']; reflexivity. Qed.

(** A loop whose body prints the values [g x] prints their concatenation. *)
Lemma for_each_emit {A} (g : A -> list Z) (body : A -> HexTable -> M HexTable)
    (xs : list A) :
  (forall x h w, In x xs ->
     body x h w = (Return (table_after h (g x)), written h (g x) w)) ->
  forall h w,
    for_each xs body h w =
      (Return (table_after h (flat_map g xs)), written h (flat_map g xs) w).
Proof.
  induction xs as [|x xs IH]; intros Hb h w; simpl.
  - now rewrite written_nil.
  - rewrite (bind_run _ _ _ _ _ (Hb x h w (or_introl eq_refl))).
    rewrite IH by (intros; apply Hb; now right).
    now rewrite written_app, table_after_app.
Qed.

Lemma for_each_write {A} (f : A -> Z) (xs : list A) (h : HexTable) (w : world) :
  for_each xs (fun x h => write h (f x)) h w =
    (Return (table_after h (map f xs)), written h (map f xs) w).
Proof.
  assert (E : flat_map (fun x => [f x]) xs = map f xs)
    by (induction xs as [|x xs IH]; simpl; [reflexivity | now rewrite IH]).
  rewrite <- E. apply for_each_emit.
  intros. apply write_run.
Qed.

(** ** The colour quantizer *)

Lemma convertImage_colour_run (prefix : string) (width height : nat)
    (pixels : nat -> nat -> byte * byte * byte) (w : world) :
  convertImage prefix (Some (Colour width height pixels)) w =
    (Return 1,
     written (HexTable_init (Z.of_nat width * Z.of_nat height) 9 4)
       (colour_values width height pixels)
       (World (stdout w ++ "#define " ++ prefix ++ "FPS 30" ++ nl ++
               "const uint16_t PROGMEM " ++ prefix ++ "PixelData[] = {")
              (stderr w ++ "Image OK" ++ nl) (hexlog w))).
Proof.
  unfold convertImage, convertImage_body.
  unfold bind at 1. unfold stderr_write at 1.
  unfold bind at 1. unfold stdout_write at 1.
  unfold bind at 1.
  rewrite (for_each_emit
             (fun x => map (fun y => rgb565 (pixels x y)) (seq 0 height))).
  - reflexivity.
  - intros x h w' _. apply for_each_write.
Qed.

(** In a concatenation of blocks of equal length [m], element [i * m + j]
    is element [j] of block [i]. *)
Lemma nth_flat_map_block {A} (g : A -> list Z) (m : nat) (xs : list A)
    (i j : nat) (dx : A) :
  (forall x, List.length (g x) = m) ->
  (i < List.length xs)%nat -> (j < m)%nat ->
  nth (i * m + j) (flat_map g xs) 0 = nth j (g (nth i xs dx)) 0.
Proof.
  intros Hg. revert i. induction xs as [|x xs IH]; intros i Hi Hj; simpl in *.
  - lia.
  - destruct i as [|i]; simpl.
    + rewrite app_nth1 by (rewrite Hg; assumption). reflexivity.
    + rewrite app_nth2 by (rewrite Hg; lia).
      rewrite Hg. replace (m + i * m + j - m)%nat with (i * m + j)%nat by lia.
      apply IH; lia.
Qed.

Lemma length_flat_map_block {A} (g : A -> list Z) (m : nat) (xs : list A) :
  (forall x, List.length (g x) = m) ->
  List.length (flat_map g xs) = (List.length xs * m)%nat.
Proof.
  intros Hg. induction xs as [|x xs IH]; simpl; [reflexivity|].
  now rewrite length_app, Hg, IH.
Qed.

(** C6: the colour quantizer hands [width * height] values to the
    formatter, columns outermost, and the value at index [x * height + y]
    is [((R & 0xF8) << 8) | ((G & 0xFC) << 3) | (B >> 3)] for the channels
    of pixel [(x, y)]. *)
Theorem convertImage_colour_column_major (prefix : string)
    (width height : nat) (pixels : nat -> nat -> byte * byte * byte)
    (w : world) (x y : nat) :
  (x < width)%nat -> (y < height)%nat ->
  exists vs,
    convertImage prefix (Some (Colour width height pixels)) w =
      (Return 1,
       written (HexTable_init (Z.of_nat width * Z.of_nat height) 9 4) vs
         (World (stdout w ++ "#define " ++ prefix ++ "FPS 30" ++ nl ++
                 "const uint16_t PROGMEM " ++ prefix ++ "PixelData[] = {")
                (stderr w ++ "Image OK" ++ nl) (hexlog w))) /\
    List.length vs = (width * height)%nat /\
    nth (x * height + y) vs 0 =
      let '(r, g, b) := pixels x y in
      Z.lor (Z.lor (Z.shiftl (Z.land (byte_val r) 0xF8) 8)
                   (Z.shiftl (Z.land (byte_val g) 0xFC) 3))
            (Z.shiftr (byte_val b) 3).
Proof.
  intros Hx Hy. exists (colour_values width height pixels).
  split; [apply convertImage_colour_run|].
  unfold colour_values. split.
  - rewrite length_flat_map_block with (m := height).
    + now rewrite length_seq.
    + intros. now rewrite length_map, length_seq.
  - rewrite nth_flat_map_block with (m := height) (dx := O).
    + rewrite seq_nth by assumption. simpl.
      rewrite nth_indep with (d' := rgb565 (pixels x O))
        by (rewrite length_map, length_seq; assumption).
      rewrite (map_nth (fun y => rgb565 (pixels x y))).
      rewrite seq_nth by assumption. reflexivity.
    + intros. now rewrite length_map, length_seq.
    + now rewrite length_seq.
    + assumption.
Qed.

Lemma convertImage_colour_column_major_witness :
  exists vs,
    convertImage "img"
      (Some (Colour 2 3 (fun x y =>
         (mk_byte (Z.of_nat x * 255), mk_byte (Z.of_nat y * 100), mk_byte 255))))
      world0 =
      (Return 1,
       written (HexTable_init (Z.of_nat 2 * Z.of_nat 3) 9 4) vs
         (World (stdout world0 ++ "#define " ++ "img" ++ "FPS 30" ++ nl ++
                 "const uint16_t PROGMEM " ++ "img" ++ "PixelData[] = {")
                (stderr world0 ++ "Image OK" ++ nl) (hexlog world0))) /\
    List.length vs = (2 * 3)%nat /\
    nth (1 * 3 + 2) vs 0 = 0xFE5F.
Proof.
  apply (convertImage_colour_column_major "img" 2 3
           (fun x y =>
              (mk_byte (Z.of_nat x * 255), mk_byte (Z.of_nat y * 100), mk_byte 255))
           world0 1 2); lia.
Defined.

(** ** The bitmap packer *)

Lemma bitmap_scan_run (pixels : nat -> nat -> N) (y : nat) (xs : list nat)
    (bits sum : Z) (h : HexTable) (w : world) :
  (st <- for_each xs (bitmap_pixel pixels y) (bits, sum, h) ;;
   let '(bits, sum, hex) := st in
   if 0 <? bits then write hex sum else ret hex) w =
    (Return (table_after h (row_bytes pixels y xs bits sum)),
     written h (row_bytes pixels y xs bits sum) w).
Proof.
  revert bits sum h w. induction xs as [|x xs IH]; intros bits sum h w.
  - simpl. unfold bind, ret.
    destruct (0 <? bits).
    + apply write_run.
    + now rewrite written_nil.
  - cbn [for_each row_bytes]. rewrite bind_assoc.
    unfold bitmap_pixel at 1.
    set (sum' := Z.shiftl sum 1 + (if (0 <? pixels x y)%N then 1 else 0)).
    destruct (8 <=? bits + 1).
    + rewrite bind_assoc.
      rewrite (bind_run _ _ _ _ _ (write_run h sum' w)).
      unfold bind at 1, ret at 1.
      rewrite IH. now rewrite (written_app h [sum']).
    + unfold bind at 1, ret at 1. apply IH.
Qed.

Lemma convertImage_bitmap_run (prefix : string) (width height : nat)
    (pixels : nat -> nat -> N) (w : world) :
  convertImage prefix (Some (Bitmap width height pixels)) w =
    (Return 0,
     written
       (HexTable_init (((Z.of_nat width + 7) / 8) * Z.of_nat height) 12 2)
       (bitmap_bytes width height pixels)
       (World (stdout w ++
               "#define " ++ prefix ++ "Width  " ++ dec (Z.of_nat width) ++ nl ++
               "#define " ++ prefix ++ "Height " ++ dec (Z.of_nat height) ++ nl ++
               "const uint8_t PROGMEM " ++ prefix ++ "Bitmap[] = {")
              (stderr w ++ "Image OK" ++ nl) (hexlog w))).
Proof.
  unfold convertImage, convertImage_body.
  unfold bind at 1. unfold stderr_write at 1.
  unfold bind at 1. unfold stdout_write at 1.
  unfold bind at 1.
  rewrite (for_each_emit (fun y => row_bytes pixels y (seq 0 width) 0 0)).
  - reflexivity.
  - intros y h w' _. apply bitmap_scan_run.
Qed.

(** A scanline entered with [bits < 8] pending bits yields one byte per
    started group of eight. *)
Lemma row_bytes_length (pixels : nat -> nat -> N) (y : nat) (xs : list nat) :
  forall bits sum, 0 <= bits < 8 ->
    Z.of_nat (List.length (row_bytes pixels y xs bits sum)) =
      (bits + Z.of_nat (List.length xs) + 7) / 8.
Proof.
  induction xs as [|x xs IH]; intros bits sum Hb.
  - cbn [row_bytes List.length]. rewrite Z.add_0_r.
    destruct (Z.ltb_spec 0 bits); cbn [List.length];
      Z.to_euclidean_division_equations; lia.
  - cbn [row_bytes List.length].
    destruct (Z.leb_spec 8 (bits + 1)).
    + cbn [List.length]. rewrite Nat2Z.inj_succ, IH by lia.
      Z.to_euclidean_division_equations; lia.
    + rewrite IH by lia. f_equal. lia.
Qed.

(** The part of C1 that holds: the bitmap packer hands
    [ceil(width / 8) * height] bytes to the formatter. *)
Lemma bitmap_bytes_length (width height : nat) (pixels : nat -> nat -> N) :
  Z.of_nat (List.length (bitmap_bytes width height pixels)) =
    ((Z.of_nat width + 7) / 8) * Z.of_nat height.
Proof.
  unfold bitmap_bytes.
  rewrite length_flat_map_block
    with (m := Z.to_nat ((Z.of_nat width + 7) / 8)).
  - rewrite length_seq, Nat2Z.inj_mul, Z2Nat.id; [lia|].
    apply Z.div_pos; lia.
  - intros y.
    pose proof (row_bytes_length pixels y (seq 0 width) 0 0 ltac:(lia)) as H.
    rewrite length_seq, Z.add_0_l in H. lia.
Qed.



(** C1 fails on the code: the byte that pads a scanline is flushed as it
    stands, so its pixels sit in the low bits.  For the 3x1 bitmap "on,
    off, on" the packer emits the single byte 5 (binary 101), where
    most-significant-bit-first packing gives 0xA0; unpacking the stream
    most significant bit first reads pixel (0,0), which is set, as 0. *)
Theorem convertImage_bitmap_partial_byte_low_aligned :
  let pixels := fun (x y : nat) => if Nat.even x then 255%N else 0%N in
  let stream :=
    hexlog (snd (convertImage "img" (Some (Bitmap 3 1 pixels)) world0)) in
  stream = [5] /\
  pixels O O <> 0%N /\
  unpack_msb stream 3 0 0 = false /\
  unpack_msb [0xA0] 3 0 0 = true.
Proof.
  vm_compute. repeat split; discriminate.
Qed.

(** ** The audio loop on complete files *)

Lemma getitem_byte (bytes : list byte) (i : Z) (w : world) :
  0 <= i < Z.of_nat (List.length bytes) ->
  exists b, getitem bytes i w = (Return b, w) /\ byte_val b = byte_at bytes i.
Proof.
  intros Hi. unfold getitem, py_index, byte_at.
  destruct (Z.ltb_spec i 0); [lia|].
  destruct (Z.leb_spec 0 i); [|lia].
  destruct (Z.ltb_spec i (Z.of_nat (List.length bytes))); [|lia].
  cbn [andb].
  destruct (nth_error bytes (Z.to_nat i)) as [b|] eqn:E.
  - exists b. split; reflexivity.
  - apply nth_error_None in E. lia.
Qed.

Lemma wav_channel_run (bytes : list byte) (bitsPer sum pos : Z) (w : world) :
  readable bytes bitsPer pos 1 ->
  wav_channel bytes bitsPer (sum, pos) w =
    (Return (sum + channel_value bytes bitsPer pos, pos + sample_width bitsPer), w).
Proof.
  unfold readable, wav_channel, channel_value, sample_width.
  intros Hr.
  destruct (bitsPer =? 8).
  - destruct (getitem_byte bytes pos w ltac:(lia)) as (b & Hg & Hb).
    rewrite (bind_run _ _ _ _ _ Hg), Hb. reflexivity.
  - destruct (bitsPer =? 16).
    + destruct (getitem_byte bytes pos w ltac:(lia)) as (b0 & Hg0 & Hb0).
      destruct (getitem_byte bytes (pos + 1) w ltac:(lia)) as (b1 & Hg1 & Hb1).
      rewrite (bind_run _ _ _ _ _ Hg0), (bind_run _ _ _ _ _ Hg1), Hb0, Hb1.
      reflexivity.
    + unfold ret. now rewrite Z.add_0_r, Z.add_0_r.
Qed.

Lemma sample_width_nonneg (bitsPer : Z) : 0 <= sample_width bitsPer.
Proof.
  unfold sample_width. destruct (bitsPer =? 8); [lia|].
  destruct (bitsPer =? 16); lia.
Qed.

Lemma readable_split (bytes : list byte) (bitsPer pos a b : Z) :
  0 <= a -> 0 <= b ->
  readable bytes bitsPer pos (a + b) ->
  readable bytes bitsPer pos a /\
  readable bytes bitsPer (pos + a * sample_width bitsPer) b.
Proof.
  unfold readable. intros Ha Hb Hr.
  pose proof (sample_width_nonneg bitsPer).
  split; intros Hw; specialize (Hr Hw); nia.
Qed.

(** The channel loop over a readable frame. *)
Lemma wav_channels_run {A} (bytes : list byte) (bitsPer : Z) (xs : list A) :
  forall sum pos w,
    readable bytes bitsPer pos (Z.of_nat (List.length xs)) ->
    for_each xs (fun _ => wav_channel bytes bitsPer) (sum, pos) w =
      (Return (sum + frame_sum bytes bitsPer pos (List.length xs),
               pos + Z.of_nat (List.length xs) * sample_width bitsPer), w).
Proof.
  induction xs as [|x xs IH]; intros sum pos w Hr.
  - cbn. unfold ret. do 2 f_equal; f_equal; lia.
  - cbn [for_each List.length frame_sum] in *.
    rewrite Nat2Z.inj_succ in *.
    replace (Z.succ (Z.of_nat (List.length xs)))
      with (1 + Z.of_nat (List.length xs)) in Hr by lia.
    apply readable_split in Hr; [|lia|lia]. destruct Hr as [Hr1 Hr2].
    rewrite (bind_run _ _ _ _ _ (wav_channel_run bytes bitsPer sum pos w Hr1)).
    rewrite Z.mul_1_l in Hr2.
    rewrite IH by assumption. do 2 f_equal; f_equal; lia.
Qed.

Lemma length_range (n : Z) : List.length (range n) = Z.to_nat n.
Proof. unfold range. now rewrite length_map, length_seq. Qed.

(** One pass of the sample loop when the output is 8-bit. *)
Lemma wav_sample_run8 (reduce16 : Z) (bytes : list byte)
    (channels bitsPer div : Z) (st : wav_state) (w : world) :
  (bitsPer =? 16) && (reduce16 =? 10) = false ->
  div <> 0 ->
  readable bytes bitsPer (index_in st) (Z.of_nat (Z.to_nat channels)) ->
  let v := frame_sum bytes bitsPer (index_in st) (Z.to_nat channels) / div in
  wav_sample reduce16 bytes channels bitsPer div st w =
    (Return (mkWavState
               (index_in st + Z.of_nat (Z.to_nat channels) * sample_width bitsPer)
               (buf st) (bufIdx st) (table_after (hex st) [v])),
     written (hex st) [v] w).
Proof.
  intros Hc Hd Hr v. unfold wav_sample.
  pose proof (wav_channels_run bytes bitsPer (range channels) 0 (index_in st) w)
    as Hch.
  rewrite length_range in Hch. specialize (Hch Hr).
  rewrite (bind_run _ _ _ _ _ Hch), Hc. rewrite Z.add_0_l.
  unfold floordiv. destruct (Z.eqb_spec div 0); [contradiction|].
  unfold bind at 1, ret at 1.
  unfold bind at 1. rewrite write_run. reflexivity.
Qed.

(** The sample loop when the output is 8-bit: one value per frame. *)
Lemma wav_loop_run8 {A} (reduce16 : Z) (bytes : list byte)
    (channels bitsPer div : Z) (xs : list A) :
  (bitsPer =? 16) && (reduce16 =? 10) = false ->
  div <> 0 ->
  forall st w,
    readable bytes bitsPer (index_in st)
      (Z.of_nat (List.length xs) * Z.of_nat (Z.to_nat channels)) ->
    let vs := mixed bytes bitsPer (Z.to_nat channels) div (index_in st)
                (List.length xs) in
    for_each xs (fun _ => wav_sample reduce16 bytes channels bitsPer div) st w =
      (Return (mkWavState
                 (index_in st +
                    Z.of_nat (List.length xs) *
                      (Z.of_nat (Z.to_nat channels) * sample_width bitsPer))
                 (buf st) (bufIdx st) (table_after (hex st) vs)),
       written (hex st) vs w).
Proof.
  intros Hc Hd.
  induction xs as [|x xs IH]; intros st w Hr.
  - cbn. unfold ret. rewrite written_nil. destruct st; cbn.
    do 2 f_equal. f_equal. lia.
  - cbn [for_each List.length mixed] in *. rewrite Nat2Z.inj_succ in *.
    replace (Z.succ (Z.of_nat (List.length xs)) * Z.of_nat (Z.to_nat channels))
      with (Z.of_nat (Z.to_nat channels) +
            Z.of_nat (List.length xs) * Z.of_nat (Z.to_nat channels)) in Hr by lia.
    apply readable_split in Hr; [|lia|nia]. destruct Hr as [Hr1 Hr2].
    rewrite (bind_run _ _ _ _ _
               (wav_sample_run8 reduce16 bytes channels bitsPer div st w
                  Hc Hd Hr1)).
    rewrite IH by (cbn [index_in]; assumption).
    cbn [index_in buf bufIdx hex].
    cbv zeta. rewrite (written_app (hex st) [_]).
    cbn [app table_after]. do 2 f_equal. f_equal. lia.
Qed.

(** ** The 10-bit accumulator *)

Lemma getitem_nth (l : list Z) (i : Z) (w : world) :
  0 <= i < Z.of_nat (List.length l) ->
  getitem l i w = (Return (nth (Z.to_nat i) l 0), w).
Proof.
  intros Hi. unfold getitem, py_index.
  destruct (Z.ltb_spec i 0); [lia|].
  destruct (Z.leb_spec 0 i); [|lia].
  destruct (Z.ltb_spec i (Z.of_nat (List.length l))); [|lia].
  cbn [andb].
  destruct (nth_error l (Z.to_nat i)) as [a|] eqn:E.
  - now rewrite (nth_error_nth _ _ _ E).
  - apply nth_error_None in E. lia.
Qed.

Lemma setitem_run (l : list Z) (i a : Z) (w : world) :
  0 <= i < Z.of_nat (List.length l) ->
  setitem l i a w = (Return (list_update l (Z.to_nat i) a), w).
Proof.
  intros Hi. unfold setitem, py_index.
  destruct (Z.ltb_spec i 0); [lia|].
  destruct (Z.leb_spec 0 i); [|lia].
  destruct (Z.ltb_spec i (Z.of_nat (List.length l))); [|lia].
  reflexivity.
Qed.

Lemma length_list_update {A} (l : list A) (j : nat) (a : A) :
  List.length (list_update l j a) = List.length l.
Proof.
  revert j; induction l as [|x l IH]; intros [|j]; simpl; try reflexivity.
  now rewrite IH.
Qed.

Lemma feed10_step_inv (b : list Z) (i s : Z) :
  List.length b = 5%nat -> 1 <= i <= 4 ->
  List.length (fst (snd (feed10_step (b, i) s))) = 5%nat /\
  1 <= snd (snd (feed10_step (b, i) s)) <= 4.
Proof.
  intros Hb Hi. unfold feed10_step.
  destruct (Z.leb_spec 5 (i + 1)); cbn [fst snd].
  - split; [reflexivity | lia].
  - rewrite !length_list_update. split; [assumption | lia].
Qed.

Lemma feed10_cons (st : list Z * Z) (s : Z) (ss : list Z) :
  feed10 st (s :: ss) =
    ((fst (feed10_step st s) ++ fst (feed10 (snd (feed10_step st s)) ss))%list,
     snd (feed10 (snd (feed10_step st s)) ss)).
Proof.
  cbn [feed10]. destruct (feed10_step st s) as [em st']. cbn [fst snd].
  destruct (feed10 st' ss) as [em' st'']. reflexivity.
Qed.

(** One pass of the sample loop when the output is 10-bit. *)
Lemma wav_sample_run10 (reduce16 : Z) (bytes : list byte)
    (channels bitsPer div : Z) (st : wav_state) (w : world) :
  (bitsPer =? 16) && (reduce16 =? 10) = true ->
  div <> 0 ->
  readable bytes bitsPer (index_in st) (Z.of_nat (Z.to_nat channels)) ->
  List.length (buf st) = 5%nat -> 1 <= bufIdx st <= 4 ->
  let s := frame_sum bytes bitsPer (index_in st) (Z.to_nat channels) / div in
  let r := feed10_step (buf st, bufIdx st) s in
  wav_sample reduce16 bytes channels bitsPer div st w =
    (Return (mkWavState
               (index_in st + Z.of_nat (Z.to_nat channels) * sample_width bitsPer)
               (fst (snd r)) (snd (snd r)) (table_after (hex st) (fst r))),
     written (hex st) (fst r) w).
Proof.
  intros Hc Hd Hr Hb Hi s r. unfold wav_sample.
  pose proof (wav_channels_run bytes bitsPer (range channels) 0 (index_in st) w)
    as Hch.
  rewrite length_range in Hch. specialize (Hch Hr).
  rewrite (bind_run _ _ _ _ _ Hch), Hc. rewrite Z.add_0_l.
  unfold floordiv. destruct (Z.eqb_spec div 0); [contradiction|].
  unfold bind at 1, ret at 1. fold s.
  rewrite (bind_run _ _ _ _ _ (getitem_nth (buf st) 0 w ltac:(lia))).
  rewrite (bind_run _ _ _ _ _ (setitem_run (buf st) 0 _ w ltac:(lia))).
  assert (H5 : forall j a,
             0 <= bufIdx st < Z.of_nat (List.length (list_update (buf st) j a)))
    by (intros; rewrite length_list_update; lia).
  rewrite (bind_run _ _ _ _ _ (setitem_run _ (bufIdx st) _ w (H5 _ _))).
  subst r. unfold feed10_step. change (Z.to_nat 0) with O.
  destruct (5 <=? bufIdx st + 1); cbn [fst snd].
  - rewrite (bind_run _ _ _ _ _ (write_all_run _ (hex st) w)). reflexivity.
  - unfold ret. now rewrite written_nil.
Qed.

(** The sample loop when the output is 10-bit. *)
Lemma wav_loop_run10 {A} (reduce16 : Z) (bytes : list byte)
    (channels bitsPer div : Z) (xs : list A) :
  (bitsPer =? 16) && (reduce16 =? 10) = true ->
  div <> 0 ->
  forall st w,
    readable bytes bitsPer (index_in st)
      (Z.of_nat (List.length xs) * Z.of_nat (Z.to_nat channels)) ->
    List.length (buf st) = 5%nat -> 1 <= bufIdx st <= 4 ->
    let ss := mixed bytes bitsPer (Z.to_nat channels) div (index_in st)
                (List.length xs) in
    let r := feed10 (buf st, bufIdx st) ss in
    for_each xs (fun _ => wav_sample reduce16 bytes channels bitsPer div) st w =
      (Return (mkWavState
                 (index_in st +
                    Z.of_nat (List.length xs) *
                      (Z.of_nat (Z.to_nat channels) * sample_width bitsPer))
                 (fst (snd r)) (snd (snd r)) (table_after (hex st) (fst r))),
       written (hex st) (fst r) w).
Proof.
  intros Hc Hd.
  induction xs as [|x xs IH]; intros st w Hr Hb Hi.
  - cbn. unfold ret. rewrite written_nil. destruct st; cbn.
    do 2 f_equal. f_equal. lia.
  - cbn [for_each List.length mixed] in *. rewrite Nat2Z.inj_succ in *.
    cbv zeta. rewrite feed10_cons.
    replace (Z.succ (Z.of_nat (List.length xs)) * Z.of_nat (Z.to_nat channels))
      with (Z.of_nat (Z.to_nat channels) +
            Z.of_nat (List.length xs) * Z.of_nat (Z.to_nat channels)) in Hr by lia.
    apply readable_split in Hr; [|lia|nia]. destruct Hr as [Hr1 Hr2].
    set (s := frame_sum bytes bitsPer (index_in st) (Z.to_nat channels) / div).
    destruct (feed10_step_inv (buf st) (bufIdx st) s Hb Hi) as [Hb' Hi'].
    rewrite (bind_run _ _ _ _ _
               (wav_sample_run10 reduce16 bytes channels bitsPer div st w
                  Hc Hd Hr1 Hb Hi)).
    fold s.
    rewrite IH by (cbn [index_in buf bufIdx]; assumption).
    cbn [index_in buf bufIdx hex fst snd].
    rewrite written_app, table_after_app.
    rewrite <- surjective_pairing.
    do 2 f_equal. f_equal. lia.
Qed.

Lemma list_ind4 {A} (P : list A -> Prop) :
  P [] -> (forall a, P [a]) -> (forall a b, P [a; b]) ->
  (forall a b c, P [a; b; c]) ->
  (forall a b c d l, P l -> P (a :: b :: c :: d :: l)) ->
  forall l, P l.
Proof.
  intros H0 H1 H2 H3 H4. fix IH 1.
  intros [|a [|b [|c [|d l]]]];
    [apply H0 | apply H1 | apply H2 | apply H3 | apply H4, IH].
Qed.

Lemma top_bits_shift (a b c d : Z) :
  Z.lor (Z.shiftl (Z.lor (Z.shiftl (Z.lor (Z.shiftl (Z.lor (Z.shiftl 0 2) a) 2) b) 2) c) 2) d =
  Z.lor (Z.lor (Z.lor (Z.shiftl a 6) (Z.shiftl b 4)) (Z.shiftl c 2)) d.
Proof.
  rewrite Z.shiftl_0_l, Z.lor_0_l, !Z.shiftl_lor, !Z.shiftl_shiftl by lia.
  reflexivity.
Qed.

Lemma feed10_step_1 (b0 b1 b2 b3 b4 s : Z) :
  feed10_step ([b0; b1; b2; b3; b4], 1) s =
    ([], ([Z.lor (Z.shiftl b0 2) (Z.shiftr s 8); Z.land s 255; b2; b3; b4], 2)).
Proof. reflexivity. Qed.

Lemma feed10_step_2 (b0 b1 b2 b3 b4 s : Z) :
  feed10_step ([b0; b1; b2; b3; b4], 2) s =
    ([], ([Z.lor (Z.shiftl b0 2) (Z.shiftr s 8); b1; Z.land s 255; b3; b4], 3)).
Proof. reflexivity. Qed.

Lemma feed10_step_3 (b0 b1 b2 b3 b4 s : Z) :
  feed10_step ([b0; b1; b2; b3; b4], 3) s =
    ([], ([Z.lor (Z.shiftl b0 2) (Z.shiftr s 8); b1; b2; Z.land s 255; b4], 4)).
Proof. reflexivity. Qed.

Lemma feed10_step_4 (b0 b1 b2 b3 b4 s : Z) :
  feed10_step ([b0; b1; b2; b3; b4], 4) s =
    ([Z.lor (Z.shiftl b0 2) (Z.shiftr s 8); b1; b2; b3; Z.land s 255],
     ([0; 0; 0; 0; 0], 1)).
Proof. reflexivity. Qed.

Ltac feed10_run :=
  change (repeat 0 5) with [0; 0; 0; 0; 0];
  repeat first
    [ rewrite feed10_cons
    | rewrite feed10_step_1 | rewrite feed10_step_2
    | rewrite feed10_step_3 | rewrite feed10_step_4
    | progress cbn [fst snd feed10 app] ].

(** The accumulator of the code, started empty and flushed at the end if
    it holds a sample, packs as the specification words it. *)
Lemma feed10_pack10 (ss : list Z) :
  let r := feed10 (repeat 0 5, 1) ss in
  (fst r ++ (if 1 <? snd (snd r) then fst (snd r) else []))%list = pack10 ss.
Proof.
  induction ss as [| a | a b | a b c | a b c d l IH] using list_ind4;
    cbv zeta in *.
  - reflexivity.
  - feed10_run. change (1 <? 2) with true. cbn [pack10].
    now rewrite Z.shiftl_0_l, Z.lor_0_l.
  - feed10_run. change (1 <? 3) with true. cbn [pack10].
    now rewrite Z.shiftl_0_l, Z.lor_0_l.
  - feed10_run. change (1 <? 4) with true. cbn [pack10].
    rewrite Z.shiftl_0_l, Z.lor_0_l, !Z.shiftl_lor, !Z.shiftl_shiftl by lia.
    reflexivity.
  - feed10_run. change [0; 0; 0; 0; 0] with (repeat 0 5).
    cbn [pack10]. rewrite <- IH, top_bits_shift. reflexivity.
Qed.

Lemma pack10_length (ss : list Z) :
  Z.of_nat (List.length (pack10 ss)) = 5 * ((Z.of_nat (List.length ss) + 3) / 4).
Proof.
  induction ss as [| a | a b | a b c | a b c d l IH] using list_ind4;
    try reflexivity.
  cbn [pack10 List.length]. rewrite !Nat2Z.inj_succ, IH.
  Z.to_euclidean_division_equations; lia.
Qed.

Lemma mixed_length (bytes : list byte) (bitsPer : Z) (nch : nat) (div : Z)
    (n : nat) :
  forall pos, List.length (mixed bytes bitsPer nch div pos n) = n.
Proof.
  induction n as [|n IH]; intros pos; cbn [mixed List.length]; [reflexivity|].
  now rewrite IH.
Qed.

(** ** Header fields *)

Lemma byte_val_range (b : byte) : 0 <= byte_val b <= 255.
Proof.
  unfold byte_val. pose proof (Byte.to_N_bounded b). lia.
Qed.

Lemma uvalue_nonneg (bytes : list byte) : 0 <= uvalue bytes.
Proof.
  unfold uvalue.
  assert (H : forall acc : Z * Z, 0 <= snd acc ->
            0 <= snd (fold_left
                        (fun (acc : Z * Z) b =>
                           let '(i, result) := acc in
                           (i + 1, result + Z.shiftl (byte_val b) (i * 8)))
                        bytes acc)).
  { induction bytes as [|b bytes IH]; intros [i r] Hr; cbn [fold_left].
    - assumption.
    - apply IH. cbn [snd] in *.
      pose proof (byte_val_range b).
      assert (0 <= Z.shiftl (byte_val b) (i * 8))
        by (apply Z.shiftl_nonneg; lia).
      lia. }
  apply H. cbn. lia.
Qed.

Lemma wav_samples_nonneg (bytes : list byte) : 0 <= wav_samples bytes.
Proof.
  unfold wav_samples.
  pose proof (uvalue_nonneg
                (slice bytes (wav_chunksize bytes + 24) (wav_chunksize bytes + 28))).
  pose proof (uvalue_nonneg (slice bytes 32 34)).
  fold (wav_bytesTotal bytes) in *. fold (wav_bytesPer bytes) in *.
  destruct (Z.eq_dec (wav_bytesPer bytes) 0) as [E|E].
  - rewrite E. now rewrite Z.div_0_r.
  - apply Z.div_pos; lia.
Qed.

(** ** Complete conversions *)

(** A complete file that passes the magic check is converted to the end:
    the header, then [wav_values] through a table of [wav_count]
    elements. *)
Lemma convertWav_run (reduce16 : Z) (prefix : string) (bytes : list byte)
    (w : world) :
  wav_magic bytes = true -> wav_complete bytes ->
  convertWav reduce16 prefix bytes w =
    (Return 1,
     written (HexTable_init (wav_count reduce16 bytes) 12 2)
       (wav_values reduce16 bytes) (wav_started reduce16 prefix bytes w)).
Proof.
  intros Hm (Hbp & Hch & Hlen).
  pose proof (wav_samples_nonneg bytes) as Hs.
  pose proof (uvalue_nonneg (slice bytes 22 24)) as Hc.
  pose proof (uvalue_nonneg (slice bytes 16 20)) as Hk.
  fold (wav_channels bytes) in Hc. fold (wav_chunksize bytes) in Hk.
  assert (Hlen' :
            readable bytes (wav_bitsPer bytes) (data_start bytes)
              (Z.of_nat (List.length (range (wav_samples bytes))) *
                 Z.of_nat (Z.to_nat (wav_channels bytes))))
    by (rewrite length_range, !Z2Nat.id by lia; assumption).
  unfold convertWav, try_except, convertWav_body.
  rewrite Hm. unfold assert. unfold bind at 1, ret at 1.
  unfold floordiv. destruct (Z.eqb_spec (wav_bytesPer bytes) 0); [contradiction|].
  unfold bind at 1, ret at 1. fold (wav_samples bytes).
  unfold bind at 1, stderr_write at 1.
  unfold bind at 1, stdout_write at 1.
  unfold wav_count, wav_values, wav_started, wav_mixed, wav_div, ten_bit.
  cbn [stdout stderr hexlog].
  fold (data_start bytes).
  destruct (wav_bitsPer bytes =? 16) eqn:E16;
    [destruct (reduce16 =? 10) eqn:E10|]; cbn [andb].
  - (* 16-bit source, 10-bit output *)
    rewrite (bind_run _ _ _ _ _
               (wav_loop_run10 reduce16 bytes (wav_channels bytes)
                  (wav_bitsPer bytes) (wav_channels bytes * 64)
                  (range (wav_samples bytes))
                  ltac:(now rewrite E16, E10) ltac:(lia)
                  (mkWavState (data_start bytes) (repeat 0 5) 1 _) _
                  Hlen' eq_refl ltac:(cbn; lia))).
    cbn [index_in buf bufIdx hex]. rewrite length_range.
    rewrite <- (feed10_pack10
                  (mixed bytes (wav_bitsPer bytes)
                     (Z.to_nat (wav_channels bytes)) (wav_channels bytes * 64)
                     (data_start bytes) (Z.to_nat (wav_samples bytes)))).
    cbv zeta.
    destruct (1 <? snd (snd (feed10 (repeat 0 5, 1) _))).
    + rewrite (bind_run _ _ _ _ _ (write_all_run _ _ _)).
      unfold ret. now rewrite written_app.
    + unfold bind at 1, ret. now rewrite app_nil_r.
  - (* 16-bit source, 8-bit output *)
    rewrite (bind_run _ _ _ _ _
               (wav_loop_run8 reduce16 bytes (wav_channels bytes)
                  (wav_bitsPer bytes) (wav_channels bytes * 256)
                  (range (wav_samples bytes))
                  ltac:(now rewrite E16, E10) ltac:(lia)
                  (mkWavState (data_start bytes) (repeat 0 5) 1 _) _
                  Hlen')).
    cbn [index_in buf bufIdx hex]. rewrite length_range.
    unfold bind at 1, ret. reflexivity.
  - (* 8-bit or other source *)
    rewrite (bind_run _ _ _ _ _
               (wav_loop_run8 reduce16 bytes (wav_channels bytes)
                  (wav_bitsPer bytes) (wav_channels bytes)
                  (range (wav_samples bytes))
                  ltac:(now rewrite E16) ltac:(lia)
                  (mkWavState (data_start bytes) (repeat 0 5) 1 _) _
                  Hlen')).
    cbn [index_in buf bufIdx hex]. rewrite length_range.
    unfold bind at 1, ret. reflexivity.
Qed.

(** ** Every run: what reaches the formatter, and how a run can end *)

Section Triples.

Variable base : list Z.

Lemma extends_refl : extends base base.
Proof. exists []. split; [now rewrite app_nil_r | constructor]. Qed.

Lemma extends_app (l vs : list Z) :
  extends base l -> Forall byte_ok vs -> extends base (l ++ vs).
Proof.
  intros (us & -> & Hus) Hvs. exists (us ++ vs)%list.
  split; [now rewrite app_assoc | now apply Forall_app].
Qed.

Lemma triple_ret {A} (a : A) (Q : A -> Prop) : Q a -> triple base (ret a) Q.
Proof. intros Hq w Hw. split; assumption. Qed.

Lemma triple_raise {A} (e : exn) (Q : A -> Prop) :
  e <> AssertionError -> triple base (raise e) Q.
Proof. intros He w Hw. split; assumption. Qed.

Lemma triple_bind {A B} (c : M A) (k : A -> M B)
    (Q : A -> Prop) (R : B -> Prop) :
  triple base c Q -> (forall a, Q a -> triple base (k a) R) ->
  triple base (bind c k) R.
Proof.
  intros Hc Hk w Hw. unfold bind.
  destruct (Hc w Hw) as [Hl Hr].
  destruct (c w) as [[a|e] w']; cbn [fst snd] in *.
  - exact (Hk a Hr w' Hl).
  - split; assumption.
Qed.

Lemma triple_weaken {A} (c : M A) (Q R : A -> Prop) :
  triple base c Q -> (forall a, Q a -> R a) -> triple base c R.
Proof.
  intros Hc Hqr w Hw. destruct (Hc w Hw) as [Hl Hr]. split; [assumption|].
  destruct (fst (c w)); auto.
Qed.

(** A loop keeps an invariant that may depend on the number of passes
    made. *)
Lemma triple_for_each {A St} (body : A -> St -> M St) (I : nat -> St -> Prop)
    (xs : list A) :
  (forall k x s, I k s -> triple base (body x s) (I (S k))) ->
  forall k s, I k s ->
    triple base (for_each xs body s) (I (k + List.length xs)%nat).
Proof.
  intros Hb. induction xs as [|x xs IH]; intros k s Hs; cbn [for_each List.length].
  - rewrite Nat.add_0_r. now apply triple_ret.
  - apply triple_bind with (Q := I (S k)); [now apply Hb|].
    intros s' Hs'. rewrite <- Nat.add_succ_comm. now apply IH.
Qed.

Lemma triple_stdout_write (s : string) (Q : unit -> Prop) :
  Q tt -> triple base (stdout_write s) Q.
Proof. intros Hq w Hw. split; assumption. Qed.

Lemma triple_stderr_write (s : string) (Q : unit -> Prop) :
  Q tt -> triple base (stderr_write s) Q.
Proof. intros Hq w Hw. split; assumption. Qed.

Lemma triple_write (h : HexTable) (n : Z) :
  byte_ok n -> triple base (write h n) (fun _ => True).
Proof.
  intros Hn w Hw. rewrite write_run. cbn [fst snd written hexlog].
  split; [|exact I]. apply extends_app; [assumption|].
  constructor; [assumption | constructor].
Qed.

Lemma triple_write_all (vs : list Z) (h : HexTable) :
  Forall byte_ok vs -> triple base (write_all vs h) (fun _ => True).
Proof.
  intros Hvs w Hw. rewrite write_all_run. cbn [fst snd written hexlog].
  split; [|exact I]. now apply extends_app.
Qed.

Lemma triple_getitem {A} (l : list A) (i : Z) :
  triple base (getitem l i)
    (fun a => exists j, py_index (List.length l) i = Some j /\
                        nth_error l j = Some a).
Proof.
  intros w Hw. unfold getitem.
  destruct (py_index (List.length l) i) as [j|]; cbn.
  - destruct (nth_error l j) as [a|] eqn:E; cbn.
    + split; [assumption|]. exists j. split; [reflexivity | assumption].
    + split; [assumption | discriminate].
  - split; [assumption | discriminate].
Qed.

Lemma triple_setitem {A} (l : list A) (i : Z) (a : A) :
  0 <= i ->
  triple base (setitem l i a)
    (fun l' => i < Z.of_nat (List.length l) /\
               l' = list_update l (Z.to_nat i) a).
Proof.
  intros Hi w Hw. unfold setitem, py_index.
  destruct (Z.ltb_spec i 0); [lia|].
  destruct (Z.leb_spec 0 i); [|lia].
  destruct (Z.ltb_spec i (Z.of_nat (List.length l))); cbn.
  - split; [assumption|]. split; [assumption | reflexivity].
  - split; [assumption | discriminate].
Qed.

Lemma triple_floordiv (a b : Z) :
  triple base (floordiv a b) (fun q => b <> 0 /\ q = a / b).
Proof.
  intros w Hw. unfold floordiv. destruct (Z.eqb_spec b 0); cbn.
  - split; [assumption | discriminate].
  - split; [assumption | split; [assumption | reflexivity]].
Qed.

End Triples.

(** ** Bits *)

Lemma land_top_bit (x : Z) :
  (Z.land x 32768 =? 0) = negb (Z.testbit x 15).
Proof.
  change 32768 with (2 ^ 15).
  destruct (Z.testbit x 15) eqn:E; cbn [negb].
  - apply Z.eqb_neq. intros H.
    assert (T : Z.testbit (Z.land x (2 ^ 15)) 15 = true)
      by (rewrite Z.land_spec, E, Z.pow2_bits_true by lia; reflexivity).
    rewrite H, Z.bits_0 in T. discriminate.
  - apply Z.eqb_eq. apply Z.bits_inj'. intros n Hn.
    rewrite Z.land_spec, Z.bits_0, Z.pow2_bits_eqb by lia.
    destruct (Z.eqb_spec 15 n) as [<-|]; [now rewrite E | apply andb_false_r].
Qed.

Lemma testbit_15 (x : Z) :
  0 <= x < 65536 -> Z.testbit x 15 = (32768 <=? x).
Proof.
  intros Hx. rewrite Z.testbit_eqb by lia. change (2 ^ 15) with 32768.
  destruct (Z.leb_spec 32768 x); Z.to_euclidean_division_equations; lia.
Qed.

Lemma lor_bound (a b n : Z) :
  0 <= n -> 0 <= a < 2 ^ n -> 0 <= b < 2 ^ n -> 0 <= Z.lor a b < 2 ^ n.
Proof.
  intros Hn Ha Hb.
  assert (H0 : 0 <= Z.lor a b) by (apply Z.lor_nonneg; lia).
  split; [assumption|].
  destruct (Z.eq_dec (Z.lor a b) 0) as [E|E]; [rewrite E; lia|].
  apply Z.log2_lt_pow2; [lia|].
  rewrite Z.log2_lor by lia.
  pose proof (Z.log2_nonneg a). pose proof (Z.log2_nonneg b).
  assert (La : Z.log2 a < n \/ a = 0)
    by (destruct (Z.eq_dec a 0); [now right | left; apply Z.log2_lt_pow2; lia]).
  assert (Lb : Z.log2 b < n \/ b = 0)
    by (destruct (Z.eq_dec b 0); [now right | left; apply Z.log2_lt_pow2; lia]).
  destruct La as [La|Ea], Lb as [Lb|Eb].
  - lia.
  - subst b. change (Z.log2 0) with 0. lia.
  - subst a. change (Z.log2 0) with 0. lia.
  - subst a b. now cbn in E.
Qed.

Lemma land_255_range (s : Z) : byte_ok (Z.land s 255).
Proof.
  unfold byte_ok. change (Z.land s 255) with (Z.land s (Z.ones 8)).
  rewrite Z.land_ones by lia. change (2 ^ 8) with 256.
  pose proof (Z.mod_pos_bound s 256 ltac:(lia)). lia.
Qed.

Lemma byte_at_range (bytes : list byte) (i : Z) : 0 <= byte_at bytes i <= 255.
Proof.
  unfold byte_at. destruct (nth_error bytes (Z.to_nat i)) as [b|].
  - apply byte_val_range.
  - lia.
Qed.

(** The 16-bit sample offset, in the words of the code and as a
    comparison: a value with its top bit set loses 32768, any other
    gains 32768. *)
Lemma offset_range (x : Z) :
  0 <= x < 65536 ->
  0 <= (if Z.land x 32768 =? 0 then x + 32768 else x - 32768) < 65536.
Proof.
  intros Hx. rewrite land_top_bit, testbit_15 by assumption.
  destruct (Z.leb_spec 32768 x); cbn [negb]; lia.
Qed.

Lemma le16_range (b0 b1 : Z) :
  0 <= b0 <= 255 -> 0 <= b1 <= 255 -> 0 <= b0 + Z.shiftl b1 8 < 65536.
Proof.
  intros H0 H1. rewrite Z.shiftl_mul_pow2 by lia. change (2 ^ 8) with 256. lia.
Qed.

(** ** The audio loop on any file *)

Lemma Forall_list_update {A} (P : A -> Prop) (l : list A) (j : nat) (a : A) :
  Forall P l -> P a -> Forall P (list_update l j a).
Proof.
  intros Hl Ha. revert j. induction Hl as [|x l Hx Hl IH]; intros [|j]; cbn;
    constructor; auto.
Qed.

(** The accumulator takes a 10-bit sample and stays well-formed, with two
    more bits in its first byte. *)
Lemma buf_step_ok (b : list Z) (i s : Z) :
  List.length b = 5%nat -> 1 <= i <= 4 -> Forall byte_ok b ->
  0 <= nth 0 b 0 < 2 ^ (2 * (i - 1)) -> 0 <= s <= 1023 ->
  let b2 :=
    list_update
      (list_update b 0 (Z.lor (Z.shiftl (nth 0 b 0) 2) (Z.shiftr s 8)))
      (Z.to_nat i) (Z.land s 255) in
  List.length b2 = 5%nat /\ Forall byte_ok b2 /\ 0 <= nth 0 b2 0 < 2 ^ (2 * i).
Proof.
  intros Hlen Hi Hb H0 Hs b2.
  assert (Hv : 0 <= Z.lor (Z.shiftl (nth 0 b 0) 2) (Z.shiftr s 8) < 2 ^ (2 * i)).
  { apply lor_bound; [lia | |].
    - rewrite Z.shiftl_mul_pow2 by lia.
      replace (2 * i) with (2 * (i - 1) + 2) by lia.
      rewrite Z.pow_add_r by lia. change (2 ^ 2) with 4. lia.
    - rewrite Z.shiftr_div_pow2 by lia. change (2 ^ 8) with 256.
      assert (2 ^ 2 <= 2 ^ (2 * i)) by (apply Z.pow_le_mono_r; lia).
      change (2 ^ 2) with 4 in *.
      Z.to_euclidean_division_equations; lia. }
  assert (H8 : 2 ^ (2 * i) <= 2 ^ 8) by (apply Z.pow_le_mono_r; lia).
  change (2 ^ 8) with 256 in H8.
  subst b2. split; [now rewrite !length_list_update|]. split.
  - apply Forall_list_update; [|apply land_255_range].
    apply Forall_list_update; [assumption|]. unfold byte_ok. lia.
  - destruct b as [|b0 b]; [discriminate|].
    destruct (Z.to_nat i) as [|j] eqn:E; [lia|]. cbn. assumption.
Qed.

Section AudioTriples.

Variable base : list Z.
Variables (reduce16 : Z) (bytes : list byte) (channels bitsPer div : Z).
Hypothesis channels_nonneg : 0 <= channels.
Hypothesis div_def :
  div = if bitsPer =? 16 then
          if reduce16 =? 10 then channels * 64 else channels * 256
        else channels.

Lemma triple_wav_channel (sum pos : Z) :
  triple base (wav_channel bytes bitsPer (sum, pos))
    (fun r => sum <= fst r <= sum + chan_max bitsPer).
Proof.
  unfold wav_channel, chan_max.
  destruct (bitsPer =? 8).
  - eapply triple_bind; [apply triple_getitem|].
    intros b _. apply triple_ret. cbn [fst].
    pose proof (byte_val_range b). lia.
  - destruct (bitsPer =? 16).
    + eapply triple_bind; [apply triple_getitem|]. intros b0 _.
      eapply triple_bind; [apply triple_getitem|]. intros b1 _.
      apply triple_ret. cbn [fst].
      pose proof (offset_range _
                    (le16_range _ _ (byte_val_range b0) (byte_val_range b1))).
      lia.
    + apply triple_ret. cbn [fst]. lia.
Qed.

Lemma chan_max_nonneg : 0 <= chan_max bitsPer.
Proof.
  unfold chan_max. destruct (bitsPer =? 8); [lia|].
  destruct (bitsPer =? 16); lia.
Qed.

(** The sum of a frame is at most [chan_max] per channel. *)
Lemma triple_wav_frame (pos : Z) :
  triple base
    (for_each (range channels) (fun _ => wav_channel bytes bitsPer) (0, pos))
    (fun r => 0 <= fst r <= channels * chan_max bitsPer).
Proof.
  pose proof chan_max_nonneg as Hm.
  eapply triple_weaken.
  - apply (triple_for_each base (fun _ => wav_channel bytes bitsPer)
             (fun k r => 0 <= fst r <= Z.of_nat k * chan_max bitsPer)
             (range channels)) with (k := O) (s := (0, pos)).
    + intros k _ [sum p] Hs. cbn [fst] in Hs.
      eapply triple_weaken; [apply triple_wav_channel|].
      intros r Hr. cbn beta in Hr. rewrite Nat2Z.inj_succ, Z.mul_succ_l. lia.
    + cbn [fst]. lia.
  - intros r. cbn beta. rewrite length_range, Nat.add_0_l, Z2Nat.id by lia.
    trivial.
Qed.

(** The mixed-down sample fits the output width. *)
Lemma mix_range (sum : Z) :
  0 <= sum <= channels * chan_max bitsPer -> div <> 0 ->
  0 <= sum / div <=
    (if (bitsPer =? 16) && (reduce16 =? 10) then 1023 else 255).
Proof.
  intros Hs Hd. revert Hs. rewrite div_def in *. unfold chan_max.
  destruct (Z.eqb_spec bitsPer 16) as [E|E].
  - subst bitsPer. cbn [Z.eqb Pos.eqb andb].
    destruct (reduce16 =? 10); intros Hs;
      (split; [apply Z.div_pos; lia|]);
      apply Z.lt_succ_r, Z.div_lt_upper_bound; lia.
  - cbn [andb]. destruct (bitsPer =? 8); intros Hs;
      (split; [apply Z.div_pos; lia|]);
      apply Z.lt_succ_r, Z.div_lt_upper_bound; lia.
Qed.

(** One pass of the sample loop hands 8-bit values only to the
    formatter and keeps the accumulator well-formed. *)
Lemma triple_wav_sample (st : wav_state) :
  buf_ok st ->
  triple base (wav_sample reduce16 bytes channels bitsPer div st) buf_ok.
Proof.
  intros (Hlen & Hi & Hb & H0). unfold wav_sample.
  eapply triple_bind; [apply triple_wav_frame|].
  intros [sum pos] Hsum. cbn [fst] in Hsum.
  pose proof (mix_range sum Hsum) as Hq.
  destruct ((bitsPer =? 16) && (reduce16 =? 10)).
  - eapply triple_bind; [apply triple_floordiv|].
    intros q [Hd ->]. specialize (Hq Hd).
    eapply triple_bind; [apply triple_getitem|].
    intros b0 (j & Hj & Hn).
    unfold py_index in Hj. rewrite Hlen in Hj. cbn in Hj.
    injection Hj as <-.
    apply nth_error_nth with (d := 0) in Hn.
    eapply triple_bind; [apply triple_setitem; lia|].
    intros buf1 [_ ->].
    eapply triple_bind; [apply triple_setitem; lia|].
    intros buf2 [_ ->].
    change (Z.to_nat 0) with O. rewrite <- Hn.
    destruct (buf_step_ok (buf st) (bufIdx st) (sum / div) Hlen Hi Hb H0 Hq)
      as (Hlen2 & Hb2 & H02).
    destruct (Z.leb_spec 5 (bufIdx st + 1)).
    + eapply triple_bind; [apply triple_write_all; assumption|].
      intros h _. apply triple_ret.
      repeat split; cbn; try lia.
      repeat constructor; unfold byte_ok; lia.
    + apply triple_ret. unfold buf_ok. cbn [buf bufIdx].
      replace (2 * (bufIdx st + 1 - 1)) with (2 * bufIdx st) by lia.
      repeat split; try assumption; lia.
  - eapply triple_bind; [apply triple_floordiv|].
    intros q [Hd ->]. specialize (Hq Hd).
    eapply triple_bind; [apply triple_write; exact Hq|].
    intros h _. apply triple_ret. unfold buf_ok. cbn [buf bufIdx].
    repeat split; try assumption; lia.
Qed.

End AudioTriples.

(** Past the magic check the conversion returns 1 or raises something
    other than [AssertionError], and hands 8-bit values only to the
    formatter on the way. *)
Lemma convertWav_body_triple (base : list Z) (reduce16 : Z) (prefix : string)
    (bytes : list byte) :
  wav_magic bytes = true ->
  triple base (convertWav_body reduce16 prefix bytes) (fun a => a = 1).
Proof.
  intros Hm. unfold convertWav_body. rewrite Hm. unfold assert.
  pose proof (uvalue_nonneg (slice bytes 22 24)) as Hc.
  fold (wav_channels bytes) in Hc.
  assert (Hinit : forall pos h, buf_ok (mkWavState pos (repeat 0 5) 1 h)).
  { intros pos h. unfold buf_ok. cbn.
    repeat split; try lia. repeat constructor; unfold byte_ok; lia. }
  assert (Hloop : forall div samples pos h,
             div = (if wav_bitsPer bytes =? 16 then
                      if reduce16 =? 10 then wav_channels bytes * 64
                      else wav_channels bytes * 256
                    else wav_channels bytes) ->
             triple base
               (for_each (range samples)
                  (fun _ => wav_sample reduce16 bytes (wav_channels bytes)
                              (wav_bitsPer bytes) div)
                  (mkWavState pos (repeat 0 5) 1 h))
               buf_ok).
  { intros div samples pos h Hdiv.
    eapply triple_weaken.
    - apply (triple_for_each base _ (fun _ => buf_ok) (range samples))
        with (k := O); [|apply Hinit].
      intros k x s Hs. now apply triple_wav_sample.
    - trivial. }
  assert (Hflush : forall (c : bool) st,
             buf_ok st ->
             triple base
               (if c then write_all (buf st) (hex st) else ret (hex st))
               (fun _ => True)).
  { intros c st (_ & _ & Hb & _). destruct c.
    - now apply triple_write_all.
    - now apply triple_ret. }
  eapply triple_bind; [apply (triple_ret base tt (fun _ => True) I)|].
  intros _ _.
  eapply triple_bind; [apply triple_floordiv|]. intros samples _.
  eapply triple_bind; [apply (triple_stderr_write base _ (fun _ => True) I)|].
  intros _ _.
  eapply triple_bind; [apply (triple_stdout_write base _ (fun _ => True) I)|].
  intros _ _.
  destruct (wav_bitsPer bytes =? 16) eqn:E16;
    [destruct (reduce16 =? 10) eqn:E10|];
    (eapply triple_bind;
     [apply Hloop; rewrite ?E16, ?E10; reflexivity|];
     intros st Hst;
     eapply triple_bind; [apply Hflush, Hst|];
     intros _ _; now apply triple_ret).
Qed.

(** How [convertWav] can end.  Without the magic markers it returns -1
    and prints to [stderr] only; with them it returns 1 or raises
    [ZeroDivisionError] or [IndexError], and whatever it has handed to
    the formatter by then are 8-bit values. *)
Lemma convertWav_outcome (reduce16 : Z) (prefix : string) (bytes : list byte)
    (w : world) :
  (wav_magic bytes = false /\
   convertWav reduce16 prefix bytes w =
     (Return (-1),
      World (stdout w) (stderr w ++ "Not a WAV file" ++ nl) (hexlog w))) \/
  (wav_magic bytes = true /\
   extends (hexlog w) (hexlog (snd (convertWav reduce16 prefix bytes w))) /\
   (fst (convertWav reduce16 prefix bytes w) = Return 1 \/
    fst (convertWav reduce16 prefix bytes w) = Raise ZeroDivisionError \/
    fst (convertWav reduce16 prefix bytes w) = Raise IndexError)).
Proof.
  destruct (wav_magic bytes) eqn:Hm.
  - right. split; [reflexivity|].
    destruct (convertWav_body_triple (hexlog w) reduce16 prefix bytes Hm w
                (extends_refl _)) as [Hl Hr].
    unfold convertWav, try_except.
    destruct (convertWav_body reduce16 prefix bytes w) as [[a|e] w'];
      cbn [fst snd] in *.
    + split; [assumption|]. left. now subst a.
    + destruct e; cbn [fst snd]; (split; [assumption|]); auto.
      contradiction.
  - left. split; [reflexivity|].
    unfold convertWav, try_except, convertWav_body. rewrite Hm.
    reflexivity.
Qed.

(** ** Rendering *)

Lemma string_forall_app (P : ascii -> bool) (a b : string) :
  string_forall P (a ++ b) = string_forall P a && string_forall P b.
Proof.
  induction a as [|c a IH]; cbn; [reflexivity|].
  now rewrite IH, andb_assoc.
Qed.

Lemma string_forall_of_list (P : ascii -> bool) (l : list ascii) :
  string_forall P (string_of_list_ascii l) = forallb P l.
Proof. induction l as [|c l IH]; cbn; [reflexivity | now rewrite IH]. Qed.


Lemma hex_digit_is_hex (d : Z) : 0 <= d < 16 -> is_hex_digit (hex_digit d) = true.
Proof.
  intros Hd. unfold hex_digit.
  assert (Hk : (Z.to_nat d < 16)%nat) by lia.
  destruct (Z.to_nat d) as [|k]; [reflexivity|].
  do 15 (destruct k as [|k]; [reflexivity|]). lia.
Qed.


Lemma hex_of_digits (n : Z) : string_forall is_hex_digit (hex_of n) = true.
Proof.
  unfold hex_of. rewrite string_forall_of_list. apply forallb_forall.
  intros c Hc. apply in_map_iff in Hc. destruct Hc as (i & <- & _).
  apply hex_digit_is_hex. apply Z.mod_pos_bound. lia.
Qed.



Lemma zeros_digits (k : nat) : string_forall is_hex_digit (zeros k) = true.
Proof. induction k as [|k IH]; cbn; [reflexivity | exact IH]. Qed.





(** ** C3: the format error *)

(** C3, as the code has it: [convertWav] reports the format error, the
    result -1 with nothing written to [stdout] or handed to the
    formatter, exactly when the magic markers are missing.  An input
    that has them is converted (result 1) or makes the conversion raise
    [ZeroDivisionError] or [IndexError], which [convertWav] does not
    catch; it is converted whenever its bytes-per-frame and channel
    fields are not zero and the samples its header declares are all
    there. *)
Theorem convertWav_format_error (reduce16 : Z) (prefix : string)
    (bytes : list byte) (w : world) :
  (fst (convertWav reduce16 prefix bytes w) = Return (-1) <->
   wav_magic bytes = false) /\
  (wav_magic bytes = false ->
   convertWav reduce16 prefix bytes w =
     (Return (-1),
      World (stdout w) (stderr w ++ "Not a WAV file" ++ nl) (hexlog w))) /\
  (wav_magic bytes = true ->
   fst (convertWav reduce16 prefix bytes w) = Return 1 \/
   fst (convertWav reduce16 prefix bytes w) = Raise ZeroDivisionError \/
   fst (convertWav reduce16 prefix bytes w) = Raise IndexError) /\
  (wav_magic bytes = true -> wav_complete bytes ->
   fst (convertWav reduce16 prefix bytes w) = Return 1).
Proof.
  destruct (convertWav_outcome reduce16 prefix bytes w)
    as [[Hm Hrun] | (Hm & _ & Hres)].
  - rewrite Hrun, Hm. cbn [fst].
    repeat split; try discriminate; auto.
  - rewrite Hm. repeat split; try discriminate.
    + intros H. rewrite H in Hres.
      destruct Hres as [H1 | [H1 | H1]]; discriminate.
    + auto.
    + intros _ Hc. now rewrite convertWav_run.
Qed.

Lemma convertWav_format_error_witness :
  let bytes := wav_file 1 8000 1 8 3 (mk_bytes [0; 128; 255]) in
  wav_magic bytes = true /\ wav_complete bytes /\
  fst (convertWav 8 "snd" bytes world0) = Return 1.
Proof.
  cbv zeta.
  assert (Hm : wav_magic (wav_file 1 8000 1 8 3 (mk_bytes [0; 128; 255])) = true)
    by reflexivity.
  assert (Hc : wav_complete (wav_file 1 8000 1 8 3 (mk_bytes [0; 128; 255]))).
  { split; [|split].
    - vm_compute. discriminate.
    - vm_compute. discriminate.
    - intros _. vm_compute. split; discriminate. }
  split; [exact Hm|]. split; [exact Hc|].
  exact (proj2 (proj2 (proj2
           (convertWav_format_error 8 "snd"
              (wav_file 1 8000 1 8 3 (mk_bytes [0; 128; 255])) world0)))
           Hm Hc).
Defined.

(** C3 as worded fails: these sixteen bytes pass the magic check, and the
    conversion raises [ZeroDivisionError] (the bytes-per-frame field
    reads as 0), which is neither a conversion nor the format error. *)
Lemma convertWav_magic_then_zero_division :
  wav_magic (list_byte_of_string "RIFFxxxxWAVEfmt ") = true /\
  convertWav 8 "snd" (list_byte_of_string "RIFFxxxxWAVEfmt ") world0 =
    (Raise ZeroDivisionError, world0).
Proof.
  split; vm_compute; reflexivity.
Qed.

(** ** C10: sources that are neither 8-bit nor 16-bit *)

Lemma frame_sum_other (bytes : list byte) (bitsPer : Z) (n : nat) :
  bitsPer <> 8 -> bitsPer <> 16 ->
  forall pos, frame_sum bytes bitsPer pos n = 0.
Proof.
  intros H8 H16. induction n as [|n IH]; intros pos; cbn [frame_sum].
  - reflexivity.
  - rewrite IH. unfold channel_value.
    destruct (Z.eqb_spec bitsPer 8); [contradiction|].
    destruct (Z.eqb_spec bitsPer 16); [contradiction|]. reflexivity.
Qed.

Lemma mixed_other (bytes : list byte) (bitsPer : Z) (nch : nat) (div : Z)
    (n : nat) :
  bitsPer <> 8 -> bitsPer <> 16 ->
  forall pos, mixed bytes bitsPer nch div pos n = repeat 0 n.
Proof.
  intros H8 H16. induction n as [|n IH]; intros pos; cbn [mixed repeat].
  - reflexivity.
  - now rewrite IH, frame_sum_other.
Qed.

Lemma sample_width_other (bitsPer : Z) :
  bitsPer <> 8 -> bitsPer <> 16 -> sample_width bitsPer = 0.
Proof.
  intros H8 H16. unfold sample_width.
  destruct (Z.eqb_spec bitsPer 8); [contradiction|].
  destruct (Z.eqb_spec bitsPer 16); [contradiction|]. reflexivity.
Qed.

(** C10, as the code has it: a file that passes the magic check, whose
    bits-per-sample field is neither 8 nor 16 and whose bytes-per-frame
    and channel fields are not zero, is converted without failure: the
    header constants, then [samples] elements, all 0.  The sample data is
    never read: the outcome is the same for every file with these header
    fields, whatever bytes it holds or lacks. *)
Theorem convertWav_other_depth (reduce16 : Z) (prefix : string)
    (bytes : list byte) (w : world) :
  wav_magic bytes = true ->
  wav_bitsPer bytes <> 8 -> wav_bitsPer bytes <> 16 ->
  wav_bytesPer bytes <> 0 -> wav_channels bytes <> 0 ->
  convertWav reduce16 prefix bytes w =
    (Return 1,
     written (HexTable_init (wav_samples bytes) 12 2)
       (repeat 0 (Z.to_nat (wav_samples bytes)))
       (World (stdout w ++
               wav_header prefix (wav_rate bytes) (wav_samples bytes) 8)
              (stderr w ++ "WAV OK" ++ nl) (hexlog w))) /\
  (forall bytes',
     wav_magic bytes' = true ->
     wav_bitsPer bytes' = wav_bitsPer bytes ->
     wav_bytesPer bytes' = wav_bytesPer bytes ->
     wav_channels bytes' = wav_channels bytes ->
     wav_rate bytes' = wav_rate bytes ->
     wav_bytesTotal bytes' = wav_bytesTotal bytes ->
     convertWav reduce16 prefix bytes' w = convertWav reduce16 prefix bytes w).
Proof.
  assert (Hrun : forall bs,
            wav_magic bs = true ->
            wav_bitsPer bs <> 8 -> wav_bitsPer bs <> 16 ->
            wav_bytesPer bs <> 0 -> wav_channels bs <> 0 ->
            convertWav reduce16 prefix bs w =
              (Return 1,
               written (HexTable_init (wav_samples bs) 12 2)
                 (repeat 0 (Z.to_nat (wav_samples bs)))
                 (World (stdout w ++
                         wav_header prefix (wav_rate bs) (wav_samples bs) 8)
                        (stderr w ++ "WAV OK" ++ nl) (hexlog w)))).
  { intros bs Hm H8 H16 Hbp Hch.
    rewrite convertWav_run; [|assumption|].
    - unfold wav_count, wav_values, wav_started, wav_mixed, ten_bit.
      destruct (Z.eqb_spec (wav_bitsPer bs) 16); [contradiction|].
      cbn [andb]. now rewrite mixed_other.
    - split; [assumption|]. split; [assumption|].
      intros Hw. now rewrite sample_width_other in Hw. }
  intros Hm H8 H16 Hbp Hch. split; [now apply Hrun|].
  intros bytes' Hm' E1 E2 E3 E4 E5.
  rewrite (Hrun bytes), (Hrun bytes') by congruence.
  unfold wav_samples. now rewrite E2, E4, E5.
Qed.

Lemma convertWav_other_depth_witness :
  let bytes := wav_file 2 8000 6 24 12 [] in
  convertWav 8 "snd" bytes world0 =
    (Return 1,
     written (HexTable_init 2 12 2) [0; 0]
       (World (wav_header "snd" 8000 2 8) ("WAV OK" ++ nl) [])).
Proof.
  cbv zeta.
  refine (proj1 (convertWav_other_depth 8 "snd"
                   (wav_file 2 8000 6 24 12 []) world0 _ _ _ _ _));
    vm_compute; congruence.
Defined.

(** C10 as worded fails: this file passes the magic check and declares 24
    bits per sample, and zero channels; the header constants are printed,
    then the division of the first sum by the channel count raises
    [ZeroDivisionError] and no element is written. *)
Lemma convertWav_other_depth_zero_channels :
  let bytes := wav_file 0 8000 3 24 3 (mk_bytes [1; 2; 3]) in
  wav_magic bytes = true /\ wav_bitsPer bytes = 24 /\
  wav_samples bytes = 1 /\
  fst (convertWav 8 "snd" bytes world0) = Raise ZeroDivisionError /\
  hexlog (snd (convertWav 8 "snd" bytes world0)) = [].
Proof.
  vm_compute. repeat split; reflexivity.
Qed.

(** ** C7: the element count and the cap *)

Lemma string_forall_impl (P Q : ascii -> bool) (s : string) :
  (forall c, P c = true -> Q c = true) ->
  string_forall P s = true -> string_forall Q s = true.
Proof.
  intros Hpq. induction s as [|c s IH]; cbn; [reflexivity|].
  intros H. apply andb_true_iff in H. destruct H as [Hc Hs].
  now rewrite (Hpq c Hc), IH.
Qed.

Lemma hex_digit_not_brace (c : ascii) :
  is_hex_digit c = true -> not_brace c = true.
Proof.
  unfold is_hex_digit. intros H. apply existsb_exists in H.
  destruct H as (d & Hin & Heq). apply Ascii.eqb_eq in Heq. subst d.
  cbn in Hin. repeat (destruct Hin as [<-|Hin]; [reflexivity|]).
  contradiction.
Qed.

Lemma format_hex_no_brace (n width : Z) :
  string_forall not_brace (format_hex n width) = true.
Proof.
  unfold format_hex. rewrite !string_forall_app.
  rewrite (string_forall_impl _ _ _ hex_digit_not_brace (zeros_digits _)).
  rewrite (string_forall_impl _ _ _ hex_digit_not_brace (hex_of_digits _)).
  destruct (n <? 0); reflexivity.
Qed.

(** No closing brace among the elements. *)
Lemma elements_text_no_brace (ns : list Z) :
  forall h, string_forall not_brace (elements_text h ns) = true.
Proof.
  induction ns as [|n ns IH]; intros h; cbn [elements_text]; [reflexivity|].
  rewrite !string_forall_app, format_hex_no_brace, IH.
  unfold write_sep, write_wrap.
  destruct (0 <? hexCounter h); [destruct (hexColumn h <? hexColumns h - 1)|];
    destruct (hexColumns h <=? hexColumn h + 1); reflexivity.
Qed.

(** Writing the values that fill a table prints its elements, then the
    cap, once. *)
Lemma render_cap_end (ns : list Z) :
  forall h,
    ns <> [] ->
    hexLimit h = hexCounter h + Z.of_nat (List.length ns) ->
    render h ns = elements_text h ns ++ " };" ++ nl ++ nl.
Proof.
  induction ns as [|n ns IH]; intros h Hne Hlim; [contradiction|].
  cbn [render elements_text List.length] in *.
  unfold write_text, write_cap. rewrite !append_assoc.
  do 3 f_equal.
  destruct ns as [|m ns].
  - cbn [render elements_text List.length] in *.
    destruct (Z.leb_spec (hexLimit h) (hexCounter h + 1)); [|lia].
    now rewrite append_nil_r.
  - destruct (Z.leb_spec (hexLimit h) (hexCounter h + 1));
      [cbn [List.length] in Hlim; lia|].
    cbn [append]. apply IH; [discriminate|].
    unfold write_state. cbn [hexLimit hexCounter]. lia.
Qed.

(** C7, as the code has it: when a file passes the magic check and the
    conversion runs to the end, the number of values handed to the
    formatter is the element count the table was declared with:
    [samples] in 8-bit output mode, [5 * ceil(samples / 4)] in 10-bit
    output mode.  With at least one sample the output is the header, the
    elements, and then, at the very end and nowhere before, the cap. *)
Theorem convertWav_element_count (reduce16 : Z) (prefix : string)
    (bytes : list byte) (w : world) :
  wav_magic bytes = true -> wav_complete bytes ->
  let table := HexTable_init (wav_count reduce16 bytes) 12 2 in
  let vs := wav_values reduce16 bytes in
  convertWav reduce16 prefix bytes w =
    (Return 1, written table vs (wav_started reduce16 prefix bytes w)) /\
  wav_samples bytes = wav_bytesTotal bytes / wav_bytesPer bytes /\
  wav_count reduce16 bytes =
    (if (wav_bitsPer bytes =? 16) && (reduce16 =? 10)
     then 5 * ((wav_samples bytes + 3) / 4) else wav_samples bytes) /\
  Z.of_nat (List.length vs) = wav_count reduce16 bytes /\
  (0 < wav_samples bytes ->
   stdout (snd (convertWav reduce16 prefix bytes w)) =
     stdout (wav_started reduce16 prefix bytes w) ++
     elements_text table vs ++ " };" ++ nl ++ nl /\
   string_forall not_brace (elements_text table vs) = true).
Proof.
  intros Hm Hc table vs.
  pose proof (wav_samples_nonneg bytes) as Hs.
  assert (Hlen : Z.of_nat (List.length vs) = wav_count reduce16 bytes).
  { subst vs. unfold wav_values, wav_count, wav_mixed.
    destruct (ten_bit reduce16 bytes).
    - rewrite pack10_length, mixed_length, Z2Nat.id by lia. reflexivity.
    - rewrite mixed_length, Z2Nat.id by lia. reflexivity. }
  split; [now apply convertWav_run|].
  split; [reflexivity|]. split; [reflexivity|]. split; [exact Hlen|].
  intros Hpos. rewrite convertWav_run by assumption.
  cbn [snd written stdout]. fold table vs.
  split; [|apply elements_text_no_brace].
  f_equal. apply render_cap_end.
  - intros E. rewrite E in Hlen. cbn in Hlen.
    unfold wav_count in Hlen. destruct (ten_bit reduce16 bytes);
      Z.to_euclidean_division_equations; lia.
  - subst table. cbn [HexTable_init hexLimit hexCounter]. lia.
Qed.

Lemma convertWav_element_count_witness :
  let bytes := wav_file 1 8000 2 16 12
                 (mk_bytes [0; 128; 1; 128; 2; 128; 255; 127; 0; 0; 255; 255]) in
  wav_magic bytes = true /\ wav_complete bytes /\
  convertWav 10 "snd" bytes world0 =
    (Return 1,
     written (HexTable_init 10 12 2) [3; 0; 0; 0; 255; 9; 0; 255; 0; 0]
       (World (wav_header "snd" 8000 6 10) ("WAV OK" ++ nl) [])).
Proof.
  cbv zeta.
  assert (Hm : wav_magic
                 (wav_file 1 8000 2 16 12
                    (mk_bytes [0; 128; 1; 128; 2; 128; 255; 127; 0; 0; 255; 255]))
               = true) by reflexivity.
  assert (Hc : wav_complete
                 (wav_file 1 8000 2 16 12
                    (mk_bytes [0; 128; 1; 128; 2; 128; 255; 127; 0; 0; 255; 255]))).
  { split; [|split].
    - vm_compute. discriminate.
    - vm_compute. discriminate.
    - intros _. vm_compute. split; discriminate. }
  split; [exact Hm|]. split; [exact Hc|].
  exact (proj1 (convertWav_element_count 10 "snd" _ world0 Hm Hc)).
Defined.

(** C7 as worded fails: this file passes the magic check and declares
    three 8-bit samples, so the table is declared with three elements,
    but holds one sample only; one value is handed to the formatter, then
    the read of the second raises [IndexError], and the cap is never
    printed. *)
Lemma convertWav_truncated_writes_fewer :
  let bytes := wav_file 1 8000 1 8 3 (mk_bytes [7]) in
  wav_magic bytes = true /\
  wav_count 8 bytes = 3 /\
  fst (convertWav 8 "snd" bytes world0) = Raise IndexError /\
  hexlog (snd (convertWav 8 "snd" bytes world0)) = [7] /\
  stdout (snd (convertWav 8 "snd" bytes world0)) =
    wav_header "snd" 8000 3 8 ++ nl ++ "  0x07".
Proof.
  vm_compute. repeat split; reflexivity.
Qed.

(** ** C4 and C5: the mix-down of 16-bit sources *)

Lemma channel_value_16 (bytes : list byte) (pos : Z) :
  channel_value bytes 16 pos = offset16 (raw16 bytes pos).
Proof.
  unfold channel_value, offset16, raw16. cbn [Z.eqb Pos.eqb].
  rewrite Z.shiftl_mul_pow2 by lia. change (2 ^ 8) with 256.
  rewrite (Z.mul_comm _ 256), land_top_bit.
  destruct (Z.testbit _ 15); reflexivity.
Qed.

Lemma map_seq_succ {A} (f : Z -> A) (n : nat) :
  map f (map Z.of_nat (seq 1 n)) =
  map (fun c => f (c + 1)) (map Z.of_nat (seq 0 n)).
Proof.
  rewrite <- seq_shift, !map_map. apply map_ext.
  intros c. f_equal. lia.
Qed.

(** The sum of a frame, channel by channel. *)
Lemma frame_sum_index (bytes : list byte) (bitsPer : Z) (n : nat) :
  forall pos,
    frame_sum bytes bitsPer pos n =
      zsum (map (fun c => channel_value bytes bitsPer
                            (pos + c * sample_width bitsPer))
                (map Z.of_nat (seq 0 n))).
Proof.
  induction n as [|n IH]; intros pos; [reflexivity|].
  cbn [frame_sum seq map zsum fold_right]. fold (zsum).
  rewrite IH, map_seq_succ. f_equal; [f_equal; lia|].
  unfold zsum. f_equal. apply map_ext. intros c. f_equal. lia.
Qed.

(** The mixed-down samples, frame by frame. *)
Lemma mixed_index (bytes : list byte) (bitsPer : Z) (nch : nat) (div : Z)
    (n : nat) :
  forall pos,
    mixed bytes bitsPer nch div pos n =
      map (fun i => frame_sum bytes bitsPer
                      (pos + i * (Z.of_nat nch * sample_width bitsPer)) nch / div)
          (map Z.of_nat (seq 0 n)).
Proof.
  induction n as [|n IH]; intros pos; [reflexivity|].
  cbn [mixed seq map]. rewrite IH, map_seq_succ. f_equal.
  - do 2 f_equal. lia.
  - apply map_ext. intros i. do 2 f_equal. lia.
Qed.

(** The values of a 16-bit source are the frames mixed down as the
    specification words it. *)
Lemma wav_mixed_16 (reduce16 : Z) (bytes : list byte) :
  wav_bitsPer bytes = 16 ->
  wav_mixed reduce16 bytes =
    map (mix16 bytes (if reduce16 =? 10 then 64 else 256))
        (range (wav_samples bytes)).
Proof.
  intros H16. unfold wav_mixed, wav_div, range.
  pose proof (uvalue_nonneg (slice bytes 22 24)) as Hc.
  fold (wav_channels bytes) in Hc.
  rewrite H16. cbn [Z.eqb Pos.eqb]. rewrite mixed_index.
  apply map_ext. intros i. unfold mix16, frame16, range.
  rewrite frame_sum_index. rewrite Z2Nat.id by lia.
  f_equal.
  - f_equal. apply map_ext. intros c. rewrite channel_value_16.
    do 2 f_equal. change (sample_width 16) with 2. lia.
  - destruct (reduce16 =? 10); reflexivity.
Qed.

Lemma zsum_bound (M : Z) (l : list Z) :
  Forall (fun v => 0 <= v <= M) l ->
  0 <= zsum l <= Z.of_nat (List.length l) * M.
Proof.
  induction 1 as [|v l Hv Hl IH]; cbn [zsum fold_right List.length].
  - lia.
  - fold (zsum l). rewrite Nat2Z.inj_succ, Z.mul_succ_l. lia.
Qed.

Lemma offset16_range (bytes : list byte) (pos : Z) :
  0 <= offset16 (raw16 bytes pos) <= 65535.
Proof.
  pose proof (byte_at_range bytes pos). pose proof (byte_at_range bytes (pos + 1)).
  unfold offset16. rewrite testbit_15 by (unfold raw16; lia).
  destruct (Z.leb_spec 32768 (raw16 bytes pos)); unfold raw16 in *; lia.
Qed.

Lemma frame16_range (bytes : list byte) (i : Z) :
  0 <= frame16 bytes i <= wav_channels bytes * 65535.
Proof.
  pose proof (uvalue_nonneg (slice bytes 22 24)) as Hc.
  fold (wav_channels bytes) in Hc.
  unfold frame16.
  match goal with
  | |- 0 <= zsum ?l <= _ =>
      pose proof (zsum_bound 65535 l) as H
  end.
  rewrite length_map, length_range, Z2Nat.id in H by lia.
  apply H. apply Forall_map, Forall_forall. intros c _. apply offset16_range.
Qed.

(** A 16-bit source mixed down by [channels * 64] gives 10-bit values, by
    [channels * 256] 8-bit values. *)
Lemma mix16_range (bytes : list byte) (scale i : Z) :
  wav_channels bytes <> 0 -> 0 < scale ->
  0 <= mix16 bytes scale i /\ mix16 bytes scale i * scale <= 65535.
Proof.
  intros Hch Hs.
  pose proof (uvalue_nonneg (slice bytes 22 24)) as Hc.
  fold (wav_channels bytes) in Hc.
  pose proof (frame16_range bytes i) as Hf. unfold mix16.
  assert (Hd : 0 < wav_channels bytes * scale) by nia.
  split; [apply Z.div_pos; lia|].
  pose proof (Z.mul_div_le (frame16 bytes i) _ Hd) as Hle.
  nia.
Qed.

Lemma map_const {A B} (f : A -> B) (v : B) (l : list A) :
  (forall x, In x l -> f x = v) -> map f l = repeat v (List.length l).
Proof.
  induction l as [|x l IH]; intros H; cbn; [reflexivity|].
  rewrite H by now left. f_equal. apply IH. intros y Hy. apply H. now right.
Qed.

Lemma in_range (n i : Z) : In i (range n) -> 0 <= i < n.
Proof.
  unfold range. intros H. apply in_map_iff in H.
  destruct H as (k & <- & Hk). apply in_seq in Hk. lia.
Qed.

(** C5: a 16-bit source converted in 8-bit output mode yields, for each
    frame, the sum over the channels of the offset-converted samples,
    divided by [channels * 256] and rounded down; the offset conversion
    takes a raw little-endian 16-bit value with its top bit set to the
    value minus 32768 and any other to the value plus 32768.  A stereo
    source whose sample data is all zero yields 128 for every frame. *)
Theorem convertWav_16_to_8 (reduce16 : Z) (prefix : string)
    (bytes : list byte) (w : world) :
  wav_magic bytes = true -> wav_bitsPer bytes = 16 -> reduce16 <> 10 ->
  wav_complete bytes ->
  convertWav reduce16 prefix bytes w =
    (Return 1,
     written (HexTable_init (wav_samples bytes) 12 2)
       (map (mix16 bytes 256) (range (wav_samples bytes)))
       (World (stdout w ++
               wav_header prefix (wav_rate bytes) (wav_samples bytes) 8)
              (stderr w ++ "WAV OK" ++ nl) (hexlog w))) /\
  (wav_channels bytes = 2 ->
   (forall pos,
      data_start bytes <= pos < data_start bytes + 4 * wav_samples bytes ->
      byte_at bytes pos = 0) ->
   map (mix16 bytes 256) (range (wav_samples bytes)) =
     repeat 128 (Z.to_nat (wav_samples bytes))).
Proof.
  intros Hm H16 Hr Hc. split.
  - rewrite convertWav_run by assumption.
    unfold wav_count, wav_values, wav_started, ten_bit.
    rewrite wav_mixed_16 by assumption.
    destruct (Z.eqb_spec reduce16 10); [contradiction|].
    rewrite andb_false_r. reflexivity.
  - intros Hch Hz. rewrite <- length_range. apply map_const.
    intros i Hi. apply in_range in Hi.
    unfold mix16, frame16. rewrite Hch. change (range 2) with [0; 1].
    cbn [map zsum fold_right]. unfold raw16.
    rewrite !Hz by lia. reflexivity.
Qed.

Lemma convertWav_16_to_8_witness :
  let bytes := wav_file 2 8000 4 16 8 (mk_bytes [0; 0; 0; 0; 0; 0; 0; 0]) in
  wav_magic bytes = true /\ wav_bitsPer bytes = 16 /\ wav_complete bytes /\
  convertWav 8 "snd" bytes world0 =
    (Return 1,
     written (HexTable_init 2 12 2) [128; 128]
       (World (wav_header "snd" 8000 2 8) ("WAV OK" ++ nl) [])).
Proof.
  cbv zeta.
  assert (Hm : wav_magic
                 (wav_file 2 8000 4 16 8 (mk_bytes [0; 0; 0; 0; 0; 0; 0; 0]))
               = true) by reflexivity.
  assert (H16 : wav_bitsPer
                  (wav_file 2 8000 4 16 8 (mk_bytes [0; 0; 0; 0; 0; 0; 0; 0]))
                = 16) by reflexivity.
  assert (Hc : wav_complete
                 (wav_file 2 8000 4 16 8 (mk_bytes [0; 0; 0; 0; 0; 0; 0; 0]))).
  { split; [|split].
    - vm_compute. discriminate.
    - vm_compute. discriminate.
    - intros _. vm_compute. split; discriminate. }
  split; [exact Hm|]. split; [exact H16|]. split; [exact Hc|].
  refine (proj1 (convertWav_16_to_8 8 "snd" _ world0 Hm H16 _ Hc)).
  discriminate.
Defined.

(** Group [g] of four samples gives the five bytes at [5 * g]. *)
Lemma pack10_group (ss : list Z) :
  forall g, (4 * g + 4 <= List.length ss)%nat ->
    firstn 5 (skipn (5 * g) (pack10 ss)) =
      [Z.lor (Z.lor (Z.lor (Z.shiftl (Z.shiftr (nth (4 * g) ss 0) 8) 6)
                           (Z.shiftl (Z.shiftr (nth (4 * g + 1) ss 0) 8) 4))
                    (Z.shiftl (Z.shiftr (nth (4 * g + 2) ss 0) 8) 2))
             (Z.shiftr (nth (4 * g + 3) ss 0) 8);
       Z.land (nth (4 * g) ss 0) 255;
       Z.land (nth (4 * g + 1) ss 0) 255;
       Z.land (nth (4 * g + 2) ss 0) 255;
       Z.land (nth (4 * g + 3) ss 0) 255].
Proof.
  induction ss as [| a | a b | a b c | a b c d l IH] using list_ind4;
    intros g Hg; try (cbn [List.length] in Hg; lia).
  destruct g as [|g]; [reflexivity|].
  cbn [List.length] in Hg.
  replace (5 * S g)%nat with (5 + 5 * g)%nat by lia.
  replace (4 * S g)%nat with (4 + 4 * g)%nat by lia.
  cbn [pack10 Nat.add skipn nth]. apply IH. lia.
Qed.

(** A trailing group of [r] samples, one to three, gives five bytes as
    well: the sample slots hold the low bytes of the samples there are,
    and 0 after them. *)
Lemma pack10_last_group (ss : list Z) :
  forall g r, List.length ss = (4 * g + r)%nat -> (1 <= r <= 3)%nat ->
    exists top,
      skipn (5 * g) (pack10 ss) =
        [top;
         Z.land (nth (4 * g) ss 0) 255;
         if (1 <? r)%nat then Z.land (nth (4 * g + 1) ss 0) 255 else 0;
         if (2 <? r)%nat then Z.land (nth (4 * g + 2) ss 0) 255 else 0;
         0].
Proof.
  induction ss as [| a | a b | a b c | a b c d l IH] using list_ind4;
    intros g r Hl Hr; cbn [List.length] in Hl.
  - lia.
  - assert (g = O /\ r = 1%nat) as [-> ->] by lia. eexists. reflexivity.
  - assert (g = O /\ r = 2%nat) as [-> ->] by lia. eexists. reflexivity.
  - assert (g = O /\ r = 3%nat) as [-> ->] by lia. eexists. reflexivity.
  - destruct g as [|g]; [lia|].
    replace (5 * S g)%nat with (5 + 5 * g)%nat by lia.
    replace (4 * S g)%nat with (4 + 4 * g)%nat by lia.
    cbn [pack10 Nat.add skipn nth]. apply IH; lia.
Qed.

(** C4: in 10-bit mode each frame's sum is divided by [channels * 64] to
    a value in 0..1023.  Every four consecutive values give five bytes:
    the top two bits of each in the first, then the four low bytes in
    order; a trailing group of one to three values gives five bytes too,
    its unused sample slots being 0. *)
Theorem convertWav_10bit_packing (prefix : string) (bytes : list byte)
    (w : world) :
  wav_magic bytes = true -> wav_bitsPer bytes = 16 -> wav_complete bytes ->
  let ss := map (mix16 bytes 64) (range (wav_samples bytes)) in
  let out := pack10 ss in
  convertWav 10 prefix bytes w =
    (Return 1,
     written (HexTable_init (5 * ((wav_samples bytes + 3) / 4)) 12 2) out
       (World (stdout w ++
               wav_header prefix (wav_rate bytes) (wav_samples bytes) 10)
              (stderr w ++ "WAV OK" ++ nl) (hexlog w))) /\
  List.length ss = Z.to_nat (wav_samples bytes) /\
  Forall (fun s => 0 <= s <= 1023) ss /\
  (forall g, (4 * g + 4 <= List.length ss)%nat ->
     firstn 5 (skipn (5 * g) out) =
       [Z.lor (Z.lor (Z.lor (Z.shiftl (Z.shiftr (nth (4 * g) ss 0) 8) 6)
                            (Z.shiftl (Z.shiftr (nth (4 * g + 1) ss 0) 8) 4))
                     (Z.shiftl (Z.shiftr (nth (4 * g + 2) ss 0) 8) 2))
              (Z.shiftr (nth (4 * g + 3) ss 0) 8);
        Z.land (nth (4 * g) ss 0) 255;
        Z.land (nth (4 * g + 1) ss 0) 255;
        Z.land (nth (4 * g + 2) ss 0) 255;
        Z.land (nth (4 * g + 3) ss 0) 255]) /\
  (forall g r, List.length ss = (4 * g + r)%nat -> (1 <= r <= 3)%nat ->
     exists top,
       skipn (5 * g) out =
         [top;
          Z.land (nth (4 * g) ss 0) 255;
          if (1 <? r)%nat then Z.land (nth (4 * g + 1) ss 0) 255 else 0;
          if (2 <? r)%nat then Z.land (nth (4 * g + 2) ss 0) 255 else 0;
          0]).
Proof.
  intros Hm H16 Hc ss out.
  split; [|split; [|split; [|split]]].
  - rewrite convertWav_run by assumption.
    unfold wav_count, wav_values, wav_started, ten_bit.
    rewrite wav_mixed_16 by assumption.
    rewrite H16. reflexivity.
  - subst ss. now rewrite length_map, length_range.
  - subst ss. apply Forall_map, Forall_forall. intros i _.
    destruct Hc as (_ & Hch & _).
    pose proof (mix16_range bytes 64 i Hch ltac:(lia)). lia.
  - apply pack10_group.
  - apply pack10_last_group.
Qed.

Lemma convertWav_10bit_packing_witness :
  let bytes := wav_file 1 8000 2 16 12
                 (mk_bytes [0; 128; 1; 128; 2; 128; 255; 127; 0; 0; 255; 255]) in
  wav_magic bytes = true /\ wav_bitsPer bytes = 16 /\ wav_complete bytes /\
  convertWav 10 "snd" bytes world0 =
    (Return 1,
     written (HexTable_init 10 12 2) [3; 0; 0; 0; 255; 9; 0; 255; 0; 0]
       (World (wav_header "snd" 8000 6 10) ("WAV OK" ++ nl) [])).
Proof.
  cbv zeta.
  assert (Hm : wav_magic
                 (wav_file 1 8000 2 16 12
                    (mk_bytes [0; 128; 1; 128; 2; 128; 255; 127; 0; 0; 255; 255]))
               = true) by reflexivity.
  assert (H16 : wav_bitsPer
                  (wav_file 1 8000 2 16 12
                     (mk_bytes [0; 128; 1; 128; 2; 128; 255; 127; 0; 0; 255; 255]))
                = 16) by reflexivity.
  assert (Hc : wav_complete
                 (wav_file 1 8000 2 16 12
                    (mk_bytes [0; 128; 1; 128; 2; 128; 255; 127; 0; 0; 255; 255]))).
  { split; [|split].
    - vm_compute. discriminate.
    - vm_compute. discriminate.
    - intros _. vm_compute. split; discriminate. }
  split; [exact Hm|]. split; [exact H16|]. split; [exact Hc|].
  exact (proj1 (convertWav_10bit_packing "snd" _ world0 Hm H16 Hc)).
Defined.

(** ** Where the bitmap packer puts a pixel *)

(** The first byte a scan flushes holds the pending bits above the bits
    of its next pixels. *)
Lemma row_bytes_first (pixels : nat -> nat -> N) (y : nat) (xs : list nat) :
  forall bits sum,
    0 <= bits < 8 -> (0 < bits \/ xs <> []) ->
    let m := Z.min (8 - bits) (Z.of_nat (List.length xs)) in
    exists low,
      nth 0 (row_bytes pixels y xs bits sum) 0 = sum * 2 ^ m + low /\
      0 <= low < 2 ^ m.
Proof.
  induction xs as [|x xs IH]; intros bits sum Hb Hne; cbv zeta.
  - destruct Hne as [Hne|Hne]; [|contradiction].
    cbn [row_bytes]. destruct (Z.ltb_spec 0 bits); [|lia].
    exists 0. cbn [List.length]. rewrite Z.min_r by lia.
    cbn. lia.
  - cbn [row_bytes]. fold (pixel_bit pixels x y).
    assert (Hp : 0 <= pixel_bit pixels x y <= 1)
      by (unfold pixel_bit; destruct (0 <? pixels x y)%N; lia).
    rewrite Z.shiftl_mul_pow2 by lia. change (2 ^ 1) with 2.
    cbn [List.length]. rewrite Nat2Z.inj_succ.
    set (m := Z.min (8 - bits) (Z.succ (Z.of_nat (List.length xs)))).
    destruct (Z.leb_spec 8 (bits + 1)).
    + exists (pixel_bit pixels x y). cbn [nth].
      replace m with 1 by lia. change (2 ^ 1) with 2. lia.
    + destruct (IH (bits + 1) (sum * 2 + pixel_bit pixels x y)
                  ltac:(lia) ltac:(left; lia)) as (low & Hn & Hl).
      set (m' := Z.min (8 - (bits + 1)) (Z.of_nat (List.length xs))) in *.
      assert (Hm : m = m' + 1) by lia.
      assert (Hm' : 0 <= m') by lia.
      exists (pixel_bit pixels x y * 2 ^ m' + low).
      rewrite Hn, Hm, Z.pow_add_r by lia. change (2 ^ 1) with 2.
      split; [ring|nia].
Qed.

Lemma testbit_above_low (a low m : Z) :
  0 <= m -> 0 <= low < 2 ^ m ->
  Z.testbit (a * 2 ^ m + low) m = Z.odd a.
Proof.
  intros Hm Hl.
  rewrite <- (Z.add_0_l m) at 2. rewrite <- Z.div_pow2_bits by lia.
  rewrite Z.add_comm, Z.div_add, Z.div_small, Z.add_0_l by lia.
  apply Z.bit0_odd.
Qed.

Lemma odd_shift_bit (sum p : Z) : 0 <= p <= 1 -> Z.odd (sum * 2 + p) = (0 <? p).
Proof.
  intros Hp. assert (p = 0 \/ p = 1) as [-> | ->] by lia.
  - rewrite Z.add_0_r, Z.mul_comm. apply Z.odd_even.
  - rewrite Z.mul_comm. apply Z.odd_odd.
Qed.

(** Pixel [j] of a scan entered with [bits] pending bits lands in byte
    [(bits + j) / 8]; with [k] bits in that byte, it is bit
    [k - 1 - (bits + j) mod 8]. *)
Lemma row_bytes_bit (pixels : nat -> nat -> N) (y : nat) (xs : list nat) :
  forall bits sum j,
    0 <= bits < 8 -> (j < List.length xs)%nat ->
    let pos := bits + Z.of_nat j in
    let k := Z.min 8 (bits + Z.of_nat (List.length xs) - 8 * (pos / 8)) in
    Z.testbit (nth (Z.to_nat (pos / 8)) (row_bytes pixels y xs bits sum) 0)
              (k - 1 - pos mod 8) =
      (0 <? pixel_bit pixels (nth j xs O) y).
Proof.
  induction xs as [|x xs IH]; intros bits sum j Hb Hj; [cbn in Hj; lia|].
  cbn [List.length] in *. rewrite Nat2Z.inj_succ.
  assert (Hp : 0 <= pixel_bit pixels x y <= 1)
    by (unfold pixel_bit; destruct (0 <? pixels x y)%N; lia).
  cbn [row_bytes]. fold (pixel_bit pixels x y).
  rewrite Z.shiftl_mul_pow2 by lia. change (2 ^ 1) with 2.
  destruct j as [|j].
  - (* the pixel scanned first *)
    cbn [nth]. rewrite Z.add_0_r.
    rewrite (Z.div_small bits 8), (Z.mod_small bits 8) by lia.
    cbn [Z.to_nat]. rewrite Z.mul_0_r, Z.sub_0_r.
    destruct (Z.leb_spec 8 (bits + 1)).
    + cbn [nth]. replace (Z.min 8 _ - 1 - bits) with 0 by lia.
      rewrite Z.bit0_odd. now apply odd_shift_bit.
    + destruct (row_bytes_first pixels y xs (bits + 1)
                  (sum * 2 + pixel_bit pixels x y) ltac:(lia) ltac:(left; lia))
        as (low & Hn & Hl).
      rewrite Hn.
      replace (Z.min 8 (bits + Z.succ (Z.of_nat (List.length xs))) - 1 - bits)
        with (Z.min (8 - (bits + 1)) (Z.of_nat (List.length xs))) by lia.
      rewrite testbit_above_low by (try assumption; lia).
      now apply odd_shift_bit.
  - (* a later pixel *)
    cbn [nth]. rewrite Nat2Z.inj_succ.
    destruct (Z.leb_spec 8 (bits + 1)).
    + assert (bits = 7) by lia. subst bits.
      replace (7 + Z.succ (Z.of_nat j)) with (Z.of_nat j + 1 * 8) by lia.
      rewrite Z.div_add, Z.mod_add by lia.
      replace (Z.to_nat (Z.of_nat j / 8 + 1)) with (S (Z.to_nat (Z.of_nat j / 8)))
        by (pose proof (Z.div_pos (Z.of_nat j) 8 ltac:(lia) ltac:(lia)); lia).
      cbn [nth].
      specialize (IH 0 0 j ltac:(lia) ltac:(lia)). cbv zeta in IH.
      rewrite Z.add_0_l in IH. rewrite <- IH. do 2 f_equal. lia.
    + specialize (IH (bits + 1) (sum * 2 + pixel_bit pixels x y) j
                    ltac:(lia) ltac:(lia)).
      cbv zeta in IH.
      replace (bits + Z.succ (Z.of_nat j)) with (bits + 1 + Z.of_nat j) by lia.
      rewrite <- IH. do 2 f_equal. lia.
Qed.

(** Where the packer puts pixel [(x, y)]: in byte [x / 8] of scanline
    [y], at bit [k - 1 - x mod 8], where [k] is the number of pixels the
    byte holds: 8, or less in the byte that pads the scanline. *)
Lemma bitmap_bytes_bit (width height : nat) (pixels : nat -> nat -> N)
    (x y : nat) :
  (x < width)%nat -> (y < height)%nat ->
  let k := Z.min 8 (Z.of_nat width - 8 * (Z.of_nat x / 8)) in
  Z.testbit
    (nth (y * ((width + 7) / 8) + x / 8)%nat (bitmap_bytes width height pixels) 0)
    (k - 1 - Z.of_nat (x mod 8)) =
    (0 <? pixels x y)%N.
Proof.
  intros Hx Hy k. unfold bitmap_bytes.
  assert (Hlen : forall y', List.length (row_bytes pixels y' (seq 0 width) 0 0)
                            = ((width + 7) / 8)%nat).
  { intros y'.
    pose proof (row_bytes_length pixels y' (seq 0 width) 0 0 ltac:(lia)) as H.
    rewrite length_seq, Z.add_0_l in H.
    apply Nat2Z.inj. rewrite H, Nat2Z.inj_div, Nat2Z.inj_add. reflexivity. }
  rewrite nth_flat_map_block with (m := ((width + 7) / 8)%nat) (dx := O).
  - rewrite seq_nth by assumption. cbn [Nat.add].
    pose proof (row_bytes_bit pixels y (seq 0 width) 0 0 x ltac:(lia)
                  ltac:(now rewrite length_seq)) as H.
    cbv zeta in H. rewrite length_seq, !Z.add_0_l, seq_nth in H by assumption.
    cbn [Nat.add] in H.
    rewrite Nat2Z.inj_mod. change (Z.of_nat 8) with 8.
    replace (Z.to_nat (Z.of_nat x / 8)) with (x / 8)%nat in H
      by (apply Nat2Z.inj; rewrite Nat2Z.inj_div, Z2Nat.id;
          [reflexivity | apply Z.div_pos; lia]).
    subst k. rewrite H. unfold pixel_bit.
    destruct (0 <? pixels x y)%N; reflexivity.
  - exact Hlen.
  - now rewrite length_seq.
  - apply Nat2Z.inj_lt. rewrite !Nat2Z.inj_div, Nat2Z.inj_add.
    change (Z.of_nat 8) with 8. change (Z.of_nat 7) with 7.
    Z.to_euclidean_division_equations; lia.
Qed.

(** The part of C1 that holds: a pixel in a byte of eight pixels is
    recovered by unpacking most significant bit first; so is every pixel
    when the width is a multiple of 8. *)
Lemma unpack_msb_full_byte (width height : nat) (pixels : nat -> nat -> N)
    (x y : nat) :
  (8 * (x / 8) + 8 <= width)%nat -> (y < height)%nat ->
  unpack_msb (bitmap_bytes width height pixels) width x y = (0 <? pixels x y)%N.
Proof.
  intros Hx Hy. unfold unpack_msb.
  pose proof (Nat.div_mod_eq x 8) as Hd.
  pose proof (Nat.mod_upper_bound x 8 ltac:(lia)) as Hm.
  rewrite <- (bitmap_bytes_bit width height pixels x y ltac:(lia) Hy).
  f_equal.
  assert (Z.of_nat x / 8 = Z.of_nat (x / 8))
    by (now rewrite Nat2Z.inj_div).
  lia.
Qed.

(** In the byte that pads a scanline the pixels sit in the low bits: the
    last pixel of the scanline is bit 0. *)
Lemma bitmap_partial_byte_low_aligned (width height : nat)
    (pixels : nat -> nat -> N) (y : nat) :
  (0 < width)%nat -> (y < height)%nat ->
  Z.testbit
    (nth (y * ((width + 7) / 8) + (width - 1) / 8)%nat
         (bitmap_bytes width height pixels) 0) 0 =
    (0 <? pixels (width - 1)%nat y)%N.
Proof.
  intros Hw Hy.
  rewrite <- (bitmap_bytes_bit width height pixels (width - 1) y ltac:(lia) Hy).
  f_equal.
  rewrite Nat2Z.inj_mod. change (Z.of_nat 8) with 8.
  replace (Z.of_nat (width - 1)) with (Z.of_nat width - 1) by lia.
  Z.to_euclidean_division_equations; lia.
Qed.

(** * Further properties of the code *)

(** ** The formatter: the cap *)

Lemma render_no_cap (ns : list Z) :
  forall h,
    hexCounter h + Z.of_nat (List.length ns) < hexLimit h ->
    render h ns = elements_text h ns.
Proof.
  induction ns as [|n ns IH]; intros h Hlim; [reflexivity|].
  cbn [render elements_text List.length] in *.
  unfold write_text, write_cap. rewrite !append_assoc.
  do 3 f_equal.
  destruct (Z.leb_spec (hexLimit h) (hexCounter h + 1)); [lia|].
  cbn [append]. apply IH.
  unfold write_state. cbn [hexLimit hexCounter]. lia.
Qed.

(** X1: A table declared with [count] elements prints the closing brace with
    the write that reaches [count], not before: fewer writes leave the
    array open, [count] writes end it with the cap. *)
Theorem write_all_cap_at_count (count columns digits : Z) (ns : list Z)
    (w : world) :
  let t := HexTable_init count columns digits in
  let out := stdout (snd (write_all ns t w)) in
  string_forall not_brace (elements_text t ns) = true /\
  (Z.of_nat (List.length ns) < count -> out = stdout w ++ elements_text t ns) /\
  (ns <> [] -> Z.of_nat (List.length ns) = count ->
   out = stdout w ++ elements_text t ns ++ " };" ++ nl ++ nl).
Proof.
  intros t out. subst out. rewrite write_all_run. cbn [snd written stdout].
  split; [apply elements_text_no_brace|]. split.
  - intros Hlt. f_equal. apply render_no_cap. subst t. cbn. lia.
  - intros Hne Hlen. f_equal. apply render_cap_end; [assumption|].
    subst t. cbn. lia.
Qed.

Lemma write_all_cap_at_count_witness :
  stdout (snd (write_all [1; 2] (HexTable_init 3 12 2) world0)) =
    nl ++ "  0x01, 0x02" /\
  stdout (snd (write_all [1; 2; 3] (HexTable_init 3 12 2) world0)) =
    nl ++ "  0x01, 0x02, 0x03 };" ++ nl ++ nl.
Proof.
  split.
  - apply (proj1 (proj2 (write_all_cap_at_count 3 12 2 [1; 2] world0))).
    cbn. lia.
  - apply (proj2 (proj2 (write_all_cap_at_count 3 12 2 [1; 2; 3] world0)));
      [discriminate | reflexivity].
Defined.

(** ** The formatter: reading an element back *)

Lemma digit_value_hex_digit (d : Z) :
  0 <= d < 16 -> digit_value (hex_digit d) = d.
Proof.
  intros Hd.
  assert (H : d = 0 \/ d = 1 \/ d = 2 \/ d = 3 \/ d = 4 \/ d = 5 \/ d = 6 \/
              d = 7 \/ d = 8 \/ d = 9 \/ d = 10 \/ d = 11 \/ d = 12 \/
              d = 13 \/ d = 14 \/ d = 15) by lia.
  repeat (destruct H as [->|H]; [reflexivity|]). subst d. reflexivity.
Qed.

Lemma hex_value_from_zeros (k : nat) (s : string) :
  forall acc,
    hex_value_from acc (zeros k ++ s) = hex_value_from (acc * 16 ^ Z.of_nat k) s.
Proof.
  induction k as [|k IH]; intros acc.
  - cbn [zeros append]. f_equal. change (16 ^ Z.of_nat 0) with 1. lia.
  - cbn [zeros append hex_value_from]. rewrite IH. f_equal.
    change (digit_value "0") with 0.
    rewrite Nat2Z.inj_succ, Z.pow_succ_r by lia. ring.
Qed.

(** Reading [k] digits of [n], most significant first, gives [n mod 16^k]. *)
Lemma hex_value_from_digits (n : Z) (k : nat) :
  forall acc,
    hex_value_from acc
      (string_of_list_ascii
         (map (fun i => hex_digit ((n / 16 ^ Z.of_nat i) mod 16))
              (rev (seq 0 k)))) =
      acc * 16 ^ Z.of_nat k + n mod 16 ^ Z.of_nat k.
Proof.
  induction k as [|k IH]; intros acc.
  - cbn. rewrite Z.mod_1_r. lia.
  - rewrite seq_S, rev_app_distr. cbn [rev app map string_of_list_ascii
                                          hex_value_from Nat.add].
    rewrite IH, digit_value_hex_digit by (apply Z.mod_pos_bound; lia).
    rewrite Nat2Z.inj_succ, Z.pow_succ_r by lia.
    rewrite (Z.mul_comm 16 (16 ^ Z.of_nat k)).
    rewrite (Z.rem_mul_r n (16 ^ Z.of_nat k) 16) by lia.
    ring.
Qed.

(** [hex_ndigits n] digits are enough for [n]. *)
Lemma lt_pow_hex_ndigits (n : Z) :
  0 <= n -> n < 16 ^ Z.of_nat (hex_ndigits n).
Proof.
  intros Hn. unfold hex_ndigits.
  pose proof (Z.log2_nonneg n) as Hl.
  assert (Hq : 0 <= Z.log2 n / 4) by (apply Z.div_pos; lia).
  rewrite Nat2Z.inj_succ, Z2Nat.id by lia.
  change 16 with (2 ^ 4). rewrite <- Z.pow_mul_r by lia.
  destruct (Z.eq_dec n 0) as [->|Hz].
  - apply Z.pow_pos_nonneg; lia.
  - destruct (Z.log2_spec n ltac:(lia)) as [_ Hu].
    eapply Z.lt_le_trans; [exact Hu|].
    apply Z.pow_le_mono_r; [lia|].
    Z.to_euclidean_division_equations; lia.
Qed.

Lemma format_hex_reads_back (n width : Z) :
  0 <= n ->
  exists ds,
    format_hex n width = "0x" ++ ds /\
    string_forall is_hex_digit ds = true /\
    hex_value ds = n.
Proof.
  intros Hn. unfold format_hex.
  destruct (Z.ltb_spec n 0); [lia|]. rewrite Z.abs_eq by lia.
  eexists. split; [reflexivity|]. split.
  - now rewrite string_forall_app, zeros_digits, hex_of_digits.
  - unfold hex_value. rewrite hex_value_from_zeros. unfold hex_of.
    rewrite hex_value_from_digits, Z.mul_0_l, Z.add_0_l.
    apply Z.mod_small. split; [lia | now apply lt_pow_hex_ndigits].
Qed.

(** X2: An element reads back as the value written: for [n >= 0], [write]
    prints, between the separator and the cap, [0x] followed by
    hexadecimal digits that denote [n], whatever the digit count of the
    table. *)
Theorem write_reads_back (h : HexTable) (n : Z) (w : world) :
  0 <= n ->
  exists ds,
    stdout (snd (write h n w)) =
      stdout w ++ write_sep h ++ write_wrap h ++ ("0x" ++ ds) ++ write_cap h /\
    string_forall is_hex_digit ds = true /\
    hex_value ds = n.
Proof.
  intros Hn.
  destruct (format_hex_reads_back n (hexDigits h + 2) Hn) as (ds & Hf & Hd & Hv).
  exists ds. rewrite write_run. cbn [snd written stdout render].
  unfold write_text. rewrite Hf, append_nil_r.
  repeat split; assumption || reflexivity.
Qed.

Lemma write_reads_back_witness :
  exists ds,
    stdout (snd (write (HexTable_init 1 12 2) 2748 world0)) =
      stdout world0 ++ write_sep (HexTable_init 1 12 2) ++
      write_wrap (HexTable_init 1 12 2) ++ ("0x" ++ ds) ++
      write_cap (HexTable_init 1 12 2) /\
    string_forall is_hex_digit ds = true /\
    hex_value ds = 2748.
Proof.
  apply (write_reads_back (HexTable_init 1 12 2) 2748 world0). lia.
Defined.

(** ** Images: the array is closed *)

(** Writing as many values as a fresh table declares prints the elements
    and, unless there is none, the cap. *)
Lemma render_declared (count columns digits : Z) (ns : list Z) :
  Z.of_nat (List.length ns) = count ->
  render (HexTable_init count columns digits) ns =
    elements_text (HexTable_init count columns digits) ns ++
    (if 0 <? count then " };" ++ nl ++ nl else "").
Proof.
  intros Hlen. destruct ns as [|n ns].
  - cbn in Hlen. subst count. reflexivity.
  - destruct (Z.ltb_spec 0 count); [|cbn [List.length] in Hlen; lia].
    apply render_cap_end; [discriminate|]. cbn [HexTable_init hexLimit hexCounter].
    lia.
Qed.

(** X3: The bitmap packer hands [ceil(width / 8) * height] bytes to a table
    declared with as many elements: the output is the two [#define]
    lines, the opening of the array, the elements and, at the very end,
    the cap.  An image without pixels gets no element and no cap: its
    array is left open. *)
Theorem convertImage_bitmap_closes_array (prefix : string)
    (width height : nat) (pixels : nat -> nat -> N) (w : world) :
  let count := ((Z.of_nat width + 7) / 8) * Z.of_nat height in
  let t := HexTable_init count 12 2 in
  exists vs,
    convertImage prefix (Some (Bitmap width height pixels)) w =
      (Return 0,
       World (stdout w ++
              ("#define " ++ prefix ++ "Width  " ++ dec (Z.of_nat width) ++ nl ++
               "#define " ++ prefix ++ "Height " ++ dec (Z.of_nat height) ++ nl ++
               "const uint8_t PROGMEM " ++ prefix ++ "Bitmap[] = {") ++
              elements_text t vs ++
              (if 0 <? count then " };" ++ nl ++ nl else ""))
             (stderr w ++ "Image OK" ++ nl) (hexlog w ++ vs)) /\
    Z.of_nat (List.length vs) = count /\
    string_forall not_brace (elements_text t vs) = true.
Proof.
  intros count t. exists (bitmap_bytes width height pixels).
  pose proof (bitmap_bytes_length width height pixels) as Hlen.
  split; [|split; [exact Hlen | apply elements_text_no_brace]].
  rewrite convertImage_bitmap_run. unfold written. cbn [stdout stderr hexlog].
  fold count. rewrite (render_declared count 12 2 _ Hlen).
  fold t. now rewrite !append_assoc.
Qed.

(** X4: The colour quantizer hands [width * height] values to a table
    declared with as many elements: the output is the [#define] line, the
    opening of the array, the elements and, at the very end, the cap.  An
    image without pixels gets no element and no cap. *)
Theorem convertImage_colour_closes_array (prefix : string)
    (width height : nat) (pixels : nat -> nat -> byte * byte * byte)
    (w : world) :
  let count := Z.of_nat width * Z.of_nat height in
  let t := HexTable_init count 9 4 in
  exists vs,
    convertImage prefix (Some (Colour width height pixels)) w =
      (Return 1,
       World (stdout w ++
              ("#define " ++ prefix ++ "FPS 30" ++ nl ++
               "const uint16_t PROGMEM " ++ prefix ++ "PixelData[] = {") ++
              elements_text t vs ++
              (if 0 <? count then " };" ++ nl ++ nl else ""))
             (stderr w ++ "Image OK" ++ nl) (hexlog w ++ vs)) /\
    Z.of_nat (List.length vs) = count /\
    string_forall not_brace (elements_text t vs) = true.
Proof.
  intros count t. exists (colour_values width height pixels).
  assert (Hlen : Z.of_nat (List.length (colour_values width height pixels)) = count).
  { unfold colour_values.
    rewrite length_flat_map_block with (m := height)
      by (intros; now rewrite length_map, length_seq).
    rewrite length_seq. subst count. lia. }
  split; [|split; [exact Hlen | apply elements_text_no_brace]].
  rewrite convertImage_colour_run. unfold written. cbn [stdout stderr hexlog].
  fold count. rewrite (render_declared count 9 4 _ Hlen).
  fold t. now rewrite !append_assoc.
Qed.

(** ** The bitmap packer: where a pixel goes *)

(** X5: Pixel [(x, y)] of a bitmap goes to byte [y * ceil(width / 8) + x / 8]
    of the array: scanlines never share a byte.  It is bit
    [k - 1 - x mod 8] there, [k] being the number of pixels the byte
    holds: 8, or [width mod 8] in the byte that pads a scanline. *)
Theorem convertImage_bitmap_pixel_bit (prefix : string)
    (width height : nat) (pixels : nat -> nat -> N) (w : world) (x y : nat) :
  (x < width)%nat -> (y < height)%nat ->
  exists vs,
    hexlog (snd (convertImage prefix (Some (Bitmap width height pixels)) w)) =
      (hexlog w ++ vs)%list /\
    let k := Z.min 8 (Z.of_nat width - 8 * (Z.of_nat x / 8)) in
    Z.testbit (nth (y * ((width + 7) / 8) + x / 8)%nat vs 0)
              (k - 1 - Z.of_nat (x mod 8)) =
      (0 <? pixels x y)%N.
Proof.
  intros Hx Hy. exists (bitmap_bytes width height pixels). split.
  - now rewrite convertImage_bitmap_run.
  - now apply bitmap_bytes_bit.
Qed.

Lemma convertImage_bitmap_pixel_bit_witness :
  exists vs,
    hexlog (snd (convertImage "img"
                   (Some (Bitmap 10 2 (fun x y => if Nat.even (x + y)
                                                  then 255%N else 0%N)))
                   world0)) = ([] ++ vs)%list /\
    Z.testbit (nth (1 * ((10 + 7) / 8) + 9 / 8)%nat vs 0) 0 = true.
Proof.
  apply (convertImage_bitmap_pixel_bit "img" 10 2
           (fun x y => if Nat.even (x + y) then 255%N else 0%N) world0 9 1);
    lia.
Defined.

(** X6: When the width is a multiple of 8, unpacking the array most
    significant bit first, scanline by scanline, gives back every pixel. *)
Theorem convertImage_bitmap_unpacks (prefix : string)
    (width height : nat) (pixels : nat -> nat -> N) (w : world) (x y : nat) :
  (width mod 8 = 0)%nat -> (x < width)%nat -> (y < height)%nat ->
  exists vs,
    hexlog (snd (convertImage prefix (Some (Bitmap width height pixels)) w)) =
      (hexlog w ++ vs)%list /\
    unpack_msb vs width x y = (0 <? pixels x y)%N.
Proof.
  intros Hw Hx Hy. exists (bitmap_bytes width height pixels). split.
  - now rewrite convertImage_bitmap_run.
  - apply unpack_msb_full_byte; [|assumption].
    pose proof (Nat.div_mod_eq width 8) as Hd. rewrite Hw in Hd.
    assert (x / 8 < width / 8)%nat
      by (apply Nat.Div0.div_lt_upper_bound; lia).
    lia.
Qed.

Lemma convertImage_bitmap_unpacks_witness :
  exists vs,
    hexlog (snd (convertImage "img"
                   (Some (Bitmap 16 2 (fun x y => if Nat.even (x + y)
                                                  then 255%N else 0%N)))
                   world0)) = ([] ++ vs)%list /\
    unpack_msb vs 16 11 1 = true.
Proof.
  apply (convertImage_bitmap_unpacks "img" 16 2
           (fun x y => if Nat.even (x + y) then 255%N else 0%N) world0 11 1);
    [reflexivity | lia | lia].
Defined.

(** ** The colour quantizer: the fields of a value *)

Lemma lor_disjoint (a b n : Z) :
  0 <= n -> 0 <= b < 2 ^ n -> Z.lor (a * 2 ^ n) b = a * 2 ^ n + b.
Proof.
  intros Hn Hb.
  assert (H0 : Z.land (a * 2 ^ n) b = 0).
  { destruct (Z.eq_dec b 0) as [->|Hz]; [apply Z.land_0_r|].
    apply Z.bits_inj'. intros m Hm.
    rewrite Z.land_spec, Z.bits_0.
    destruct (Z.lt_ge_cases m n).
    - now rewrite Z.mul_pow2_bits_low.
    - rewrite (Z.bits_above_log2 b m), andb_false_r; [reflexivity | lia|].
      apply Z.lt_le_trans with n; [|assumption].
      apply Z.log2_lt_pow2; lia. }
  pose proof (Z.add_lor_land (a * 2 ^ n) b). lia.
Qed.

(** A packed value is its three fields side by side. *)
Lemma rgb565_fields (r g b : byte) :
  rgb565 (r, g, b) =
    (byte_val r / 8) * 2048 + (byte_val g / 4) * 32 + byte_val b / 8.
Proof.
  unfold rgb565.
  assert (Hr : Z.shiftl (Z.land (byte_val r) 248) 8 = (byte_val r / 8) * 2 ^ 11)
    by (destruct r; vm_compute; reflexivity).
  assert (Hg : Z.shiftl (Z.land (byte_val g) 252) 3 = (byte_val g / 4) * 2 ^ 5)
    by (destruct g; vm_compute; reflexivity).
  pose proof (byte_val_range g) as Rg. pose proof (byte_val_range b) as Rb.
  rewrite Hr, Hg, Z.shiftr_div_pow2 by lia. change (2 ^ 3) with 8.
  assert (Bg : 0 <= byte_val g / 4 * 2 ^ 5 < 2 ^ 11)
    by (change (2 ^ 5) with 32; change (2 ^ 11) with 2048;
        Z.to_euclidean_division_equations; lia).
  assert (Bb : 0 <= byte_val b / 8 < 2 ^ 5)
    by (change (2 ^ 5) with 32; Z.to_euclidean_division_equations; lia).
  rewrite (lor_disjoint (byte_val r / 8) _ 11 ltac:(lia) Bg).
  replace (byte_val r / 8 * 2 ^ 11 + byte_val g / 4 * 2 ^ 5)
    with ((byte_val r / 8 * 64 + byte_val g / 4) * 2 ^ 5)
    by (change (2 ^ 5) with 32; change (2 ^ 11) with 2048; lia).
  rewrite (lor_disjoint _ _ 5 ltac:(lia) Bb).
  change (2 ^ 5) with 32. lia.
Qed.

Lemma colour_values_nth (width height : nat)
    (pixels : nat -> nat -> byte * byte * byte) (x y : nat) :
  (x < width)%nat -> (y < height)%nat ->
  nth (x * height + y) (colour_values width height pixels) 0 =
    rgb565 (pixels x y).
Proof.
  intros Hx Hy. unfold colour_values.
  rewrite nth_flat_map_block with (m := height) (dx := O).
  - rewrite seq_nth by assumption. cbn [Nat.add].
    rewrite nth_indep with (d' := rgb565 (pixels x O))
      by (rewrite length_map, length_seq; assumption).
    rewrite (map_nth (fun y => rgb565 (pixels x y))).
    now rewrite seq_nth by assumption.
  - intros. now rewrite length_map, length_seq.
  - now rewrite length_seq.
  - assumption.
Qed.

(** X7: The value written for pixel [(x, y)] holds the top five bits of red
    in bits 11..15, the top six bits of green in bits 5..10 and the top
    five bits of blue in bits 0..4: the fields do not overlap, and each
    channel is recovered from its field to within 7 (red, blue) or 3
    (green). *)
Theorem convertImage_colour_fields (prefix : string) (width height : nat)
    (pixels : nat -> nat -> byte * byte * byte) (w : world) (x y : nat) :
  (x < width)%nat -> (y < height)%nat ->
  exists vs,
    hexlog (snd (convertImage prefix (Some (Colour width height pixels)) w)) =
      (hexlog w ++ vs)%list /\
    let v := nth (x * height + y) vs 0 in
    let '(r, g, b) := pixels x y in
    Z.shiftr v 11 = byte_val r / 8 /\
    Z.land (Z.shiftr v 5) 63 = byte_val g / 4 /\
    Z.land v 31 = byte_val b / 8 /\
    0 <= byte_val r - 8 * Z.shiftr v 11 <= 7 /\
    0 <= byte_val g - 4 * Z.land (Z.shiftr v 5) 63 <= 3 /\
    0 <= byte_val b - 8 * Z.land v 31 <= 7.
Proof.
  intros Hx Hy. exists (colour_values width height pixels). split.
  - now rewrite convertImage_colour_run.
  - cbv zeta. rewrite colour_values_nth by assumption.
    destruct (pixels x y) as [[r g] b]. rewrite rgb565_fields.
    pose proof (byte_val_range r). pose proof (byte_val_range g).
    pose proof (byte_val_range b).
    rewrite !Z.shiftr_div_pow2 by lia.
    change 63 with (Z.ones 6). change 31 with (Z.ones 5).
    rewrite !Z.land_ones by lia.
    change (2 ^ 11) with 2048. change (2 ^ 5) with 32. change (2 ^ 6) with 64.
    Z.to_euclidean_division_equations; lia.
Qed.

Lemma convertImage_colour_fields_witness :
  exists vs,
    hexlog (snd (convertImage "img"
                   (Some (Colour 2 3 (fun x y =>
                      (mk_byte 200, mk_byte (Z.of_nat y * 100), mk_byte 77))))
                   world0)) = ([] ++ vs)%list /\
    let v := nth (1 * 3 + 2) vs 0 in
    Z.shiftr v 11 = 200 / 8 /\
    Z.land (Z.shiftr v 5) 63 = 200 / 4 /\
    Z.land v 31 = 77 / 8 /\
    0 <= 200 - 8 * Z.shiftr v 11 <= 7 /\
    0 <= 200 - 4 * Z.land (Z.shiftr v 5) 63 <= 3 /\
    0 <= 77 - 8 * Z.land v 31 <= 7.
Proof.
  apply (convertImage_colour_fields "img" 2 3
           (fun x y => (mk_byte 200, mk_byte (Z.of_nat y * 100), mk_byte 77))
           world0 1 2); lia.
Defined.

(** ** uvalue *)

Lemma uvalue_fold (bytes : list byte) :
  forall i r,
    0 <= i ->
    snd (fold_left
           (fun (acc : Z * Z) b =>
              let '(i, result) := acc in
              (i + 1, result + Z.shiftl (byte_val b) (i * 8)))
           bytes (i, r)) =
      r + 2 ^ (8 * i) * uvalue bytes.
Proof.
  unfold uvalue. induction bytes as [|b bytes IH]; intros i r Hi.
  - cbn. lia.
  - cbn [fold_left]. rewrite IH by lia. rewrite (IH (0 + 1) _) by lia.
    rewrite !Z.shiftl_mul_pow2 by lia.
    replace (8 * (i + 1)) with (8 * i + 8) by lia.
    rewrite Z.pow_add_r by lia.
    change (2 ^ (0 * 8)) with 1. change (2 ^ (8 * (0 + 1))) with (2 ^ 8).
    replace (i * 8) with (8 * i) by lia. ring.
Qed.

Lemma uvalue_cons (b : byte) (bytes : list byte) :
  uvalue (b :: bytes) = byte_val b + 256 * uvalue bytes.
Proof.
  unfold uvalue at 1. cbn [fold_left]. rewrite uvalue_fold by lia.
  rewrite Z.shiftl_mul_pow2 by lia. change (2 ^ (0 * 8)) with 1.
  change (2 ^ (8 * (0 + 1))) with 256. lia.
Qed.

(** X8: [uvalue] reads its bytes least significant first: nothing gives 0,
    each further byte weighs 256 times the one before, and [k] bytes give
    a value below [256 ^ k]. *)
Theorem uvalue_little_endian :
  uvalue [] = 0 /\
  (forall b bytes, uvalue (b :: bytes) = byte_val b + 256 * uvalue bytes) /\
  (forall bytes b,
     uvalue (bytes ++ [b]) =
       uvalue bytes + byte_val b * 256 ^ Z.of_nat (List.length bytes)) /\
  (forall bytes, 0 <= uvalue bytes < 256 ^ Z.of_nat (List.length bytes)).
Proof.
  split; [reflexivity|]. split; [exact uvalue_cons|]. split.
  - induction bytes as [|c bytes IH]; intros b.
    + cbn [app List.length]. rewrite uvalue_cons. change (uvalue []) with 0.
      change (256 ^ Z.of_nat 0) with 1. lia.
    + cbn [app List.length]. rewrite !uvalue_cons, IH.
      rewrite Nat2Z.inj_succ, Z.pow_succ_r by lia. ring.
  - induction bytes as [|c bytes IH].
    + cbn. lia.
    + cbn [List.length]. rewrite uvalue_cons.
      rewrite Nat2Z.inj_succ, Z.pow_succ_r by lia.
      pose proof (byte_val_range c). lia.
Qed.

Lemma byte_val_inj (a b : byte) : byte_val a = byte_val b -> a = b.
Proof.
  unfold byte_val. intros H. apply N2Z.inj in H.
  pose proof (Byte.of_to_N a) as Ha. rewrite H, Byte.of_to_N in Ha.
  now injection Ha.
Qed.

(** X9: Two byte strings of the same length that [uvalue] reads as the same
    number are the same string. *)
Theorem uvalue_injective (a b : list byte) :
  List.length a = List.length b -> uvalue a = uvalue b -> a = b.
Proof.
  revert b. induction a as [|x a IH]; intros [|y b] Hlen Hv;
    try discriminate; [reflexivity|].
  rewrite !uvalue_cons in Hv.
  pose proof (byte_val_range x). pose proof (byte_val_range y).
  assert (byte_val x = byte_val y /\ uvalue a = uvalue b) as [Hb Hu] by lia.
  f_equal; [now apply byte_val_inj|].
  apply IH; [now injection Hlen | assumption].
Qed.

Lemma uvalue_injective_witness :
  List.length (mk_bytes [64; 31; 0; 0]) = List.length (le_bytes 4 8000) /\
  uvalue (mk_bytes [64; 31; 0; 0]) = uvalue (le_bytes 4 8000) /\
  mk_bytes [64; 31; 0; 0] = le_bytes 4 8000.
Proof.
  split; [reflexivity|]. split; [reflexivity|].
  apply (uvalue_injective (mk_bytes [64; 31; 0; 0]) (le_bytes 4 8000));
    reflexivity.
Defined.

(** ** 8-bit sources *)

Lemma wav_mixed_8 (reduce16 : Z) (bytes : list byte) :
  wav_bitsPer bytes = 8 ->
  wav_mixed reduce16 bytes = map (mix8 bytes) (range (wav_samples bytes)).
Proof.
  intros H8. unfold wav_mixed, wav_div, range.
  pose proof (uvalue_nonneg (slice bytes 22 24)) as Hc.
  fold (wav_channels bytes) in Hc.
  rewrite H8. cbn [Z.eqb Pos.eqb]. rewrite mixed_index.
  apply map_ext. intros i. unfold mix8, range.
  rewrite frame_sum_index. rewrite Z2Nat.id by lia.
  do 2 f_equal. apply map_ext. intros c.
  unfold channel_value. cbn [Z.eqb Pos.eqb].
  f_equal. change (sample_width 8) with 1. lia.
Qed.

(** X10: An 8-bit source yields, for each frame, the sum of its channel bytes
    divided by the channel count, rounded down, whatever the mode switch;
    a mono source yields its sample bytes unchanged. *)
Theorem convertWav_8bit_average (reduce16 : Z) (prefix : string)
    (bytes : list byte) (w : world) :
  wav_magic bytes = true -> wav_bitsPer bytes = 8 -> wav_complete bytes ->
  convertWav reduce16 prefix bytes w =
    (Return 1,
     written (HexTable_init (wav_samples bytes) 12 2)
       (map (mix8 bytes) (range (wav_samples bytes)))
       (World (stdout w ++
               wav_header prefix (wav_rate bytes) (wav_samples bytes) 8)
              (stderr w ++ "WAV OK" ++ nl) (hexlog w))) /\
  (wav_channels bytes = 1 ->
   map (mix8 bytes) (range (wav_samples bytes)) =
     map (fun i => byte_at bytes (data_start bytes + i))
         (range (wav_samples bytes))).
Proof.
  intros Hm H8 Hc. split.
  - rewrite convertWav_run by assumption.
    unfold wav_count, wav_values, wav_started, ten_bit.
    rewrite wav_mixed_8 by assumption.
    rewrite H8. reflexivity.
  - intros H1. apply map_ext. intros i. unfold mix8. rewrite H1.
    change (range 1) with [0]. cbn [map zsum fold_right].
    rewrite Z.div_1_r, Z.add_0_r. f_equal. lia.
Qed.

Lemma convertWav_8bit_average_witness :
  let bytes := wav_file 2 8000 2 8 4 (mk_bytes [10; 21; 255; 255]) in
  wav_magic bytes = true /\ wav_bitsPer bytes = 8 /\ wav_complete bytes /\
  convertWav 10 "snd" bytes world0 =
    (Return 1,
     written (HexTable_init 2 12 2) [15; 255]
       (World (wav_header "snd" 8000 2 8) ("WAV OK" ++ nl) [])).
Proof.
  cbv zeta.
  assert (Hm : wav_magic (wav_file 2 8000 2 8 4 (mk_bytes [10; 21; 255; 255]))
               = true) by reflexivity.
  assert (H8 : wav_bitsPer (wav_file 2 8000 2 8 4 (mk_bytes [10; 21; 255; 255]))
               = 8) by reflexivity.
  assert (Hc : wav_complete (wav_file 2 8000 2 8 4 (mk_bytes [10; 21; 255; 255]))).
  { split; [|split].
    - vm_compute. discriminate.
    - vm_compute. discriminate.
    - intros _. vm_compute. split; discriminate. }
  split; [exact Hm|]. split; [exact H8|]. split; [exact Hc|].
  exact (proj1 (convertWav_8bit_average 10 "snd" _ world0 Hm H8 Hc)).
Defined.

(** ** The mode switch *)

Lemma bind_cong {A B} (c1 c2 : M A) (k1 k2 : A -> M B) (w : world) :
  c1 w = c2 w -> (forall a w', k1 a w' = k2 a w') ->
  bind c1 k1 w = bind c2 k2 w.
Proof.
  intros Hc Hk. unfold bind. rewrite Hc.
  destruct (c2 w) as [[a|e] w']; [apply Hk | reflexivity].
Qed.

Lemma for_each_ext {A St} (body1 body2 : A -> St -> M St) (xs : list A) :
  (forall x s w, body1 x s w = body2 x s w) ->
  forall s w, for_each xs body1 s w = for_each xs body2 s w.
Proof.
  intros Hb. induction xs as [|x xs IH]; intros s w; cbn [for_each].
  - reflexivity.
  - apply bind_cong; [apply Hb | intros; apply IH].
Qed.

(** X11: The mode switch has no effect on a source that is not 16-bit: on
    every input, complete or not, the conversion in one mode is the
    conversion in any other. *)
Theorem convertWav_mode_only_for_16bit (r1 r2 : Z) (prefix : string)
    (bytes : list byte) (w : world) :
  wav_bitsPer bytes <> 16 ->
  convertWav r1 prefix bytes w = convertWav r2 prefix bytes w.
Proof.
  intros H16. apply Z.eqb_neq in H16.
  unfold convertWav, try_except.
  replace (convertWav_body r1 prefix bytes w)
    with (convertWav_body r2 prefix bytes w); [reflexivity|].
  unfold convertWav_body. rewrite H16. cbn [andb].
  apply bind_cong; [reflexivity|]. intros _ w1.
  apply bind_cong; [reflexivity|]. intros samples w2.
  apply bind_cong; [reflexivity|]. intros _ w3.
  apply bind_cong; [reflexivity|]. intros _ w4.
  apply bind_cong; [|reflexivity].
  apply for_each_ext. intros _ st w5.
  unfold wav_sample. rewrite H16. reflexivity.
Qed.

Lemma convertWav_mode_only_for_16bit_witness :
  convertWav 10 "snd" (wav_file 1 8000 1 8 3 (mk_bytes [0; 128; 255])) world0 =
  convertWav 8 "snd" (wav_file 1 8000 1 8 3 (mk_bytes [0; 128; 255])) world0.
Proof.
  apply (convertWav_mode_only_for_16bit 10 8 "snd"
           (wav_file 1 8000 1 8 3 (mk_bytes [0; 128; 255])) world0).
  vm_compute. discriminate.
Defined.

(** ** How a conversion fails *)

(** X12: A header that declares frames of zero bytes stops the conversion
    before anything is printed, on either stream: the sample count cannot
    be computed. *)
Theorem convertWav_zero_frame_size (reduce16 : Z) (prefix : string)
    (bytes : list byte) (w : world) :
  wav_magic bytes = true -> wav_bytesPer bytes = 0 ->
  convertWav reduce16 prefix bytes w = (Raise ZeroDivisionError, w).
Proof.
  intros Hm H0. unfold convertWav, try_except, convertWav_body.
  rewrite Hm. unfold assert. unfold bind at 1, ret at 1.
  unfold floordiv. rewrite H0. cbn [Z.eqb]. reflexivity.
Qed.

Lemma convertWav_zero_frame_size_witness :
  convertWav 8 "snd" (wav_file 1 8000 0 8 3 (mk_bytes [1; 2; 3])) world0 =
    (Raise ZeroDivisionError, world0).
Proof.
  apply (convertWav_zero_frame_size 8 "snd"
           (wav_file 1 8000 0 8 3 (mk_bytes [1; 2; 3])) world0);
    reflexivity.
Defined.

(** X13: A file that declares no sample is converted without any element: the
    result is 1 and the output stops after the opening brace of the
    array, which is never closed. *)
Theorem convertWav_no_samples (reduce16 : Z) (prefix : string)
    (bytes : list byte) (w : world) :
  wav_magic bytes = true -> wav_bytesPer bytes <> 0 -> wav_samples bytes = 0 ->
  convertWav reduce16 prefix bytes w =
    (Return 1,
     World (stdout w ++
            wav_header prefix (wav_rate bytes) 0
              (if ten_bit reduce16 bytes then 10 else 8))
           (stderr w ++ "WAV OK" ++ nl) (hexlog w)).
Proof.
  intros Hm Hbp Hs. unfold convertWav, try_except, convertWav_body.
  rewrite Hm. unfold assert. unfold bind at 1, ret at 1.
  unfold floordiv. destruct (Z.eqb_spec (wav_bytesPer bytes) 0); [contradiction|].
  unfold bind at 1, ret at 1. fold (wav_samples bytes). rewrite Hs.
  unfold bind at 1, stderr_write at 1.
  unfold bind at 1, stdout_write at 1.
  unfold ten_bit. change (range 0) with (@nil Z).
  destruct (wav_bitsPer bytes =? 16); [destruct (reduce16 =? 10)|];
    reflexivity.
Qed.

Lemma convertWav_no_samples_witness :
  convertWav 8 "snd" (wav_file 1 8000 1 8 0 []) world0 =
    (Return 1, World (wav_header "snd" 8000 0 8) ("WAV OK" ++ nl) []).
Proof.
  refine (convertWav_no_samples 8 "snd" (wav_file 1 8000 1 8 0 []) world0 _ _ _);
    vm_compute; congruence.
Defined.

Lemma for_each_raise_first {A St} (body : A -> St -> M St) (x : A)
    (xs : list A) (s : St) (w w' : world) (e : exn) :
  body x s w = (Raise e, w') -> for_each (x :: xs) body s w = (Raise e, w').
Proof. intros H. cbn [for_each]. unfold bind. now rewrite H. Qed.

(** With no channel every frame divides the empty sum by zero: the sample
    loop raises at its first turn and leaves the world as it was. *)
Lemma wav_no_channel_fails (reduce16 : Z) (bytes : list byte) (bitsPer n : Z)
    (st : wav_state) (w : world) :
  0 < n ->
  for_each (range n) (fun _ => wav_sample reduce16 bytes 0 bitsPer 0) st w =
    (Raise ZeroDivisionError, w).
Proof.
  intros Hn.
  assert (Hr : exists xs, range n = 0 :: xs).
  { unfold range. destruct (Z.to_nat n) as [|k] eqn:E; [lia|].
    cbn [seq map]. eexists. reflexivity. }
  destruct Hr as (xs & ->).
  apply for_each_raise_first.
  unfold wav_sample. change (range 0) with (@nil Z).
  cbn [for_each]. unfold bind at 1, ret at 1.
  destruct ((bitsPer =? 16) && (reduce16 =? 10)); reflexivity.
Qed.

(** X14: A header that declares samples but no channel stops the conversion
    at the first frame: the header of the array is printed, then the
    division of the empty sum by zero raises, and no element is written. *)
Theorem convertWav_zero_channels (reduce16 : Z) (prefix : string)
    (bytes : list byte) (w : world) :
  wav_magic bytes = true -> wav_bytesPer bytes <> 0 ->
  wav_channels bytes = 0 -> 0 < wav_samples bytes ->
  convertWav reduce16 prefix bytes w =
    (Raise ZeroDivisionError, wav_started reduce16 prefix bytes w).
Proof.
  intros Hm Hbp Hch Hs. unfold convertWav, try_except, convertWav_body.
  rewrite Hm. unfold assert. unfold bind at 1, ret at 1.
  unfold floordiv at 1.
  destruct (Z.eqb_spec (wav_bytesPer bytes) 0); [contradiction|].
  unfold bind at 1, ret at 1. fold (wav_samples bytes).
  unfold bind at 1, stderr_write at 1.
  unfold bind at 1, stdout_write at 1.
  unfold wav_started, ten_bit. cbn [stdout stderr hexlog].
  rewrite Hch. change (0 * 64) with 0. change (0 * 256) with 0.
  destruct (wav_bitsPer bytes =? 16); [destruct (reduce16 =? 10)|];
    unfold bind at 1; rewrite wav_no_channel_fails by assumption;
    reflexivity.
Qed.

Lemma convertWav_zero_channels_witness :
  convertWav 8 "snd" (wav_file 0 8000 1 8 3 (mk_bytes [1; 2; 3])) world0 =
    (Raise ZeroDivisionError,
     World (wav_header "snd" 8000 3 8) ("WAV OK" ++ nl) []).
Proof.
  refine (convertWav_zero_channels 8 "snd"
            (wav_file 0 8000 1 8 3 (mk_bytes [1; 2; 3])) world0 _ _ _ _);
    vm_compute; congruence.
Defined.

Lemma getitem_fails {A} (l : list A) (i : Z) (w : world) :
  Z.of_nat (List.length l) <= i -> getitem l i w = (Raise IndexError, w).
Proof.
  intros Hi. unfold getitem, py_index.
  destruct (Z.ltb_spec i 0); [lia|].
  destruct (Z.ltb_spec i (Z.of_nat (List.length l))); [lia|].
  now rewrite andb_false_r.
Qed.

Lemma bind_raise {A B} (c : M A) (k : A -> M B) (w w' : world) (e : exn) :
  c w = (Raise e, w') -> bind c k w = (Raise e, w').
Proof. intros H. unfold bind. now rewrite H. Qed.

(** Reading a sample that is not all there raises [IndexError]. *)
Lemma wav_channel_fails (bytes : list byte) (bitsPer sum pos : Z) (w : world) :
  sample_width bitsPer <> 0 -> 0 <= pos ->
  Z.of_nat (List.length bytes) < pos + sample_width bitsPer ->
  wav_channel bytes bitsPer (sum, pos) w = (Raise IndexError, w).
Proof.
  unfold wav_channel, sample_width. intros Hw Hp Hl.
  destruct (bitsPer =? 8).
  - apply bind_raise, getitem_fails. lia.
  - destruct (bitsPer =? 16); [|contradiction].
    destruct (Z_lt_le_dec pos (Z.of_nat (List.length bytes))).
    + destruct (getitem_byte bytes pos w ltac:(lia)) as (b0 & Hg & _).
      rewrite (bind_run _ _ _ _ _ Hg).
      apply bind_raise, getitem_fails. lia.
    + apply bind_raise, getitem_fails. lia.
Qed.

Lemma wav_channels_fail {A} (bytes : list byte) (bitsPer : Z) (xs : list A) :
  sample_width bitsPer <> 0 ->
  forall sum pos w,
    xs <> [] -> 0 <= pos ->
    Z.of_nat (List.length bytes) <
      pos + Z.of_nat (List.length xs) * sample_width bitsPer ->
    for_each xs (fun _ => wav_channel bytes bitsPer) (sum, pos) w =
      (Raise IndexError, w).
Proof.
  intros Hw. pose proof (sample_width_nonneg bitsPer) as Hn.
  induction xs as [|x xs IH]; intros sum pos w Hne Hp Hl; [contradiction|].
  cbn [List.length] in Hl. rewrite Nat2Z.inj_succ in Hl.
  destruct (Z_lt_le_dec (Z.of_nat (List.length bytes))
                        (pos + sample_width bitsPer)) as [Hshort|Hok].
  - apply for_each_raise_first. now apply wav_channel_fails.
  - cbn [for_each].
    rewrite (bind_run _ _ _ _ _
               (wav_channel_run bytes bitsPer sum pos w
                  ltac:(unfold readable; intros _; lia))).
    apply IH; [|lia|lia].
    intros ->. cbn [List.length] in Hl. lia.
Qed.

(** The sample loop on a file that is shorter than its header declares:
    the read of the first sample that is not there raises [IndexError]. *)
Lemma wav_loop_fails {A} (reduce16 : Z) (bytes : list byte)
    (channels bitsPer div : Z) (xs : list A) :
  1 <= channels -> div <> 0 -> sample_width bitsPer <> 0 ->
  forall st w,
    xs <> [] -> 0 <= index_in st ->
    Z.of_nat (List.length bytes) <
      index_in st +
        Z.of_nat (List.length xs) * (channels * sample_width bitsPer) ->
    List.length (buf st) = 5%nat -> 1 <= bufIdx st <= 4 ->
    fst (for_each xs (fun _ => wav_sample reduce16 bytes channels bitsPer div)
           st w) = Raise IndexError.
Proof.
  intros Hch Hd Hw. pose proof (sample_width_nonneg bitsPer) as Hn.
  induction xs as [|x xs IH]; intros st w Hne Hp Hl Hb Hi; [contradiction|].
  cbn [List.length] in Hl. rewrite Nat2Z.inj_succ in Hl.
  destruct (Z_lt_le_dec (Z.of_nat (List.length bytes))
                        (index_in st + channels * sample_width bitsPer))
    as [Hshort|Hok].
  - (* the frame is not all there *)
    erewrite for_each_raise_first; [reflexivity|].
    unfold wav_sample. apply bind_raise.
    apply wav_channels_fail; [assumption| |assumption|].
    + unfold range. destruct (Z.to_nat channels) eqn:E; [lia | discriminate].
    + rewrite length_range, Z2Nat.id by lia. assumption.
  - (* the frame is read, the loop goes on *)
    assert (Hr : readable bytes bitsPer (index_in st)
                   (Z.of_nat (Z.to_nat channels)))
      by (unfold readable; intros _; rewrite Z2Nat.id by lia; lia).
    assert (Hne' : xs <> [])
      by (intros ->; cbn [List.length] in Hl; lia).
    cbn [for_each].
    destruct ((bitsPer =? 16) && (reduce16 =? 10)) eqn:Hc.
    + rewrite (bind_run _ _ _ _ _
                 (wav_sample_run10 reduce16 bytes channels bitsPer div st w
                    Hc Hd Hr Hb Hi)).
      destruct (feed10_step_inv (buf st) (bufIdx st)
                  (frame_sum bytes bitsPer (index_in st) (Z.to_nat channels) / div)
                  Hb Hi) as [Hb' Hi'].
      apply IH; cbn [index_in buf bufIdx]; try assumption;
        rewrite ?Z2Nat.id by lia; nia.
    + rewrite (bind_run _ _ _ _ _
                 (wav_sample_run8 reduce16 bytes channels bitsPer div st w
                    Hc Hd Hr)).
      apply IH; cbn [index_in buf bufIdx]; try assumption;
        rewrite ?Z2Nat.id by lia; nia.
Qed.

(** A file that passes the magic check, declares at least one sample of
    8 or 16 bits in at least one channel, and is shorter than the sample
    data it declares makes the conversion raise [IndexError]. *)
Lemma wav_short_file_fails (reduce16 : Z) (prefix : string)
    (bytes : list byte) (w : world) :
  wav_magic bytes = true -> wav_bytesPer bytes <> 0 ->
  wav_channels bytes <> 0 -> 0 < wav_samples bytes ->
  sample_width (wav_bitsPer bytes) <> 0 ->
  Z.of_nat (List.length bytes) <
    data_start bytes +
      wav_samples bytes * wav_channels bytes * sample_width (wav_bitsPer bytes) ->
  fst (convertWav reduce16 prefix bytes w) = Raise IndexError.
Proof.
  intros Hm Hbp Hch Hs Hw Hl.
  pose proof (uvalue_nonneg (slice bytes 22 24)) as Hc.
  pose proof (uvalue_nonneg (slice bytes 16 20)) as Hk.
  fold (wav_channels bytes) in Hc. fold (wav_chunksize bytes) in Hk.
  assert (Hloop : forall div h w',
            div <> 0 ->
            fst (for_each (range (wav_samples bytes))
                   (fun _ => wav_sample reduce16 bytes (wav_channels bytes)
                               (wav_bitsPer bytes) div)
                   (mkWavState (data_start bytes) (repeat 0 5) 1 h) w')
              = Raise IndexError).
  { intros div h w' Hd. apply wav_loop_fails; try assumption; try lia.
    - unfold range. destruct (Z.to_nat (wav_samples bytes)) eqn:E;
        [lia | discriminate].
    - cbn [index_in]. unfold data_start. lia.
    - cbn [index_in]. rewrite length_range, Z2Nat.id by lia. lia.
    - reflexivity.
    - cbn [bufIdx]. lia. }
  unfold convertWav, try_except, convertWav_body.
  rewrite Hm. unfold assert. unfold bind at 1, ret at 1.
  unfold floordiv at 1.
  destruct (Z.eqb_spec (wav_bytesPer bytes) 0); [contradiction|].
  unfold bind at 1, ret at 1. fold (wav_samples bytes).
  unfold bind at 1, stderr_write at 1.
  unfold bind at 1, stdout_write at 1.
  fold (data_start bytes).
  destruct (wav_bitsPer bytes =? 16); [destruct (reduce16 =? 10)|];
    unfold bind at 1;
    match goal with
    | |- context [for_each ?xs (fun x => wav_sample ?r ?b ?c ?bp ?div) ?st ?w'] =>
        assert (Hd : div <> 0) by lia;
        pose proof (Hloop div (hex st) w' Hd) as H;
        cbn [hex] in H;
        destruct (for_each xs (fun x => wav_sample r b c bp div) st w')
          as [[st'|e] w'']; cbn [fst] in H;
        [discriminate | injection H as ->; reflexivity]
    end.
Qed.

(** X15: What a conversion that passes the magic check comes to, on every
    input: a frame size of zero raises [ZeroDivisionError]; otherwise a
    file that declares no sample succeeds; otherwise a channel count of
    zero raises [ZeroDivisionError]; otherwise a depth that is neither 8
    nor 16 succeeds; otherwise the conversion raises [IndexError] when
    the file is shorter than the samples it declares, and succeeds when
    it is not. *)
Theorem convertWav_result_by_header (reduce16 : Z) (prefix : string)
    (bytes : list byte) (w : world) :
  wav_magic bytes = true ->
  fst (convertWav reduce16 prefix bytes w) =
    if wav_bytesPer bytes =? 0 then Raise ZeroDivisionError
    else if wav_samples bytes =? 0 then Return 1
    else if wav_channels bytes =? 0 then Raise ZeroDivisionError
    else if sample_width (wav_bitsPer bytes) =? 0 then Return 1
    else if Z.of_nat (List.length bytes) <?
              data_start bytes +
                wav_samples bytes * wav_channels bytes *
                  sample_width (wav_bitsPer bytes)
         then Raise IndexError
         else Return 1.
Proof.
  intros Hm. pose proof (wav_samples_nonneg bytes) as Hs.
  pose proof (uvalue_nonneg (slice bytes 16 20)) as Hk.
  fold (wav_chunksize bytes) in Hk.
  assert (Hhead : wav_bytesPer bytes = 0 \/ wav_samples bytes = 0 \/
                  (wav_channels bytes = 0 /\ 0 < wav_samples bytes) ->
            fst (convertWav reduce16 prefix bytes w) =
              if wav_bytesPer bytes =? 0 then Raise ZeroDivisionError
              else if wav_samples bytes =? 0 then Return 1
              else Raise ZeroDivisionError).
  { intros Hcase.
    unfold convertWav, try_except, convertWav_body.
    rewrite Hm. unfold assert. unfold bind at 1, ret at 1.
    unfold floordiv at 1.
    destruct (Z.eqb_spec (wav_bytesPer bytes) 0) as [Hbp|Hbp]; [reflexivity|].
    unfold bind at 1, ret at 1. fold (wav_samples bytes).
    unfold bind at 1, stderr_write at 1.
    unfold bind at 1, stdout_write at 1.
    destruct (Z.eqb_spec (wav_samples bytes) 0) as [Hz|Hz].
    - rewrite Hz. change (range 0) with (@nil Z).
      destruct (wav_bitsPer bytes =? 16); [destruct (reduce16 =? 10)|];
        reflexivity.
    - destruct Hcase as [?|[?|[Hch Hpos]]]; [contradiction|contradiction|].
      rewrite Hch. change (0 * 64) with 0. change (0 * 256) with 0.
      destruct (wav_bitsPer bytes =? 16); [destruct (reduce16 =? 10)|];
        unfold bind at 1; rewrite wav_no_channel_fails by assumption;
        reflexivity. }
  destruct (Z.eqb_spec (wav_bytesPer bytes) 0) as [Hbp|Hbp].
  { apply Hhead. now left. }
  destruct (Z.eqb_spec (wav_samples bytes) 0) as [Hz|Hz].
  { apply Hhead. right. now left. }
  destruct (Z.eqb_spec (wav_channels bytes) 0) as [Hch|Hch].
  { apply Hhead. right. right. split; [assumption | lia]. }
  destruct (Z.eqb_spec (sample_width (wav_bitsPer bytes)) 0) as [Hw|Hw].
  { rewrite convertWav_run; [reflexivity | assumption|].
    split; [assumption|]. split; [assumption|].
    intros Hw'. contradiction. }
  destruct (Z.ltb_spec (Z.of_nat (List.length bytes))
              (data_start bytes +
                 wav_samples bytes * wav_channels bytes *
                   sample_width (wav_bitsPer bytes))) as [Hl|Hl].
  - apply wav_short_file_fails; assumption || lia.
  - rewrite convertWav_run; [reflexivity | assumption|].
    split; [assumption|]. split; [assumption|].
    intros _. split; [unfold data_start|]; lia.
Qed.

Lemma convertWav_result_by_header_witness :
  fst (convertWav 8 "snd" (wav_file 2 8000 4 16 8 (mk_bytes [0; 0; 0; 0; 0]))
         world0) = Raise IndexError.
Proof.
  exact (convertWav_result_by_header 8 "snd"
           (wav_file 2 8000 4 16 8 (mk_bytes [0; 0; 0; 0; 0])) world0 eq_refl).
Defined.

(** ** The main block *)

(** X16: The gamma tables are two arrays of 32 and of 64 elements, each
    closed by its cap, whatever the values are. *)
Theorem gamma_tables_run (gamma : Z -> Z -> Z) (w : world) :
  let g5 := map (gamma 31) (range 32) in
  let g6 := map (gamma 63) (range 64) in
  gamma_tables gamma w =
    (Return tt,
     World (stdout w ++
            "const uint8_t PROGMEM gamma5[] = {" ++
            elements_text (HexTable_init 32 12 2) g5 ++ (" };" ++ nl ++ nl) ++
            "const uint8_t PROGMEM gamma6[] = {" ++
            elements_text (HexTable_init 64 12 2) g6 ++ (" };" ++ nl ++ nl))
           (stderr w) (hexlog w ++ g5 ++ g6)) /\
  List.length g5 = 32%nat /\ List.length g6 = 64%nat.
Proof.
  intros g5 g6.
  assert (L5 : List.length g5 = 32%nat) by reflexivity.
  assert (L6 : List.length g6 = 64%nat) by reflexivity.
  split; [|split; assumption].
  unfold gamma_tables.
  unfold bind at 1, stdout_write at 1.
  unfold bind at 1. rewrite for_each_write. fold g5.
  unfold bind at 1, stdout_write at 1.
  unfold bind at 1. rewrite for_each_write. fold g6.
  unfold ret, written. cbn [stdout stderr hexlog].
  rewrite (render_declared 32 12 2 g5) by (rewrite L5; reflexivity).
  rewrite (render_declared 64 12 2 g6) by (rewrite L6; reflexivity).
  change (0 <? 32) with true. change (0 <? 64) with true. cbv iota.
  f_equal. f_equal.
  - now rewrite !append_assoc.
  - now rewrite app_assoc.
Qed.

Lemma for_each_app {A St} (body : A -> St -> M St) (xs ys : list A) :
  forall s w,
    for_each (xs ++ ys)%list body s w =
      (s' <- for_each xs body s ;; for_each ys body s') w.
Proof.
  induction xs as [|x xs IH]; intros s w; cbn [app for_each].
  - reflexivity.
  - unfold bind. destruct (body x s w) as [[s'|e] w']; [|reflexivity].
    rewrite IH. reflexivity.
Qed.

(** An argument that decodes as an image is converted as one and is not
    handed to [convertWav]; the flag is raised by a colour image. *)
Lemma main_arg_image (prefix : string) (im : image) (bytes : list byte)
    (reduce16 gammaFlag : Z) (w : world) :
  main_arg (ArgFile prefix (Some im) bytes) (reduce16, gammaFlag) w =
    (Return (reduce16,
             if is_colour_file (ArgFile prefix (Some im) bytes) then 1
             else gammaFlag),
     snd (convertImage prefix (Some im) w)).
Proof.
  unfold main_arg, bind. destruct im as [wd ht px | wd ht px].
  - rewrite convertImage_bitmap_run. reflexivity.
  - rewrite convertImage_colour_run. reflexivity.
Qed.

Lemma convertImage_undecoded (prefix : string) (w : world) :
  convertImage prefix None w =
    (Return (-1),
     World (stdout w) (stderr w ++ "Not an image file (?)" ++ nl) (hexlog w)).
Proof. reflexivity. Qed.

(** One turn of the argument loop that ends normally leaves the mode at
    the last switch seen and the flag raised once a colour image was
    seen. *)
Lemma main_arg_state (a : arg) (m g : Z) (w w1 : world) (st : Z * Z) :
  main_arg a (m, g) w = (Return st, w1) ->
  st = (mode_after m [a], if is_colour_file a then 1 else g).
Proof.
  destruct a as [| | p [im|] b].
  - cbn. intros H. now injection H as <- _.
  - cbn. intros H. now injection H as <- _.
  - rewrite main_arg_image. intros H. now injection H as <- _.
  - unfold main_arg, bind. rewrite convertImage_undecoded.
    change (-1 =? 1) with false. change (-1 =? -1) with true. cbv iota.
    cbv beta.
    match goal with
    | |- context [convertWav ?a ?b ?c ?d] =>
        destruct (convertWav a b c d) as [[r|e] w']; [|discriminate]
    end.
    unfold ret. intros H. now injection H as <- _.
Qed.

Lemma main_loop_state (args : list arg) :
  forall (m g : Z) (w w1 : world) (st : Z * Z),
    for_each args main_arg (m, g) w = (Return st, w1) ->
    st = (mode_after m args,
          if existsb is_colour_file args then 1
          else g).
Proof.
  induction args as [|a args IH]; intros m g w w1 st.
  - cbn. intros H. now injection H as <- _.
  - cbn [for_each]. unfold bind at 1.
    destruct (main_arg a (m, g) w) as [[st1|e] w'] eqn:Ha; [|discriminate].
    apply main_arg_state in Ha. subst st1. intros H.
    apply IH in H. subst st. cbn [existsb mode_after fold_left].
    unfold mode_after. destruct (is_colour_file a); cbn [orb]; [|reflexivity].
    now destruct (existsb is_colour_file args).
Qed.

(** X17: The mode a sound file is converted in is the one named by the last
    ['10'] or ['8'] before it on the command line, 8 when there is none:
    when the arguments before it are processed without an exception, a
    file that does not decode as an image is handed to [convertWav] in
    that mode, after the message of the image converter. *)
Theorem main_wav_mode (pre : list arg) (prefix : string) (bytes : list byte)
    (w w1 : world) (st : Z * Z) :
  for_each pre main_arg (8, 0) w = (Return st, w1) ->
  for_each (pre ++ [ArgFile prefix None bytes])%list main_arg (8, 0) w =
    (convertWav (mode_after 8 pre) prefix bytes ;; ret st)
      (World (stdout w1) (stderr w1 ++ "Not an image file (?)" ++ nl)
         (hexlog w1)).
Proof.
  intros H. pose proof (main_loop_state pre 8 0 w w1 st H) as Hst.
  rewrite for_each_app. unfold bind at 1. rewrite H.
  cbn [for_each]. rewrite Hst. unfold main_arg.
  unfold bind at 1 2. rewrite convertImage_undecoded.
  change (-1 =? 1) with false. change (-1 =? -1) with true. cbv iota.
  unfold bind.
  cbv beta.
  match goal with
  | |- context [convertWav ?a ?b ?c ?d] =>
      destruct (convertWav a b c d) as [[r|e] w']; reflexivity
  end.
Qed.

Lemma main_wav_mode_witness :
  let bytes := wav_file 1 8000 2 16 8 (mk_bytes [0; 0; 0; 64; 0; 128; 0; 192]) in
  for_each [Arg10; ArgFile "snd" None bytes] main_arg (8, 0) world0 =
    (convertWav 10 "snd" bytes ;; ret (10, 0))
      (World "" ("Not an image file (?)" ++ nl) []).
Proof.
  exact (main_wav_mode [Arg10] "snd"
           (wav_file 1 8000 2 16 8 (mk_bytes [0; 0; 0; 64; 0; 128; 0; 192]))
           world0 world0 (10, 0) eq_refl).
Defined.

(** X18: A command line of images and mode switches only never fails: every
    image is converted in order, the switches print nothing, and the
    gamma tables follow exactly when one of the images is a colour
    image. *)
Theorem main_images_only (gamma : Z -> Z -> Z) (args : list arg) (w : world) :
  forallb is_image_arg args = true ->
  main gamma args w =
    if existsb is_colour_file args
    then gamma_tables gamma (after_images args w)
    else (Return tt, after_images args w).
Proof.
  intros Hall.
  assert (Hloop : forall m g w0,
            exists st,
              for_each args main_arg (m, g) w0 =
                (Return st, after_images args w0)).
  { clear w. induction args as [|a args IH]; intros m g w0.
    - eexists. reflexivity.
    - cbn [forallb] in Hall. apply andb_prop in Hall as [Ha Hall].
      cbn [for_each]. unfold bind at 1.
      destruct a as [| | p [im|] b]; try discriminate.
      + destruct (IH Hall 10 g w0) as (st & Hst). exists st. exact Hst.
      + destruct (IH Hall 8 g w0) as (st & Hst). exists st. exact Hst.
      + rewrite main_arg_image.
        destruct (IH Hall m
                    (if is_colour_file (ArgFile p (Some im) b) then 1 else g)
                    (snd (convertImage p (Some im) w0))) as (st & Hst).
        exists st. exact Hst. }
  destruct (Hloop 8 0 w) as (st & Hst).
  pose proof (main_loop_state args 8 0 w _ st Hst) as E.
  unfold main, bind. rewrite Hst. rewrite E. cbn [snd].
  destruct (existsb is_colour_file args); reflexivity.
Qed.

Lemma main_images_only_witness :
  let args :=
    [Arg10;
     ArgFile "img" (Some (Colour 1 1 (fun _ _ => (x00, x00, x00)%byte))) []] in
  main (fun _ i => i) args world0 =
    if existsb is_colour_file args
    then gamma_tables (fun _ i => i) (after_images args world0)
    else (Return tt, after_images args world0).
Proof.
  intros args. exact (main_images_only (fun _ i => i) args world0 eq_refl).
Defined.

(** X19: An exception that escapes [convertWav] ends the whole run: the
    arguments after the file are not processed and the gamma tables are
    not printed, whatever was converted before. *)
Theorem main_stops_at_exception (gamma : Z -> Z -> Z) (pre post : list arg)
    (prefix : string) (bytes : list byte) (w w1 : world) (st : Z * Z)
    (e : exn) :
  for_each pre main_arg (8, 0) w = (Return st, w1) ->
  fst (convertWav (fst st) prefix bytes
         (World (stdout w1) (stderr w1 ++ "Not an image file (?)" ++ nl)
            (hexlog w1))) = Raise e ->
  main gamma (pre ++ ArgFile prefix None bytes :: post)%list w =
    (Raise e,
     snd (convertWav (fst st) prefix bytes
            (World (stdout w1) (stderr w1 ++ "Not an image file (?)" ++ nl)
               (hexlog w1)))).
Proof.
  intros H He. unfold main. unfold bind at 1.
  rewrite for_each_app. unfold bind at 1. rewrite H.
  cbn [for_each]. unfold bind at 1. destruct st as [m g]. unfold main_arg.
  unfold bind at 1. rewrite convertImage_undecoded.
  change (-1 =? 1) with false. change (-1 =? -1) with true. cbv iota.
  unfold bind at 1. cbn [fst] in He |- *.
  cbv beta.
  match goal with
  | |- context [convertWav ?a ?b ?c ?d] =>
      destruct (convertWav a b c d) as [[r|e'] w']; cbn [fst snd] in *;
      [discriminate|]
  end.
  now injection He as ->.
Qed.

Lemma main_stops_at_exception_witness :
  fst (main (fun _ i => i)
         [ArgFile "img" (Some (Colour 1 1 (fun _ _ => (x00, x00, x00)%byte))) [];
          ArgFile "snd" None (wav_file 1 8000 0 8 3 (mk_bytes [1; 2; 3]));
          Arg10]
         world0) = Raise ZeroDivisionError.
Proof.
  refine (f_equal fst
            (main_stops_at_exception (fun _ i => i)
               [ArgFile "img"
                  (Some (Colour 1 1 (fun _ _ => (x00, x00, x00)%byte))) []]
               [Arg10] "snd" (wav_file 1 8000 0 8 3 (mk_bytes [1; 2; 3]))
               world0 _ (8, 1) ZeroDivisionError eq_refl eq_refl)).
Defined.

(** X20: A file that is neither an image nor a WAV file is reported once by
    each converter on [stderr], prints nothing on [stdout], and the loop
    goes on with the next argument in the same mode. *)
Theorem main_skips_unknown_file (prefix : string) (bytes : list byte)
    (rest : list arg) (st : Z * Z) (w : world) :
  wav_magic bytes = false ->
  for_each (ArgFile prefix None bytes :: rest) main_arg st w =
    for_each rest main_arg st
      (World (stdout w)
         (stderr w ++ ("Not an image file (?)" ++ nl) ++ "Not a WAV file" ++ nl)
         (hexlog w)).
Proof.
  intros Hm. cbn [for_each]. unfold bind at 1. destruct st as [m g].
  unfold main_arg. unfold bind at 1. rewrite convertImage_undecoded.
  change (-1 =? 1) with false. change (-1 =? -1) with true. cbv iota.
  unfold bind at 1.
  unfold convertWav, try_except, convertWav_body. rewrite Hm.
  unfold assert. unfold bind at 1, raise at 1.
  unfold bind at 1, stderr_write at 1. unfold ret at 1.
  cbn [stdout stderr hexlog]. unfold ret at 1.
  now rewrite append_assoc.
Qed.

Lemma main_skips_unknown_file_witness :
  for_each [ArgFile "txt" None (mk_bytes [104; 105]); Arg10] main_arg (8, 0)
    world0 =
  (Return (10, 0),
   World "" (("Not an image file (?)" ++ nl) ++ "Not a WAV file" ++ nl) []).
Proof.
  exact (main_skips_unknown_file "txt" (mk_bytes [104; 105]) [Arg10] (8, 0)
           world0 eq_refl).
Defined.

(** ** The 10-bit packing loses nothing *)

Lemma ten_bit_split (s : Z) :
  0 <= s <= 1023 ->
  0 <= Z.shiftr s 8 <= 3 /\
  Z.lor (Z.shiftl (Z.shiftr s 8) 8) (Z.land s 255) = s.
Proof.
  intros Hs.
  rewrite Z.shiftr_div_pow2 by lia.
  change (Z.land s 255) with (Z.land s (Z.ones 8)).
  rewrite Z.land_ones, Z.shiftl_mul_pow2 by lia.
  change (2 ^ 8) with 256.
  split; [Z.to_euclidean_division_equations; lia|].
  change 256 with (2 ^ 8) at 2.
  rewrite lor_disjoint; change (2 ^ 8) with 256;
    Z.to_euclidean_division_equations; lia.
Qed.

Lemma two_bits_cases (t : Z) : 0 <= t <= 3 -> t = 0 \/ t = 1 \/ t = 2 \/ t = 3.
Proof. lia. Qed.

(** The two-bit fields of the first byte of a group. *)
Lemma top_fields (t0 t1 t2 t3 : Z) :
  0 <= t0 <= 3 -> 0 <= t1 <= 3 -> 0 <= t2 <= 3 -> 0 <= t3 <= 3 ->
  let top := Z.lor (Z.lor (Z.lor (Z.shiftl t0 6) (Z.shiftl t1 4))
                          (Z.shiftl t2 2)) t3 in
  Z.land (Z.shiftr top 6) 3 = t0 /\ Z.land (Z.shiftr top 4) 3 = t1 /\
  Z.land (Z.shiftr top 2) 3 = t2 /\ Z.land (Z.shiftr top 0) 3 = t3.
Proof.
  intros H0 H1 H2 H3.
  destruct (two_bits_cases t0 H0) as [->|[->|[->| ->]]];
    destruct (two_bits_cases t1 H1) as [->|[->|[->| ->]]];
    destruct (two_bits_cases t2 H2) as [->|[->|[->| ->]]];
    destruct (two_bits_cases t3 H3) as [->|[->|[->| ->]]];
    vm_compute; repeat split.
Qed.

Ltac top_facts t0 t1 t2 t3 E0 E1 E2 E3 :=
  let H := fresh "Htop" in
  pose proof (top_fields t0 t1 t2 t3 ltac:(lia) ltac:(lia) ltac:(lia)
                ltac:(lia)) as H;
  cbv zeta in H; rewrite ?Z.shiftl_0_l, ?Z.lor_0_l in H;
  destruct H as (E0 & E1 & E2 & E3).

Lemma pack10_reads_back (ss : list Z) :
  Forall (fun s => 0 <= s <= 1023) ss ->
  forall g k : nat,
    (k < Nat.min 4 (List.length ss - 4 * g))%nat ->
    unpack10 (pack10 ss) (5 * g) (Nat.min 4 (List.length ss - 4 * g)) k =
      nth (4 * g + k) ss 0.
Proof.
  induction ss as [| a | a b | a b c | a b c d l IH] using list_ind4;
    intros Hb g k Hk.
  - cbn [List.length] in Hk. lia.
  - apply Forall_cons_iff in Hb as [Ha _].
    destruct (ten_bit_split a Ha) as [Ta Ea].
    destruct g as [|g]; [|cbn [List.length] in Hk; lia].
    destruct k as [|k]; [|cbn [List.length] in Hk; lia].
    unfold unpack10. cbn [pack10 List.length Nat.min Nat.sub Nat.mul Nat.add nth].
    top_facts 0 0 0 (Z.shiftr a 8) E0 E1 E2 E3.
    change (Z.of_nat 0) with 0. rewrite E3. exact Ea.
  - apply Forall_cons_iff in Hb as [Ha Hb].
    apply Forall_cons_iff in Hb as [Hb0 _].
    destruct (ten_bit_split a Ha) as [Ta Ea].
    destruct (ten_bit_split b Hb0) as [Tb Eb].
    destruct g as [|g]; [|cbn [List.length] in Hk; lia].
    top_facts 0 0 (Z.shiftr a 8) (Z.shiftr b 8) E0 E1 E2 E3.
    destruct k as [|[|k]]; [| |cbn [List.length] in Hk; lia];
      unfold unpack10;
      cbn [pack10 List.length Nat.min Nat.sub Nat.mul Nat.add nth].
    + change (Z.of_nat 2) with 2. rewrite E2. exact Ea.
    + change (Z.of_nat 0) with 0. rewrite E3. exact Eb.
  - apply Forall_cons_iff in Hb as [Ha Hb].
    apply Forall_cons_iff in Hb as [Hb0 Hb].
    apply Forall_cons_iff in Hb as [Hc0 _].
    destruct (ten_bit_split a Ha) as [Ta Ea].
    destruct (ten_bit_split b Hb0) as [Tb Eb].
    destruct (ten_bit_split c Hc0) as [Tc Ec].
    destruct g as [|g]; [|cbn [List.length] in Hk; lia].
    top_facts 0 (Z.shiftr a 8) (Z.shiftr b 8) (Z.shiftr c 8) E0 E1 E2 E3.
    destruct k as [|[|[|k]]]; [| | |cbn [List.length] in Hk; lia];
      unfold unpack10;
      cbn [pack10 List.length Nat.min Nat.sub Nat.mul Nat.add nth].
    + change (Z.of_nat 4) with 4. rewrite E1. exact Ea.
    + change (Z.of_nat 2) with 2. rewrite E2. exact Eb.
    + change (Z.of_nat 0) with 0. rewrite E3. exact Ec.
  - destruct g as [|g].
    + apply Forall_cons_iff in Hb as [Ha Hb].
      apply Forall_cons_iff in Hb as [Hb0 Hb].
      apply Forall_cons_iff in Hb as [Hc0 Hb].
      apply Forall_cons_iff in Hb as [Hd0 _].
      destruct (ten_bit_split a Ha) as [Ta Ea].
      destruct (ten_bit_split b Hb0) as [Tb Eb].
      destruct (ten_bit_split c Hc0) as [Tc Ec].
      destruct (ten_bit_split d Hd0) as [Td Ed].
      top_facts (Z.shiftr a 8) (Z.shiftr b 8) (Z.shiftr c 8) (Z.shiftr d 8)
        E0 E1 E2 E3.
      assert (Hn : Nat.min 4 (List.length (a :: b :: c :: d :: l) - 4 * 0) = 4%nat)
        by (cbn [List.length]; lia).
      rewrite Hn in Hk |- *.
      destruct k as [|[|[|[|k]]]]; [| | | |lia];
        unfold unpack10; cbn [pack10 Nat.sub Nat.mul Nat.add nth].
      * change (Z.of_nat 6) with 6. rewrite E0. exact Ea.
      * change (Z.of_nat 4) with 4. rewrite E1. exact Eb.
      * change (Z.of_nat 2) with 2. rewrite E2. exact Ec.
      * change (Z.of_nat 0) with 0. rewrite E3. exact Ed.
    + assert (Hl : (List.length (a :: b :: c :: d :: l) - 4 * S g =
                    List.length l - 4 * g)%nat) by (cbn [List.length]; lia).
      rewrite Hl in Hk |- *.
      do 4 apply Forall_cons_iff, proj2 in Hb.
      specialize (IH Hb g k Hk).
      replace (5 * S g)%nat with (5 + 5 * g)%nat by lia.
      replace (4 * S g + k)%nat with (4 + (4 * g + k))%nat by lia.
      unfold unpack10 in IH |- *.
      replace (5 + 5 * g + 1 + k)%nat with (5 + (5 * g + 1 + k))%nat by lia.
      cbn [pack10 Nat.add nth]. exact IH.
Qed.

(** X21: In 10-bit mode nothing of a sample is lost, and a reader needs the
    sample count to find the high bits: sample [k] of a group of [n]
    samples is the byte in slot [k + 1] of the group under the two bits
    of the group's first byte at bit [2 * (n - 1 - k)], where [n] is 4
    for a full group and the number of samples left for the trailing one.
    So the high bits of a trailing group of fewer than four samples sit
    lower in its first byte than those of a full group. *)
Theorem convertWav_10bit_reads_back (prefix : string) (bytes : list byte)
    (w : world) :
  wav_magic bytes = true -> wav_bitsPer bytes = 16 -> wav_complete bytes ->
  let ss := map (mix16 bytes 64) (range (wav_samples bytes)) in
  let out := pack10 ss in
  hexlog (snd (convertWav 10 prefix bytes w)) = (hexlog w ++ out)%list /\
  forall g k : nat,
    let n := Nat.min 4 (List.length ss - 4 * g) in
    (k < n)%nat ->
    unpack10 out (5 * g) n k = nth (4 * g + k) ss 0.
Proof.
  intros Hm H16 Hc ss out. split.
  - rewrite convertWav_run by assumption.
    unfold wav_values, written, ten_bit. cbn [snd hexlog].
    rewrite wav_mixed_16 by assumption.
    rewrite H16. reflexivity.
  - intros g k n Hk. apply pack10_reads_back; [|exact Hk].
    subst ss. apply Forall_map, Forall_forall. intros i _.
    destruct Hc as (_ & Hch & _).
    pose proof (mix16_range bytes 64 i Hch ltac:(lia)). lia.
Qed.

Lemma convertWav_10bit_reads_back_witness :
  let bytes := wav_file 1 8000 2 16 12
                 (mk_bytes [0; 128; 1; 128; 2; 128; 255; 127; 0; 0; 255; 255]) in
  let ss := map (mix16 bytes 64) (range (wav_samples bytes)) in
  wav_magic bytes = true /\ wav_bitsPer bytes = 16 /\ wav_complete bytes /\
  unpack10 (pack10 ss) (5 * 1) (Nat.min 4 (List.length ss - 4 * 1)) 0 =
    nth (4 * 1 + 0) ss 0.
Proof.
  cbv zeta.
  assert (Hm : wav_magic
                 (wav_file 1 8000 2 16 12
                    (mk_bytes [0; 128; 1; 128; 2; 128; 255; 127; 0; 0; 255; 255]))
               = true) by reflexivity.
  assert (H16 : wav_bitsPer
                  (wav_file 1 8000 2 16 12
                     (mk_bytes [0; 128; 1; 128; 2; 128; 255; 127; 0; 0; 255; 255]))
                = 16) by reflexivity.
  assert (Hc : wav_complete
                 (wav_file 1 8000 2 16 12
                    (mk_bytes [0; 128; 1; 128; 2; 128; 255; 127; 0; 0; 255; 255]))).
  { split; [|split].
    - vm_compute. discriminate.
    - vm_compute. discriminate.
    - intros _. vm_compute. split; discriminate. }
  split; [exact Hm|]. split; [exact H16|]. split; [exact Hc|].
  apply (proj2 (convertWav_10bit_reads_back "snd" _ world0 Hm H16 Hc) 1%nat 0%nat).
  vm_compute. lia.
Defined.
